(** * Executive weekly trend dashboard (app.py)

    A shallow embedding of the data pipeline of [app.py]: the two ticket
    tables are normalised and concatenated, every row is bucketed into its
    ISO week, the week axis is generated with
    [pd.date_range(start=min, end=max, freq='W-MON')], and the callback
    [update_chart] counts rows per (week, assignee), reindexes the counts
    on the full product of the two axes and emits one series per assignee.

    The pandas / NumPy routines the script calls are modelled next to it,
    as of pandas 2.x: the day-number to civil-date conversion, [dayofweek],
    the ISO calendar, the [Week(weekday=0)] offset and [date_range], the
    [%G-W%V-%u] parser, and [sort_values] with NumPy's quicksort. *)

From Stdlib Require Import ZArith List String Ascii Bool Lia.
From Stdlib Require Import Permutation Sorted DecimalString DecimalZ DecimalPos.
From Stdlib Require Import OrderedTypeEx.
Import ListNotations.
Local Open Scope Z_scope.

Ltac Zify.zify_post_hook ::= Z.to_euclidean_division_equations.

(** ** Exceptions *)

Inductive exn : Type :=
| ValueError
| OutOfBoundsDatetime.

Inductive result (A : Type) : Type :=
| Ok (a : A)
| Raise (e : exn).

Arguments Ok {A} a.
Arguments Raise {A} e.

Definition bind {A B : Type} (r : result A) (k : A -> result B) : result B :=
  match r with
  | Ok a => k a
  | Raise e => Raise e
  end.

Notation "x <- r ;; k" := (bind r (fun x => k))
  (at level 61, r at next level, right associativity).

Fixpoint mapM {A B : Type} (f : A -> result B) (l : list A) : result (list B) :=
  match l with
  | [] => Ok []
  | a :: l' => b <- f a ;; bs <- mapM f l' ;; Ok (b :: bs)
  end.

(** ** Calendar arithmetic (NumPy [np_datetime.c], pandas [ccalendar.pyx]) *)

Module Cal.

(** [is_leapyear]: [(year & 0x3) == 0 and (year % 100 != 0 or year % 400 == 0)]. *)
Definition is_leapyear (year : Z) : bool :=
  (Z.land year 3 =? 0) && (negb (year mod 100 =? 0) || (year mod 400 =? 0)).

Definition days_per_month_table (leap : bool) : list Z :=
  if leap then [31; 29; 31; 30; 31; 30; 31; 31; 30; 31; 30; 31]
  else [31; 28; 31; 30; 31; 30; 31; 31; 30; 31; 30; 31].

(** Cumulated month lengths, the non-leap row followed by the leap row. *)
Definition month_offset : list Z :=
  [0; 31; 59; 90; 120; 151; 181; 212; 243; 273; 304; 334; 365;
   0; 31; 60; 91; 121; 152; 182; 213; 244; 274; 305; 335; 366].

Definition get_day_of_year (year month day : Z) : Z :=
  let isleap := if is_leapyear year then 1 else 0 in
  nth (Z.to_nat (isleap * 13 + month - 1)) month_offset 0 + day.

(** Day number (days since 1970-01-01) of January 1st of [year]: the year
    part of [get_datetimestruct_days], with flooring division. *)
Definition year_start (year : Z) : Z :=
  365 * (year - 1970) + (year - 1969) / 4 - (year - 1901) / 100
  + (year - 1601) / 400.

Definition year_length (year : Z) : Z :=
  if is_leapyear year then 366 else 365.

(** [get_datetimestruct_days]: the day number of a civil date. *)
Definition get_datetimestruct_days (year month day : Z) : Z :=
  year_start year + get_day_of_year year month day - 1.

(** [days_to_yearsdays]: splits a day number into the year and the
    zero-based day within that year, through the 400/100/4/1-year cycles
    counted from 2000-01-01. *)
Definition days_to_yearsdays (days_ : Z) : Z * Z :=
  let days := days_ - (365 * 30 + 7) in
  let year := 400 * (days / 146097) in
  let days := days mod 146097 in
  if 366 <=? days then
    let year := year + 100 * ((days - 1) / 36524) in
    let days := (days - 1) mod 36524 in
    if 365 <=? days then
      let year := year + 4 * ((days + 1) / 1461) in
      let days := (days + 1) mod 1461 in
      if 366 <=? days then
        (year + (days - 1) / 365 + 2000, (days - 1) mod 365)
      else (year + 2000, days)
    else (year + 2000, days)
  else (year + 2000, days).

(** The month loop of [set_datetimestruct_days]. *)
Fixpoint month_day (month_lengths : list Z) (i : Z) (days : Z) : Z * Z :=
  match month_lengths with
  | [] => (i, days + 1)
  | len :: rest =>
      if days <? len then (i, days + 1)
      else month_day rest (i + 1) (days - len)
  end.

Definition set_datetimestruct_days (days : Z) : Z * Z * Z :=
  let '(year, yday) := days_to_yearsdays days in
  let '(month, day) :=
    month_day (days_per_month_table (is_leapyear year)) 1 yday in
  (year, month, day).

Definition sakamoto_arr : list Z := [0; 3; 2; 5; 0; 3; 5; 1; 4; 6; 2; 4].

(** [dayofweek]: Sakamoto's method, Monday is 0. *)
Definition dayofweek (y m d : Z) : Z :=
  let y := if m <? 3 then y - 1 else y in
  let day :=
    (y + y / 4 - y / 100 + y / 400 + nth (Z.to_nat (m - 1)) sakamoto_arr 0 + d)
    mod 7 in
  (day + 6) mod 7.

(** [get_iso_calendar], without the weekday component. *)
Definition get_iso_calendar (year month day : Z) : Z * Z :=
  let doy := get_day_of_year year month day in
  let dow := dayofweek year month day in
  let iso_week := (doy - 1) - dow + 3 in
  let iso_week := if 0 <=? iso_week then iso_week / 7 + 1 else iso_week in
  let iso_week :=
    if iso_week <? 0 then
      if (-2 <? iso_week) || ((iso_week =? -2) && is_leapyear (year - 1))
      then 53 else 52
    else if iso_week =? 53 then
      if 31 - day + dow <? 3 then 1 else iso_week
    else iso_week in
  let iso_year :=
    if (iso_week =? 1) && (month =? 12) then year + 1
    else if (52 <=? iso_week) && (month =? 1) then year - 1
    else year in
  (iso_year, iso_week).

(** [_calc_julian_from_V]: the year and the one-based day of the year of
    the day [iso_weekday] of ISO week [iso_week] of [iso_year]. *)
Definition calc_julian_from_V (iso_year iso_week iso_weekday : Z) : Z * Z :=
  let correction := (dayofweek iso_year 1 4 + 1) + 3 in
  let ordinal := iso_week * 7 + iso_weekday - correction in
  if ordinal <? 1 then
    let ordinal := ordinal + get_datetimestruct_days iso_year 1 1 in
    let iso_year := iso_year - 1 in
    (iso_year, ordinal - get_datetimestruct_days iso_year 1 1)
  else (iso_year, ordinal).

(** The ISO-8601 week of a day number, written from the standard's words:
    weeks run Monday to Sunday, a week belongs to the year that holds its
    Thursday, and week 1 is the week of the year's first Thursday, so the
    week number counts the Thursdays of that year up to this week's.
    Day 0 (1970-01-01) is a Thursday, so [monday_of z] is the Monday on or
    before day [z]. *)
Definition monday_of (z : Z) : Z := z - (z + 3) mod 7.

Definition iso8601_week (z : Z) : Z * Z :=
  let thursday := monday_of z + 3 in
  let iso_year := fst (days_to_yearsdays thursday) in
  (iso_year, (thursday - year_start iso_year) / 7 + 1).

(** The civil dates: a month in 1..12 and a day the month has. *)
Definition valid_date (y m d : Z) : Prop :=
  1 <= m <= 12 /\
  1 <= d <= nth (Z.to_nat (m - 1)) (days_per_month_table (is_leapyear y)) 0.

End Cal.

(** ** Timestamps

    A [Timestamp] is the [datetime64[ns]] value: nanoseconds since the
    epoch, inside the int64 range whose minimum is reserved for [NaT]. *)

Definition NS_PER_DAY : Z := 86400000000000.
Definition NS_PER_WEEK : Z := 7 * NS_PER_DAY.
Definition Timestamp_min : Z := -9223372036854775807.
Definition Timestamp_max : Z := 9223372036854775807.

Definition in_bounds (ts : Z) : bool :=
  (Timestamp_min <=? ts) && (ts <=? Timestamp_max).

Definition ts_days (ts : Z) : Z := ts / NS_PER_DAY.

Definition ts_fields (ts : Z) : Z * Z * Z :=
  Cal.set_datetimestruct_days (ts_days ts).

(** [Timestamp.weekday()]. *)
Definition weekday (ts : Z) : Z :=
  let '(y, m, d) := ts_fields ts in Cal.dayofweek y m d.

(** [.isocalendar()], the (year, week) columns. *)
Definition isocalendar (ts : Z) : Z * Z :=
  let '(y, m, d) := ts_fields ts in Cal.get_iso_calendar y m d.

(** [Timestamp + Timedelta], which raises outside the int64 range. *)
Definition ts_add (ts delta : Z) : result Z :=
  let r := ts + delta in
  if in_bounds r then Ok r else Raise OutOfBoundsDatetime.

(** A civil date and a time of day as a nanosecond count, to write inputs. *)
Definition mk_ts (year month day ns_of_day : Z) : Z :=
  Cal.get_datetimestruct_days year month day * NS_PER_DAY + ns_of_day.

(** ** Strings: [astype(str)], [str.zfill], the week label *)

Definition str_of_Z (z : Z) : string := NilZero.string_of_int (Z.to_int z).

Fixpoint repeat_char (c : ascii) (n : nat) : string :=
  match n with
  | O => EmptyString
  | S n' => String c (repeat_char c n')
  end.

Definition zfill (width : nat) (s : string) : string :=
  String.append (repeat_char "0"%char (width - String.length s)) s.

(** [year.astype(str) + '-W' + week.astype(str).str.zfill(2)]. *)
Definition week_label_of (yw : Z * Z) : string :=
  String.append (str_of_Z (fst yw))
    (String.append "-W" (zfill 2 (str_of_Z (snd yw)))).

Definition week_label_ts (ts : Z) : string := week_label_of (isocalendar ts).

Definition digit_of (c : ascii) : option Z :=
  let n := Z.of_N (N_of_ascii c) in
  if (48 <=? n) && (n <=? 57) then Some (n - 48) else None.

Definition digit_char (d : Z) : ascii := ascii_of_N (Z.to_N (48 + d)).

(** The label the interface promises: four year digits, ["-W"], two week
    digits. *)
Definition fixed_label (yw : Z * Z) : string :=
  let y := fst yw in
  let w := snd yw in
  String (digit_char (y / 1000))
    (String (digit_char (y / 100 mod 10))
       (String (digit_char (y / 10 mod 10))
          (String (digit_char (y mod 10))
             (String "-"%char
                (String "W"%char
                   (String (digit_char (w / 10))
                      (String (digit_char (w mod 10)) EmptyString))))))).

(** Matching a string against [%G-W%V-%u]: four digits, ["-W"], a week
    (two digits in 01..53, or else one digit), ["-"], a weekday in 1..7. *)
Definition strptime_GVu (s : string) : option (Z * Z * Z) :=
  match s with
  | String g1 (String g2 (String g3 (String g4
      (String "-"%char (String "W"%char rest))))) =>
      match digit_of g1, digit_of g2, digit_of g3, digit_of g4 with
      | Some a, Some b, Some c, Some d =>
          let G := 1000 * a + 100 * b + 10 * c + d in
          match rest with
          | String v1 (String v2 (String "-"%char (String u EmptyString))) =>
              match digit_of v1, digit_of v2, digit_of u with
              | Some p, Some q, Some wd =>
                  if (1 <=? 10 * p + q) && (10 * p + q <=? 53)
                     && (1 <=? wd) && (wd <=? 7)
                  then Some (G, 10 * p + q, wd) else None
              | _, _, _ => None
              end
          | String v1 (String "-"%char (String u EmptyString)) =>
              match digit_of v1, digit_of u with
              | Some p, Some wd =>
                  if (1 <=? wd) && (wd <=? 7) then Some (G, p, wd) else None
              | _, _ => None
              end
          | _ => None
          end
      | _, _, _, _ => None
      end
  | _ => None
  end.

(** [pd.to_datetime(s, format="%G-W%V-%u")]. *)
Definition to_datetime_GVu (s : string) : result Z :=
  match strptime_GVu s with
  | None => Raise ValueError
  | Some (G, V, u) =>
      let '(year, julian) := Cal.calc_julian_from_V G V u in
      let ts := (Cal.get_datetimestruct_days year 1 1 + (julian - 1)) * NS_PER_DAY in
      if in_bounds ts then Ok ts else Raise OutOfBoundsDatetime
  end.

(** ** Lists: [unique], [sorted], [min], [max] *)

(** [Series.unique()]: the distinct values in order of first appearance. *)
Definition unique (l : list string) : list string :=
  rev (nodup string_dec (rev l)).

Section Sorting.
Context {A : Type} (leb : A -> A -> bool).

Fixpoint insert (x : A) (l : list A) : list A :=
  match l with
  | [] => [x]
  | y :: l' => if leb x y then x :: y :: l' else y :: insert x l'
  end.

(** A stable sort: an element goes before the first one it does not
    exceed. *)
Definition sort_by (l : list A) : list A := fold_right insert [] l.
End Sorting.

(** Python's [sorted] on strings: code points, lexicographically. *)
Definition sorted (l : list string) : list string := sort_by String.leb l.

Definition ts_minimum (l : list Z) : option Z :=
  match l with
  | [] => None
  | x :: l' => Some (fold_left Z.min l' x)
  end.

Definition ts_maximum (l : list Z) : option Z :=
  match l with
  | [] => None
  | x :: l' => Some (fold_left Z.max l' x)
  end.

(** ** The [Week(weekday=0)] offset and [date_range] *)

Definition Week_is_on_offset (wd : Z) (dt : Z) : bool := weekday dt =? wd.

(** [Week(n, weekday=wd)._apply(other)]. *)
Definition Week_apply (n wd : Z) (other : Z) : result Z :=
  let otherDay := weekday other in
  if negb (otherDay =? wd) then
    other' <- ts_add other (((wd - otherDay) mod 7) * NS_PER_DAY) ;;
    ts_add other' ((if 0 <? n then n - 1 else n) * NS_PER_WEEK)
  else ts_add other (n * NS_PER_WEEK).

Definition Week_rollforward (wd : Z) (dt : Z) : result Z :=
  if Week_is_on_offset wd dt then Ok dt else Week_apply 1 wd dt.

(** [rollback(dt)] is [dt - Week(1, weekday=wd)], that is
    [Week(-1, weekday=wd)._apply(dt)], when [dt] is off the offset. *)
Definition Week_rollback (wd : Z) (dt : Z) : result Z :=
  if Week_is_on_offset wd dt then Ok dt else Week_apply (-1) wd dt.

(** The first lines of [_generate_range] (pandas 2.x): a start off the
    offset is rolled forward; [elif] the end is off the offset, the end is
    rolled back. *)
Definition roll_endpoints (wd : Z) (start end_ : Z) : result (Z * Z) :=
  if negb (Week_is_on_offset wd start) then
    start' <- Week_rollforward wd start ;; Ok (start', end_)
  else if negb (Week_is_on_offset wd end_) then
    end' <- Week_rollback wd end_ ;; Ok (start, end')
  else Ok (start, end_).

(** The generator loop of [_generate_range] for a non-negative offset:
    yield [cur], stop at [end_], otherwise step by the offset. *)
Fixpoint generate_range (fuel : nat) (wd : Z) (cur end_ : Z) : result (list Z) :=
  match fuel with
  | O => Ok []
  | S fuel' =>
      if cur <=? end_ then
        if cur =? end_ then Ok [cur]
        else
          next_date <- Week_apply 1 wd cur ;;
          if next_date <=? cur then Raise ValueError
          else
            rest <- generate_range fuel' wd next_date end_ ;;
            Ok (cur :: rest)
      else Ok []
  end.

(** [pd.date_range(start=..., end=..., freq='W-MON')]; [None] is [NaT],
    which [date_range] refuses.  After the endpoints are rolled, an end
    before the start is replaced by [start + (0 - 1) * offset], on which the
    loop yields nothing; otherwise the loop runs on more fuel than it takes
    steps.  Every addition may leave [datetime64[ns]] and raise. *)
Definition date_range_W_MON (start end_ : option Z) : result (list Z) :=
  match start, end_ with
  | Some s, Some e =>
      se <- roll_endpoints 0 s e ;;
      if snd se <? fst se then
        end' <- Week_apply (-1) 0 (fst se) ;;
        generate_range 1 0 (fst se) end'
      else
        generate_range (Z.to_nat ((snd se - fst se) / NS_PER_WEEK + 2)) 0
                       (fst se) (snd se)
  | _, _ => Raise ValueError
  end.

(** ** The ticket tables *)

Inductive Source : Type :=
| Incident
| Task.

(** A row of [incident.csv] or [sc_task.csv] projected on the three columns
    the script keeps, for tables whose [assigned_to] and [assignment_group]
    columns [read_csv] leaves as text: a cell is a string, or [None] when it
    is missing ([NaN]).  A column of numerals only is read as numbers and is
    outside this model: numbers sort by value and not as strings, [sorted]
    raises [TypeError] on a column that mixes them with the fill-in text,
    and the number 0 is a falsy filter value.  [raw_opened_at] holds the
    instant the cell's text denotes, in nanoseconds since the epoch, and
    [None] when [pd.to_datetime] cannot read the text. *)
Record RawRow : Type := mkRawRow {
  raw_assigned_to : option string;
  raw_assignment_group : option string;
  raw_opened_at : option Z
}.

(** A row of [combined_df]. *)
Record Row : Type := mkRow {
  assigned_to : string;
  assignment_group : string;
  opened_at : Z;
  source : Source
}.

Definition fillna (value : string) (cell : option string) : string :=
  match cell with
  | Some s => s
  | None => value
  end.

(** [pd.to_datetime(..., errors='coerce')]: what cannot be parsed, or does
    not fit [datetime64[ns]], becomes [NaT]. *)
Definition to_datetime_coerce (cell : option Z) : option Z :=
  match cell with
  | Some t => if in_bounds t then Some t else None
  | None => None
  end.

(** Fill the missing names, parse the date; [None] when [dropna] removes
    the row. *)
Definition normalise (src : Source) (r : RawRow) : option Row :=
  match to_datetime_coerce (raw_opened_at r) with
  | Some t =>
      Some (mkRow (fillna "Unassigned" (raw_assigned_to r))
                  (fillna "Unknown" (raw_assignment_group r)) t src)
  | None => None
  end.

Fixpoint dropna (l : list (option Row)) : list Row :=
  match l with
  | [] => []
  | Some r :: l' => r :: dropna l'
  | None :: l' => dropna l'
  end.

(** [combined_df] after lines 29-37. *)
Definition build_combined_df (incident_df task_df : list RawRow) : list Row :=
  dropna (map (normalise Incident) incident_df ++ map (normalise Task) task_df).

(** The columns [year], [week] and [week_label] of lines 40-42. *)
Definition year (r : Row) : Z := fst (isocalendar (opened_at r)).
Definition week (r : Row) : Z := snd (isocalendar (opened_at r)).
Definition week_label (r : Row) : string := week_label_of (year r, week r).

(** Lines 46-47. *)
Definition all_weeks (df : list Row) : result (list Z) :=
  date_range_W_MON (ts_minimum (map opened_at df)) (ts_maximum (map opened_at df)).

Definition all_week_labels (weeks : list Z) : list string :=
  map (fun t => week_label_of (isocalendar t)) weeks.

(** The module-level state the callback reads. *)
Record Context : Type := mkContext {
  combined_df : list Row;
  assignment_groups : list string;
  unique_weeks : list string;
  unique_people : list string
}.

(** Lines 33-49 on tables with text name columns: importing the module
    either raises, in [date_range], or leaves a context ([sorted] compares
    strings only and cannot raise). *)
Definition load (incident_df task_df : list RawRow) : result Context :=
  let df := build_combined_df incident_df task_df in
  let groups := sorted (unique (map assignment_group df)) in
  weeks <- all_weeks df ;;
  Ok (mkContext df groups
        (sorted (unique (all_week_labels weeks)))
        (sorted (unique (map assigned_to df)))).

(** ** The callback [update_chart] *)

Definition Key : Type := (string * string)%type.
Definition Cell : Type := (Key * Z)%type.

Definition cell_week (c : Cell) : string := fst (fst c).
Definition cell_person (c : Cell) : string := snd (fst c).
Definition cell_count (c : Cell) : Z := snd c.

Definition key_eqb (a b : Key) : bool :=
  String.eqb (fst a) (fst b) && String.eqb (snd a) (snd b).

Definition key_leb (a b : Key) : bool :=
  String.ltb (fst a) (fst b)
  || (String.eqb (fst a) (fst b) && String.leb (snd a) (snd b)).

Definition row_key (r : Row) : Key := (week_label r, assigned_to r).

Fixpoint unique_keys (seen : list Key) (l : list Key) : list Key :=
  match l with
  | [] => []
  | k :: l' =>
      if existsb (key_eqb k) seen then unique_keys seen l'
      else k :: unique_keys (k :: seen) l'
  end.

(** [if selected_group: df = df[df['assignment_group'] == selected_group]];
    [None] and the empty string are falsy. *)
Definition select_group (df : list Row) (selected_group : option string) : list Row :=
  match selected_group with
  | None => df
  | Some g =>
      if String.eqb g EmptyString then df
      else filter (fun r => String.eqb (assignment_group r) g) df
  end.

Definition group_size (df : list Row) (k : Key) : Z :=
  Z.of_nat (List.length (filter (fun r => key_eqb (row_key r) k) df)).

(** [df.groupby(['week_label', 'assigned_to']).size().reset_index(name='count')]. *)
Definition grouped (df : list Row) : list Cell :=
  map (fun k => (k, group_size df k))
      (sort_by key_leb (unique_keys [] (map row_key df))).

(** [pd.MultiIndex.from_product([unique_weeks, unique_people])]. *)
Definition full_index (ctx : Context) : list Key :=
  list_prod (unique_weeks ctx) (unique_people ctx).

Fixpoint lookup_cell (k : Key) (cells : list Cell) : option Z :=
  match cells with
  | [] => None
  | (k', n) :: cells' => if key_eqb k k' then Some n else lookup_cell k cells'
  end.

(** [.set_index([...]).reindex(index, fill_value=...)]. *)
Definition reindex (cells : list Cell) (index : list Key) (fill_value : Z) : list Cell :=
  map (fun k => (k, match lookup_cell k cells with
                    | Some n => n
                    | None => fill_value
                    end)) index.

(** The dictionary of lines 103-105. *)
Definition week_to_date (weeks : list string) : result (list (string * Z)) :=
  mapM (fun label =>
          d <- to_datetime_GVu (String.append label "-1") ;; Ok (label, d))
       weeks.

Fixpoint dict_get (label : string) (d : list (string * Z)) : option Z :=
  match d with
  | [] => None
  | (l, v) :: d' => if String.eqb label l then Some v else dict_get label d'
  end.

(** The order of [sort_values(by=['week_sort', 'assigned_to'])]; a label
    missing from the dictionary maps to [NaT], which sorts last. *)
Definition week_sort_leb (d : list (string * Z)) (a b : Cell) : bool :=
  match dict_get (cell_week a) d, dict_get (cell_week b) d with
  | Some x, Some y =>
      (x <? y) || ((x =? y) && String.leb (cell_person a) (cell_person b))
  | Some _, None => true
  | None, Some _ => false
  | None, None => String.leb (cell_person a) (cell_person b)
  end.

(** Lines 90-107: the dense table [filled], sorted. *)
Definition filled (ctx : Context) (selected_group : option string) : result (list Cell) :=
  let df := select_group (combined_df ctx) selected_group in
  let table := reindex (grouped df) (full_index ctx) 0 in
  d <- week_to_date (unique_weeks ctx) ;;
  Ok (sort_by (week_sort_leb d) table).

Definition sum_Z (l : list Z) : Z := fold_right Z.add 0 l.

Definition person_df (table : list Cell) (person : string) : list Cell :=
  filter (fun c => String.eqb (cell_person c) person) table.

(** [filled.groupby('assigned_to')['count'].sum()]: one total per assignee,
    the index in ascending order. *)
Definition count_sums (table : list Cell) : list (string * Z) :=
  map (fun p => (p, sum_Z (map cell_count (person_df table p))))
      (sorted (unique (map cell_person table))).

Record Trace : Type := mkTrace {
  trace_name : string;
  trace_x : list string;
  trace_y : list Z;
  trace_text : list string
}.

Definition make_trace (table : list Cell) (person : string) : Trace :=
  let rows := person_df table person in
  mkTrace person (map cell_week rows) (map cell_count rows)
    (map (fun c => if 0 <? cell_count c then str_of_Z (cell_count c) else EmptyString)
         rows).

Definition trace_total (t : Trace) : Z := sum_Z (trace_y t).

(** What [Series.sort_values(ascending=False)] promises with its default
    [kind='quicksort']: the same entries, values non-increasing.  The sort is
    not a stable one, so the order of equal values is left to NumPy. *)
Definition sort_values_contract (srt : list (string * Z) -> list (string * Z)) : Prop :=
  forall l,
    Permutation (srt l) l /\
    StronglySorted (fun a b => snd b <= snd a) (srt l).

Section Callback.
Variable sort_values_desc : list (string * Z) -> list (string * Z).

(** Lines 116-122. *)
Definition totals (table : list Cell) : list string :=
  map fst (sort_values_desc (count_sums table)).

(** [update_chart]: the traces added to the figure, in order. *)
Definition update_chart (ctx : Context) (selected_group : option string)
  : result (list Trace) :=
  table <- filled ctx selected_group ;;
  Ok (map (make_trace table) (totals table)).
End Callback.

(** A sort that meets the contract: it inserts into a list kept in
    non-increasing order, walking the input from its end, so that equal
    values keep their order. *)
Definition desc_leb (a b : string * Z) : bool := snd b <=? snd a.

Definition sort_desc_stable (l : list (string * Z)) : list (string * Z) :=
  sort_by desc_leb l.

(** ** [Series.sort_values(ascending=False)] as pandas and NumPy run it *)

(** C arrays as lists, read and written by position. *)
Definition aget (a : list Z) (i : Z) : Z := nth (Z.to_nat i) a 0.

Fixpoint aset_nat (a : list Z) (i : nat) (x : Z) : list Z :=
  match a, i with
  | [], _ => []
  | _ :: t, O => x :: t
  | h :: t, S i' => h :: aset_nat t i' x
  end.

Definition aset (a : list Z) (i x : Z) : list Z := aset_nat a (Z.to_nat i) x.

(** [INTP_SWAP] on the positions [p] and [q]. *)
Definition aswap (a : list Z) (p q : Z) : list Z :=
  aset (aset a p (aget a q)) q (aget a p).

(** [v[*p]]: the value the index at position [p] points to. *)
Definition key (v tosort : list Z) (p : Z) : Z := aget v (aget tosort p).

Definition SMALL_QUICKSORT : Z := 16.

(** [do ++pi; while (v[*pi] < vp)] and [do --pj; while (vp < v[*pj])]. *)
Fixpoint scan_up (fuel : nat) (v tosort : list Z) (vp pi : Z) : option Z :=
  match fuel with
  | O => None
  | S fuel' =>
      let pi' := pi + 1 in
      if key v tosort pi' <? vp then scan_up fuel' v tosort vp pi'
      else Some pi'
  end.

Fixpoint scan_down (fuel : nat) (v tosort : list Z) (vp pj : Z) : option Z :=
  match fuel with
  | O => None
  | S fuel' =>
      let pj' := pj - 1 in
      if vp <? key v tosort pj' then scan_down fuel' v tosort vp pj'
      else Some pj'
  end.

(** The [for (;;)] loop of the partition; returns the indices and [pi]. *)
Fixpoint partition_loop (fuel : nat) (v tosort : list Z) (vp pi pj : Z)
  : option (list Z * Z) :=
  match fuel with
  | O => None
  | S fuel' =>
      match scan_up (List.length tosort) v tosort vp pi with
      | None => None
      | Some pi' =>
          match scan_down (List.length tosort) v tosort vp pj with
          | None => None
          | Some pj' =>
              if pi' >=? pj' then Some (tosort, pi')
              else partition_loop fuel' v (aswap tosort pi' pj') vp pi' pj'
          end
      end
  end.

(** A pending partition on the stack, with the depth saved beside it. *)
Definition Frame : Type := (Z * Z * Z)%type.

(** [while ((pr - pl) > SMALL_QUICKSORT)]: median of three, partition, push
    the larger part, go on with the smaller one. *)
Fixpoint partition_small (fuel : nat) (v tosort : list Z) (pl pr : Z)
         (stack : list Frame) (cdepth : Z)
  : option (list Z * Z * Z * list Frame) :=
  match fuel with
  | O => None
  | S fuel' =>
      if pr - pl >? SMALL_QUICKSORT then
        let pm := pl + Z.shiftr (pr - pl) 1 in
        let t1 := if key v tosort pm <? key v tosort pl
                  then aswap tosort pm pl else tosort in
        let t2 := if key v t1 pr <? key v t1 pm then aswap t1 pr pm else t1 in
        let t3 := if key v t2 pm <? key v t2 pl then aswap t2 pm pl else t2 in
        let vp := key v t3 pm in
        let t4 := aswap t3 pm (pr - 1) in
        match partition_loop (List.length tosort) v t4 vp pl (pr - 1) with
        | None => None
        | Some (t5, pi) =>
            let t6 := aswap t5 pi (pr - 1) in
            let cdepth' := cdepth - 1 in
            if pi - pl <? pr - pi then
              partition_small fuel' v t6 pl (pi - 1)
                              ((pi + 1, pr, cdepth') :: stack) cdepth'
            else
              partition_small fuel' v t6 (pi + 1) pr
                              ((pl, pi - 1, cdepth') :: stack) cdepth'
        end
      else Some (tosort, pl, pr, stack)
  end.

(** The inner [while] of the insertion sort: shift the larger entries up;
    it takes at most [pj - pl] steps. *)
Fixpoint shift_up (fuel : nat) (v tosort : list Z) (vp pl pj : Z) : list Z * Z :=
  match fuel with
  | O => (tosort, pj)
  | S fuel' =>
      if (pl <? pj) && (vp <? key v tosort (pj - 1)) then
        shift_up fuel' v (aset tosort pj (aget tosort (pj - 1))) vp pl (pj - 1)
      else (tosort, pj)
  end.

Definition insertion_sort (v tosort : list Z) (pl pr : Z) : list Z :=
  fold_left
    (fun t k =>
       let pi := pl + 1 + Z.of_nat k in
       let vi := aget t pi in
       let '(t', pj) := shift_up (Z.to_nat (pi - pl)) v t (aget v vi) pl pi in
       aset t' pj vi)
    (seq 0 (Z.to_nat (pr - pl))) tosort.

(** [aheapsort_] on the [n] indices from position [pl]; [a = pl - 1] makes
    the heap one-based.  The inner [for] of both phases sifts [tmp] down
    from [i]. *)
Fixpoint sift_down (fuel : nat) (v tosort : list Z) (a n tmp i j : Z)
  : option (list Z) :=
  match fuel with
  | O => None
  | S fuel' =>
      if j <=? n then
        let j' := if (j <? n) && (key v tosort (a + j) <? key v tosort (a + j + 1))
                  then j + 1 else j in
        if aget v tmp <? key v tosort (a + j') then
          sift_down fuel' v (aset tosort (a + i) (aget tosort (a + j'))) a n
                    tmp j' (j' + j')
        else Some (aset tosort (a + i) tmp)
      else Some (aset tosort (a + i) tmp)
  end.

Fixpoint heapify (fuel : nat) (v tosort : list Z) (a n l : Z) : option (list Z) :=
  match fuel with
  | O => None
  | S fuel' =>
      if 0 <? l then
        match sift_down (S (List.length tosort)) v tosort a n
                        (aget tosort (a + l)) l (Z.shiftl l 1) with
        | None => None
        | Some t => heapify fuel' v t a n (l - 1)
        end
      else Some tosort
  end.

Fixpoint heap_extract (fuel : nat) (v tosort : list Z) (a n : Z) : option (list Z) :=
  match fuel with
  | O => None
  | S fuel' =>
      if 1 <? n then
        let tmp := aget tosort (a + n) in
        let t := aset tosort (a + n) (aget tosort (a + 1)) in
        match sift_down (S (List.length tosort)) v t a (n - 1) tmp 1 2 with
        | None => None
        | Some t' => heap_extract fuel' v t' a (n - 1)
        end
      else Some tosort
  end.

Definition aheapsort (v tosort : list Z) (pl n : Z) : option (list Z) :=
  match heapify (S (List.length tosort)) v tosort (pl - 1) n (Z.shiftr n 1) with
  | None => None
  | Some t => heap_extract (S (List.length tosort)) v t (pl - 1) n
  end.

(** The outer [while (1)] of [aquicksort_]: a part whose depth is used up
    goes to the heap sort, any other is partitioned down to at most
    [SMALL_QUICKSORT + 1] entries, which the insertion sort finishes; then
    the next part is popped. *)
Fixpoint aquicksort_loop (fuel : nat) (v tosort : list Z) (pl pr : Z)
         (stack : list Frame) (cdepth : Z) : option (list Z) :=
  match fuel with
  | O => None
  | S fuel' =>
      let sorted_part :=
        if cdepth <? 0 then
          match aheapsort v tosort pl (pr - pl + 1) with
          | None => None
          | Some t => Some (t, stack)
          end
        else
          match partition_small (S (List.length tosort)) v tosort pl pr stack
                                cdepth with
          | None => None
          | Some (t, pl', pr', stack') =>
              Some (insertion_sort v t pl' pr', stack')
          end in
      match sorted_part with
      | None => None
      | Some (t, []) => Some t
      | Some (t, (pl', pr', depth) :: stack') =>
          aquicksort_loop fuel' v t pl' pr' stack' depth
      end
  end.

(** [np.argsort(v, kind='quicksort')] on an int64 array, NumPy's portable
    kernel [aquicksort_] (npysort/quicksort): an introsort on the indices
    [0 .. n-1], with depth limit [2 * npy_get_msb(n)].  [None] when the
    fuel of a loop runs out.  The sort is not stable, and a build that
    dispatches to a vectorised kernel may leave equal values in another
    order than this one. *)
Definition npy_aquicksort (v : list Z) : option (list Z) :=
  let num := Z.of_nat (List.length v) in
  aquicksort_loop (S (List.length v)) v
                  (map Z.of_nat (seq 0 (List.length v)))
                  0 (num - 1) [] (Z.log2 num * 2).

(** [nargsort(items, kind='quicksort', ascending=False)] on values without
    missing entries: the values and their positions are reversed, sorted in
    ascending order, and the result is reversed. *)
Definition nargsort_descending (items : list Z) : option (list Z) :=
  let idx := map Z.of_nat (seq 0 (List.length items)) in
  let non_nans := rev items in
  let non_nan_idx := rev idx in
  match npy_aquicksort non_nans with
  | Some order => Some (rev (map (aget non_nan_idx) order))
  | None => None
  end.

(** [Series.sort_values(ascending=False)]: the entries taken in the order
    of the indexer (left as they are if a loop of the kernel ran out of
    fuel). *)
Definition sort_values_quicksort (s : list (string * Z)) : list (string * Z) :=
  match nargsort_descending (map snd s) with
  | Some indexer => map (fun i => nth (Z.to_nat i) s (EmptyString, 0)) indexer
  | None => s
  end.

(** ** Notions used in the statements *)

(** Chronological order of week keys: lexicographic on (ISO year, ISO week). *)
Definition key_lt (a b : Z * Z) : Prop :=
  fst a < fst b \/ (fst a = fst b /\ snd a < snd b).

(** The weeks [s], [s] + 1 week, ... ([n] of them). *)
Definition week_steps (s : Z) (n : nat) : list Z :=
  map (fun i => s + Z.of_nat i * NS_PER_WEEK) (seq 0 n).

(** The week axis a successful import computes: in-range Mondays, each a
    week or more after the one before. *)
Definition weeks_ok (L : list Z) : Prop :=
  Forall (fun t => in_bounds t = true /\ weekday t = 0) L /\
  StronglySorted (fun a b => ts_days a + 7 <= ts_days b) L.

(** Midnight of the day of a timestamp. *)
Definition midnight (t : Z) : Z := ts_days t * NS_PER_DAY.

(** The cells of an index with the number of rows of [df] under each key. *)
Definition count_table (df : list Row) (index : list Key) : list Cell :=
  map (fun k => (k, group_size df k)) index.

(** Orders on the traces of a figure: by total alone, and by total with
    ties settled by the assignee's name. *)
Definition by_total_desc (a b : Trace) : Prop :=
  trace_total b <= trace_total a.

Definition by_total_then_name (a b : Trace) : Prop :=
  trace_total b < trace_total a \/
  (trace_total a = trace_total b /\
   String.ltb (trace_name a) (trace_name b) = true).

(** ** Sample tables *)

Definition ticket (person group : string) (opened : Z) : RawRow :=
  mkRawRow (Some person) (Some group) (Some opened).

(** Two tickets, opened on Wednesday 2024-01-03 and Wednesday 2024-01-17. *)
Definition two_wednesdays : list RawRow :=
  [ticket "A" "X" (mk_ts 2024 1 3 0); ticket "B" "Y" (mk_ts 2024 1 17 0)].

(** Two tickets of one ISO week, Wednesday 2024-01-03 and Friday
    2024-01-05. *)
Definition one_week : list RawRow :=
  [ticket "A" "X" (mk_ts 2024 1 3 0); ticket "B" "Y" (mk_ts 2024 1 5 0)].

(** Two tickets opened on Monday 2024-01-01, one per assignee. *)
Definition one_monday : list RawRow :=
  [ticket "A" "X" (mk_ts 2024 1 1 0); ticket "B" "Y" (mk_ts 2024 1 1 0)].

(** A table whose only date cell cannot be read. *)
Definition unreadable : list RawRow :=
  [mkRawRow (Some "A"%string) (Some "X"%string) None].

Definition one_monday_ctx : Context :=
  mkContext
    [mkRow "A" "X" 1704067200000000000 Incident;
     mkRow "B" "Y" 1704067200000000000 Incident]
    ["X"; "Y"]%string ["2024-W01"%string] ["A"; "B"]%string.

(** Two tickets opened on Monday 2023-12-25 and on Monday 2024-01-08: the
    weeks 2023-W52, 2024-W01 and 2024-W02. *)
Definition across_new_year : list RawRow :=
  [ticket "A" "X" (mk_ts 2023 12 25 0); ticket "B" "Y" (mk_ts 2024 1 8 0)].

Definition across_new_year_ctx : Context :=
  mkContext
    [mkRow "A" "X" 1703462400000000000 Incident;
     mkRow "B" "Y" 1704672000000000000 Incident]
    ["X"; "Y"]%string ["2023-W52"; "2024-W01"; "2024-W02"]%string
    ["A"; "B"]%string.

(** Two tickets, opened on Monday 2024-01-01 at 10:00 and on Wednesday
    2024-01-10 at 09:00. *)
Definition monday_to_wednesday : list RawRow :=
  [ticket "A" "X" (mk_ts 2024 1 1 36000000000000);
   ticket "B" "Y" (mk_ts 2024 1 10 32400000000000)].

(** Thirty tickets opened on Monday 2024-01-01 for twenty assignees: one
    each, and a second one for every other assignee, from the second on. *)
Definition twenty_names : list string :=
  ["P01"; "P02"; "P03"; "P04"; "P05"; "P06"; "P07"; "P08"; "P09"; "P10";
   "P11"; "P12"; "P13"; "P14"; "P15"; "P16"; "P17"; "P18"; "P19"; "P20"]%string.

Definition busy_monday : list RawRow :=
  map (fun p => ticket p "X" (mk_ts 2024 1 1 0)) twenty_names
  ++ map (fun p => ticket p "X" (mk_ts 2024 1 1 0))
         ["P02"; "P04"; "P06"; "P08"; "P10";
          "P12"; "P14"; "P16"; "P18"; "P20"]%string.

(** ** The palette and the filter options *)

(** Lines 110-114. *)
Definition palette : list string :=
  ["#1f77b4"; "#ff7f0e"; "#2ca02c"; "#d62728";
   "#9467bd"; "#8c564b"; "#e377c2"; "#7f7f7f";
   "#bcbd22"; "#17becf"]%string.

(** [palette[i % len(palette)]]: the line colour of the [i]-th trace of the
    loop of lines 124-138. *)
Definition trace_color (i : nat) : string :=
  nth (i mod List.length palette) palette EmptyString.

(** The options of the group dropdown (line 68): a label and a value per
    assignment group. *)
Definition dropdown_options (ctx : Context) : list (string * string) :=
  map (fun g => (g, g)) (assignment_groups ctx).

(** A cell of the date column that [to_datetime] reads and [dropna] keeps. *)
Definition readable (raw : RawRow) : bool :=
  match to_datetime_coerce (raw_opened_at raw) with
  | Some _ => true
  | None => false
  end.

(** The time of day of a timestamp, in nanoseconds. *)
Definition time_of_day (t : Z) : Z := t mod NS_PER_DAY.

(** A row of [combined_df] without its [source] column. *)
Definition drop_source (r : Row) : string * string * Z :=
  (assigned_to r, assignment_group r, opened_at r).

(** The two ends between which [date_range] steps, written out: the
    earliest date moved forward to a Monday at the same time of day, and the
    latest date, moved back to the Monday of its week when the earliest date
    is on a Monday. *)
Definition rolled_start (earliest : Z) : Z :=
  earliest + (- weekday earliest) mod 7 * NS_PER_DAY.

Definition rolled_end (earliest latest : Z) : Z :=
  if weekday earliest =? 0 then latest - weekday latest * NS_PER_DAY
  else latest.

(** * Properties *)

(** ** The calendar routines *)

Module CalFacts.
Import Cal.

Lemma land3 y : Z.land y 3 = y mod 4.
Proof. change 3 with (Z.ones 2). rewrite Z.land_ones by lia. reflexivity. Qed.

Lemma is_leapyear_true y :
  is_leapyear y = true <-> y mod 4 = 0 /\ (y mod 100 <> 0 \/ y mod 400 = 0).
Proof.
  unfold is_leapyear. rewrite land3.
  rewrite andb_true_iff, orb_true_iff, negb_true_iff, !Z.eqb_eq, Z.eqb_neq.
  tauto.
Qed.

Lemma is_leapyear_false y :
  is_leapyear y = false <-> ~ (y mod 4 = 0 /\ (y mod 100 <> 0 \/ y mod 400 = 0)).
Proof.
  rewrite <- is_leapyear_true. destruct (is_leapyear y); split; congruence.
Qed.

(** Case split on the leap flag of a year, leaving arithmetic facts. *)
Ltac leap_cases y :=
  let E := fresh "Hleap" in
  destruct (is_leapyear y) eqn:E;
  [ apply is_leapyear_true in E | apply is_leapyear_false in E ].

Lemma year_start_succ y : year_start (y + 1) = year_start y + year_length y.
Proof. unfold year_length, year_start. leap_cases y; lia. Qed.

Lemma year_length_bounds y : 365 <= year_length y <= 366.
Proof. unfold year_length. destruct (is_leapyear y); lia. Qed.

Lemma year_start_lt a b : a < b -> year_start a < year_start b.
Proof. unfold year_start. lia. Qed.

Lemma days_to_yearsdays_spec z :
  z = year_start (fst (days_to_yearsdays z)) + snd (days_to_yearsdays z) /\
  0 <= snd (days_to_yearsdays z) < year_length (fst (days_to_yearsdays z)).
Proof.
  unfold days_to_yearsdays.
  repeat match goal with
         | |- context [?a <=? ?b] => destruct (Z.leb_spec a b)
         end;
    cbn [fst snd]; unfold year_length;
    match goal with |- context [is_leapyear ?y] => leap_cases y end;
    unfold year_start; lia.
Qed.

Lemma year_of_unique z Y :
  year_start Y <= z < year_start (Y + 1) -> fst (days_to_yearsdays z) = Y.
Proof.
  intros H. pose proof (days_to_yearsdays_spec z) as [E B].
  set (y := fst (days_to_yearsdays z)) in *.
  set (d := snd (days_to_yearsdays z)) in *.
  pose proof (year_start_succ y).
  destruct (Z.lt_trichotomy y Y) as [L | [L | L]]; auto.
  - assert (year_start (y + 1) <= year_start Y).
    { destruct (Z.eq_dec (y + 1) Y) as [->|]; [lia|].
      apply Z.lt_le_incl, year_start_lt. lia. }
    lia.
  - assert (year_start (Y + 1) <= year_start y).
    { destruct (Z.eq_dec (Y + 1) y) as [->|]; [lia|].
      apply Z.lt_le_incl, year_start_lt. lia. }
    lia.
Qed.

Ltac month_cases m :=
  let H := fresh in
  assert (H : m = 1 \/ m = 2 \/ m = 3 \/ m = 4 \/ m = 5 \/ m = 6 \/ m = 7 \/
              m = 8 \/ m = 9 \/ m = 10 \/ m = 11 \/ m = 12) by lia;
  repeat (destruct H as [H | H]); subst m.

Ltac eval_nth :=
  repeat match goal with
         | |- context [nth ?n ?l ?d] =>
             let v := eval vm_compute in (nth n l d) in
             change (nth n l d) with v
         end.

Lemma set_datetimestruct_days_spec z :
  let '(y, m, d) := set_datetimestruct_days z in
  valid_date y m d /\ get_datetimestruct_days y m d = z.
Proof.
  unfold set_datetimestruct_days.
  pose proof (days_to_yearsdays_spec z) as [E B].
  destruct (days_to_yearsdays z) as [y yd]. cbn [fst snd] in *.
  unfold valid_date, get_datetimestruct_days, get_day_of_year, year_length in *.
  destruct (is_leapyear y) eqn:L; cbn [days_per_month_table month_day];
    repeat match goal with
           | |- context [?a <? ?b] => destruct (Z.ltb_spec a b)
           end; rewrite ?L; eval_nth; lia.
Qed.

Lemma year_start_alt y :
  year_start y =
  365 * (y - 1970) + (y - 1) / 4 - (y - 1) / 100 + (y - 1) / 400 - 477.
Proof. unfold year_start. lia. Qed.

Lemma year_start_alt' y :
  year_start y =
  365 * (y - 1969) + y / 4 - y / 100 + y / 400 - 477 - year_length y.
Proof.
  pose proof (year_start_succ y) as H. rewrite year_start_alt in H.
  replace (y + 1 - 1) with y in H by lia. lia.
Qed.

Lemma dayofweek_spec y m d :
  valid_date y m d -> dayofweek y m d = (get_datetimestruct_days y m d + 3) mod 7.
Proof.
  intros [Hm Hd].
  unfold get_datetimestruct_days, get_day_of_year, dayofweek.
  assert (m < 3 \/ 3 <= m) as [Lo | Hi] by lia.
  - rewrite year_start_alt.
    destruct (Z.ltb_spec m 3); [|lia].
    generalize ((y - 1) / 4) ((y - 1) / 100) ((y - 1) / 400). intros a b c.
    destruct (is_leapyear y); month_cases m; try lia; eval_nth; lia.
  - rewrite year_start_alt'. unfold year_length.
    destruct (Z.ltb_spec m 3); [lia|].
    generalize (y / 4) (y / 100) (y / 400). intros a b c.
    destruct (is_leapyear y); month_cases m; try lia; eval_nth; lia.
Qed.

Lemma weekday_range y m d : 0 <= dayofweek y m d <= 6.
Proof. unfold dayofweek. lia. Qed.

(** [get_iso_calendar] computes the ISO-8601 week of the date. *)
Lemma get_iso_calendar_spec y m d :
  valid_date y m d ->
  get_iso_calendar y m d = iso8601_week (get_datetimestruct_days y m d).
Proof.
  intros V. pose proof (dayofweek_spec y m d V) as W.
  unfold get_iso_calendar, iso8601_week, monday_of.
  rewrite <- W.
  set (dow := dayofweek y m d) in *.
  assert (Hdow : 0 <= dow <= 6) by apply weekday_range.
  clearbody dow.
  unfold get_datetimestruct_days in *.
  destruct V as [Hm Hd].
  pose proof (year_start_succ y) as S1.
  pose proof (year_start_succ (y - 1)) as S0.
  replace (y - 1 + 1) with y in S0 by lia.
  pose proof (year_length_bounds y) as B1.
  pose proof (year_length_bounds (y - 1)) as B0.
  set (doy := get_day_of_year y m d) in *.
  assert (Hdoy : 1 <= doy <= year_length y /\
                 (m = 1 -> doy = d) /\
                 (m = 12 -> doy = year_length y - 31 + d) /\
                 (m <> 1 -> 32 <= doy) /\ (m <> 12 -> doy <= year_length y - 31) /\
                 1 <= d <= 31).
  { subst doy. unfold get_day_of_year, year_length.
    destruct (is_leapyear y); cbn [days_per_month_table] in Hd;
      month_cases m; revert Hd; eval_nth; intros Hd; lia. }
  clearbody doy.
  set (th := year_start y + doy - 1 - dow + 3).
  assert (Hth : th = year_start y + doy - 1 - dow + 3) by reflexivity.
  clearbody th.
  assert (Hy : fst (days_to_yearsdays th) =
               if th <? year_start y then y - 1
               else if th <? year_start (y + 1) then y else y + 1).
  { apply year_of_unique.
    pose proof (year_start_succ (y + 1)) as S2.
    pose proof (year_length_bounds (y + 1)) as B2.
    destruct (Z.ltb_spec th (year_start y));
      [| destruct (Z.ltb_spec th (year_start (y + 1)))].
    - replace (y - 1 + 1) with y by lia. lia.
    - lia.
    - lia. }
  rewrite Hy. clear Hy.
  assert (L0 : year_length (y - 1) = if is_leapyear (y - 1) then 366 else 365)
    by reflexivity.
  destruct (is_leapyear (y - 1)).
  all: destruct (Z.ltb_spec th (year_start y));
      [| destruct (Z.ltb_spec th (year_start (y + 1)))].
  all: generalize dependent (year_start (y + 1)); intros ys1 **.
  all: generalize dependent (year_start (y - 1)); intros ys0 **.
  all: generalize dependent (year_start y); intros ys **.
  all: generalize dependent (year_length y); intros yl **.
  all: generalize dependent (year_length (y - 1)); intros yl0 **.
  all: subst th.
  all: repeat match goal with
         | |- context [?a <=? ?b] => destruct (Z.leb_spec a b)
         | |- context [?a <? ?b] => destruct (Z.ltb_spec a b)
         | |- context [?a =? ?b] => destruct (Z.eqb_spec a b)
         end; cbn [andb orb] in *; try (exfalso; lia); try (f_equal; lia).
Qed.
End CalFacts.

(** ** Timestamps and ISO weeks *)

Import Cal CalFacts.

Lemma ts_fields_spec ts :
  let '(y, m, d) := ts_fields ts in
  valid_date y m d /\ get_datetimestruct_days y m d = ts_days ts.
Proof. unfold ts_fields. apply set_datetimestruct_days_spec. Qed.

Lemma weekday_spec ts : weekday ts = (ts_days ts + 3) mod 7.
Proof.
  unfold weekday. pose proof (ts_fields_spec ts) as H.
  destruct (ts_fields ts) as [[y m] d]. destruct H as [V E].
  rewrite dayofweek_spec, E by assumption. reflexivity.
Qed.

Lemma isocalendar_spec ts : isocalendar ts = iso8601_week (ts_days ts).
Proof.
  unfold isocalendar. pose proof (ts_fields_spec ts) as H.
  destruct (ts_fields ts) as [[y m] d]. destruct H as [V E].
  rewrite get_iso_calendar_spec, E by assumption. reflexivity.
Qed.

Lemma ts_days_add ts k : ts_days (ts + k * NS_PER_DAY) = ts_days ts + k.
Proof. unfold ts_days, NS_PER_DAY. lia. Qed.

Lemma ts_days_bounds ts :
  in_bounds ts = true -> -106752 <= ts_days ts <= 106751.
Proof.
  unfold in_bounds, ts_days, NS_PER_DAY, Timestamp_min, Timestamp_max. lia.
Qed.

Lemma monday_of_spec z :
  monday_of z <= z <= monday_of z + 6 /\ (monday_of z + 3) mod 7 = 0.
Proof. unfold monday_of. lia. Qed.

Lemma monday_of_monday z : (z + 3) mod 7 = 0 -> monday_of z = z.
Proof. unfold monday_of. lia. Qed.

(** The ISO year of a day is the civil year of the Thursday of its week. *)
Lemma iso8601_week_year z :
  let Y := fst (iso8601_week z) in
  year_start Y <= monday_of z + 3 < year_start (Y + 1).
Proof.
  unfold iso8601_week. cbn [fst].
  pose proof (days_to_yearsdays_spec (monday_of z + 3)) as [E B].
  rewrite year_start_succ. lia.
Qed.

Lemma iso8601_week_range z : 1 <= snd (iso8601_week z) <= 53.
Proof.
  pose proof (iso8601_week_year z) as H. cbn zeta in H.
  unfold iso8601_week in *. cbn [fst snd] in *.
  rewrite year_start_succ in H.
  pose proof (year_length_bounds (fst (days_to_yearsdays (monday_of z + 3)))).
  lia.
Qed.

Lemma year_start_le a b : a <= b -> year_start a <= year_start b.
Proof.
  intros H. destruct (Z.eq_dec a b) as [->|]; [lia|].
  apply Z.lt_le_incl, year_start_lt. lia.
Qed.

(** Later weeks have larger keys. *)
Lemma iso8601_week_lt z1 z2 :
  monday_of z1 < monday_of z2 -> key_lt (iso8601_week z1) (iso8601_week z2).
Proof.
  intros L.
  pose proof (iso8601_week_year z1) as H1.
  pose proof (iso8601_week_year z2) as H2. cbn zeta in *.
  pose proof (monday_of_spec z1) as [_ M1].
  pose proof (monday_of_spec z2) as [_ M2].
  unfold key_lt.
  unfold iso8601_week in *. cbn [fst snd] in *.
  set (Y1 := fst (days_to_yearsdays (monday_of z1 + 3))) in *.
  set (Y2 := fst (days_to_yearsdays (monday_of z2 + 3))) in *.
  clearbody Y1 Y2.
  destruct (Z.lt_trichotomy Y1 Y2) as [C | [C | C]].
  - left. exact C.
  - right. subst Y2. split; [reflexivity|].
    generalize dependent (year_start Y1). intros. lia.
  - exfalso. pose proof (year_start_le (Y2 + 1) Y1). lia.
Qed.

Lemma key_lt_irrefl a : ~ key_lt a a.
Proof. unfold key_lt. lia. Qed.

Lemma key_lt_trans a b c : key_lt a b -> key_lt b c -> key_lt a c.
Proof. unfold key_lt. lia. Qed.

(** Days with the same key lie in the same Monday-to-Sunday week. *)
Lemma iso8601_week_inj z1 z2 :
  iso8601_week z1 = iso8601_week z2 -> monday_of z1 = monday_of z2.
Proof.
  intros E. destruct (Z.lt_trichotomy (monday_of z1) (monday_of z2)) as [C | [C | C]].
  - apply iso8601_week_lt in C. rewrite E in C. now apply key_lt_irrefl in C.
  - exact C.
  - apply iso8601_week_lt in C. rewrite E in C. now apply key_lt_irrefl in C.
Qed.

Lemma iso8601_week_monday z : iso8601_week (monday_of z) = iso8601_week z.
Proof.
  unfold iso8601_week. replace (monday_of (monday_of z)) with (monday_of z).
  - reflexivity.
  - unfold monday_of. lia.
Qed.

(** Within the int64 range the ISO year has four digits. *)
Lemma iso_year_bounds ts :
  in_bounds ts = true -> 1677 <= fst (isocalendar ts) <= 2262.
Proof.
  intros B. apply ts_days_bounds in B. rewrite isocalendar_spec.
  pose proof (iso8601_week_year (ts_days ts)) as H. cbn zeta in H.
  pose proof (monday_of_spec (ts_days ts)) as [M _].
  set (Y := fst (iso8601_week (ts_days ts))) in *. clearbody Y.
  assert (S1 : year_start 1677 = -107015) by reflexivity.
  assert (S2 : year_start 2263 = 107016) by reflexivity.
  split.
  - destruct (Z_lt_le_dec Y 1677) as [C|C]; [|exact C].
    pose proof (year_start_le (Y + 1) 1677). lia.
  - destruct (Z_lt_le_dec 2262 Y) as [C|C]; [|exact C].
    pose proof (year_start_le 2263 Y). lia.
Qed.

Lemma iso_week_bounds ts : 1 <= snd (isocalendar ts) <= 53.
Proof. rewrite isocalendar_spec. apply iso8601_week_range. Qed.

(** ** The model on known dates *)

Example epoch_is_a_thursday :
  set_datetimestruct_days 0 = (1970, 1, 1) /\ dayofweek 1970 1 1 = 3.
Proof. split; reflexivity. Qed.

Example civil_dates :
  set_datetimestruct_days 19725 = (2024, 1, 3) /\
  get_datetimestruct_days 2024 1 3 = 19725 /\
  set_datetimestruct_days (-1) = (1969, 12, 31) /\
  set_datetimestruct_days 11016 = (2000, 2, 29) /\
  set_datetimestruct_days (-25509) = (1900, 2, 28) /\
  set_datetimestruct_days (-25508) = (1900, 3, 1).
Proof. repeat split; reflexivity. Qed.

Example iso_weeks_at_year_ends :
  get_iso_calendar 2023 12 31 = (2023, 52) /\
  get_iso_calendar 2024 1 1 = (2024, 1) /\
  get_iso_calendar 2024 12 30 = (2025, 1) /\
  get_iso_calendar 2021 1 3 = (2020, 53) /\
  get_iso_calendar 2016 1 3 = (2015, 53) /\
  get_iso_calendar 2010 1 3 = (2009, 53) /\
  get_iso_calendar 2008 12 29 = (2009, 1).
Proof. repeat split; reflexivity. Qed.

Example timestamps :
  mk_ts 2024 1 3 0 = 1704240000000000000 /\
  weekday (mk_ts 2024 1 3 0) = 2 /\
  ts_fields (mk_ts 2024 1 3 (NS_PER_DAY - 1)) = (2024, 1, 3) /\
  week_label_ts (mk_ts 2024 1 3 0) = "2024-W01"%string /\
  to_datetime_GVu "2024-W01-1" = Ok (mk_ts 2024 1 1 0) /\
  to_datetime_GVu "2020-W53-1" = Ok (mk_ts 2020 12 28 0) /\
  to_datetime_GVu "2024-W1" = Raise ValueError.
Proof. repeat split; vm_compute; reflexivity. Qed.

(** [date_range] on a Wednesday-to-Wednesday span, on a span inside one
    week, on a span from a Monday at 10:00 to the next Monday at 09:00, and
    on a span from a Monday at 10:00 to the Wednesday of the next week at
    09:00, whose end is rolled back to its Monday at 09:00, on a span from a
    Monday at 10:00 to the next day at 09:00, and on a single Wednesday in
    the first week of the [datetime64[ns]] range, where the week before the
    rolled start cannot be represented. *)
Example date_ranges :
  date_range_W_MON (Some (mk_ts 2024 1 3 0)) (Some (mk_ts 2024 1 17 0))
  = Ok [mk_ts 2024 1 8 0; mk_ts 2024 1 15 0] /\
  date_range_W_MON (Some (mk_ts 2024 1 3 0)) (Some (mk_ts 2024 1 5 0)) = Ok [] /\
  date_range_W_MON (Some (mk_ts 2024 1 1 36000000000000))
                   (Some (mk_ts 2024 1 8 32400000000000))
  = Ok [mk_ts 2024 1 1 36000000000000] /\
  date_range_W_MON (Some (mk_ts 2024 1 1 36000000000000))
                   (Some (mk_ts 2024 1 10 32400000000000))
  = Ok [mk_ts 2024 1 1 36000000000000] /\
  date_range_W_MON (Some (mk_ts 2024 1 1 36000000000000))
                   (Some (mk_ts 2024 1 2 32400000000000))
  = Ok [] /\
  date_range_W_MON (Some (mk_ts 1677 9 22 0)) (Some (mk_ts 1677 9 22 0))
  = Raise OutOfBoundsDatetime /\
  date_range_W_MON None None = Raise ValueError.
Proof. repeat split; vm_compute; reflexivity. Qed.

(** ** Week labels *)

Ltac digit_cases d :=
  let H := fresh in
  assert (H : d = 0 \/ d = 1 \/ d = 2 \/ d = 3 \/ d = 4 \/ d = 5 \/ d = 6 \/
              d = 7 \/ d = 8 \/ d = 9) by lia;
  repeat (destruct H as [H | H]); subst d.

Lemma digit_of_char d : 0 <= d <= 9 -> digit_of (digit_char d) = Some d.
Proof. intros H. digit_cases d; reflexivity. Qed.

Lemma digit_char_compare a b :
  0 <= a <= 9 -> 0 <= b <= 9 ->
  Ascii.compare (digit_char a) (digit_char b) = (a ?= b).
Proof. intros Ha Hb. digit_cases a; digit_cases b; reflexivity. Qed.

(** Rendering the years and the weeks the data can hold, checked one by
    one. *)
Lemma str_of_year_all :
  forallb (fun n =>
             let y := Z.of_nat n in
             String.eqb (String.append (str_of_Z y) "-W")
               (String (digit_char (y / 1000))
                  (String (digit_char (y / 100 mod 10))
                     (String (digit_char (y / 10 mod 10))
                        (String (digit_char (y mod 10)) "-W")))))
          (seq 1677 586) = true.
Proof. vm_compute. reflexivity. Qed.

Lemma str_of_week_all :
  forallb (fun n =>
             let w := Z.of_nat n in
             String.eqb (zfill 2 (str_of_Z w))
               (String (digit_char (w / 10))
                  (String (digit_char (w mod 10)) EmptyString)))
          (seq 1 53) = true.
Proof. vm_compute. reflexivity. Qed.

Lemma week_label_fixed yw :
  1677 <= fst yw <= 2262 -> 1 <= snd yw <= 53 ->
  week_label_of yw = fixed_label yw.
Proof.
  intros Hy Hw. destruct yw as [y w]. cbn [fst snd] in *.
  pose proof str_of_year_all as A. rewrite forallb_forall in A.
  specialize (A (Z.to_nat y)). rewrite in_seq, Z2Nat.id in A by lia.
  apply String.eqb_eq in A; [|lia].
  pose proof str_of_week_all as B. rewrite forallb_forall in B.
  specialize (B (Z.to_nat w)). rewrite in_seq, Z2Nat.id in B by lia.
  apply String.eqb_eq in B; [|lia].
  unfold week_label_of, fixed_label. cbn [fst snd].
  rewrite B. clear B.
  assert (E : forall s t u, String.append s (String.append t u)
                            = String.append (String.append s t) u).
  { induction s; intros; cbn; [reflexivity | now rewrite IHs]. }
  rewrite E, A. reflexivity.
Qed.

(** Comparing two labels as strings compares the (year, week) pairs. *)
Lemma fixed_label_compare a b :
  0 <= fst a <= 9999 -> 0 <= snd a <= 99 ->
  0 <= fst b <= 9999 -> 0 <= snd b <= 99 ->
  String.compare (fixed_label a) (fixed_label b) =
  match fst a ?= fst b with
  | Eq => snd a ?= snd b
  | c => c
  end.
Proof.
  destruct a as [y1 w1], b as [y2 w2]. cbn [fst snd]. intros Y1 W1 Y2 W2.
  unfold fixed_label. cbn [fst snd String.compare].
  rewrite !digit_char_compare by lia.
  change (Ascii.compare "-" "-") with Eq.
  change (Ascii.compare "W" "W") with Eq.
  cbv iota.
  repeat match goal with
         | |- context [?x ?= ?y] => destruct (Z.compare_spec x y)
         end; try reflexivity; exfalso; lia.
Qed.

Lemma fixed_label_lt a b :
  0 <= fst a <= 9999 -> 0 <= snd a <= 99 ->
  0 <= fst b <= 9999 -> 0 <= snd b <= 99 ->
  key_lt a b -> String.ltb (fixed_label a) (fixed_label b) = true.
Proof.
  intros Y1 W1 Y2 W2 L. unfold String.ltb.
  rewrite fixed_label_compare by assumption.
  destruct L as [L | [E L]].
  - apply Z.compare_lt_iff in L. now rewrite L.
  - rewrite E, Z.compare_refl. apply Z.compare_lt_iff in L. now rewrite L.
Qed.

Lemma fixed_label_inj a b :
  0 <= fst a <= 9999 -> 0 <= snd a <= 99 ->
  0 <= fst b <= 9999 -> 0 <= snd b <= 99 ->
  fixed_label a = fixed_label b -> a = b.
Proof.
  intros Y1 W1 Y2 W2 E.
  pose proof (fixed_label_compare a b Y1 W1 Y2 W2) as C.
  rewrite E in C.
  assert (R : forall s, String.compare s s = Eq).
  { induction s as [|c s IH]; cbn; [reflexivity|].
    assert (Ascii.compare c c = Eq) as ->; [|exact IH].
    unfold Ascii.compare. apply N.compare_refl. }
  rewrite R in C. destruct a, b. cbn [fst snd] in *.
  destruct (Z.compare_spec z z1); try discriminate.
  symmetry in C. apply Z.compare_eq in C. congruence.
Qed.

(** The parser reads back what the label says. *)
Lemma strptime_fixed_label yw :
  0 <= fst yw <= 9999 -> 1 <= snd yw <= 53 ->
  strptime_GVu (String.append (fixed_label yw) "-1") = Some (fst yw, snd yw, 1).
Proof.
  destruct yw as [y w]. cbn [fst snd]. intros Hy Hw.
  unfold fixed_label. cbn [fst snd String.append].
  assert (Hq : 0 <= w mod 10 <= 9) by lia.
  assert (Hp : 0 <= w / 10 <= 9) by lia.
  assert (Ew : 10 * (w / 10) + w mod 10 = w) by lia.
  assert (Ey : 1000 * (y / 1000) + 100 * (y / 100 mod 10)
               + 10 * (y / 10 mod 10) + y mod 10 = y) by lia.
  assert (Hy3 : 0 <= y / 1000 <= 9) by lia.
  assert (Hy2 : 0 <= y / 100 mod 10 <= 9) by lia.
  assert (Hy1 : 0 <= y / 10 mod 10 <= 9) by lia.
  assert (Hy0 : 0 <= y mod 10 <= 9) by lia.
  revert Ew Ey.
  generalize dependent (y / 1000). generalize dependent (y / 100 mod 10).
  generalize dependent (y / 10 mod 10). generalize dependent (y mod 10).
  generalize dependent (w / 10). generalize dependent (w mod 10).
  intros q Hq p Hp y0 Hy0 y1 Hy1 y2 Hy2 y3 Hy3 Ew Ey.
  unfold strptime_GVu.
  rewrite (digit_of_char y3), (digit_of_char y2), (digit_of_char y1),
    (digit_of_char y0) by assumption.
  rewrite Ey.
  assert (G : forall c1 c2 cu : ascii,
             digit_of c1 = Some p -> digit_of c2 = Some q ->
             digit_of cu = Some 1 ->
             match String c1 (String c2 (String "-" (String cu EmptyString))) with
             | String v1 (String v2 (String "-"%char (String u EmptyString))) =>
                 match digit_of v1, digit_of v2, digit_of u with
                 | Some p, Some q, Some wd =>
                     if (1 <=? 10 * p + q) && (10 * p + q <=? 53)
                        && (1 <=? wd) && (wd <=? 7)
                     then Some (y, 10 * p + q, wd) else None
                 | _, _, _ => None
                 end
             | String v1 (String "-"%char (String u EmptyString)) =>
                 match digit_of v1, digit_of u with
                 | Some p, Some wd =>
                     if (1 <=? wd) && (wd <=? 7) then Some (y, p, wd) else None
                 | _, _ => None
                 end
             | _ => None
             end = Some (y, w, 1)).
  { intros c1 c2 cu E1 E2 E3. pose proof E2 as E2'.
    destruct c2 as [[] [] [] [] [] [] [] []];
      try (vm_compute in E2; discriminate E2);
      rewrite E1, E2', E3, Ew; cbn [andb];
      change (1 <=? 1) with true; change (1 <=? 7) with true;
      destruct (Z.leb_spec 1 w); try lia;
      destruct (Z.leb_spec w 53); try lia; reflexivity. }
  apply G; try (apply digit_of_char; assumption). reflexivity.
Qed.

Lemma week_label_ts_fixed ts :
  in_bounds ts = true -> week_label_ts ts = fixed_label (isocalendar ts).
Proof.
  intros B. unfold week_label_ts. apply week_label_fixed.
  - now apply iso_year_bounds.
  - apply iso_week_bounds.
Qed.

(** ** Parsing a week label back to its Monday *)

Lemma get_datetimestruct_days_jan y d :
  get_datetimestruct_days y 1 d = year_start y + d - 1.
Proof.
  unfold get_datetimestruct_days, get_day_of_year.
  destruct (is_leapyear y); eval_nth; lia.
Qed.

Lemma dayofweek_jan4 y : dayofweek y 1 4 = (year_start y + 6) mod 7.
Proof.
  rewrite dayofweek_spec, get_datetimestruct_days_jan.
  - f_equal. lia.
  - unfold valid_date. destruct (is_leapyear y); cbn; lia.
Qed.

(** The day [_calc_julian_from_V] designates, as a day number. *)
Lemma calc_julian_monday z :
  (z + 3) mod 7 = 0 ->
  let '(Y, w) := iso8601_week z in
  let '(year, julian) := calc_julian_from_V Y w 1 in
  get_datetimestruct_days year 1 1 + (julian - 1) = z.
Proof.
  intros M.
  pose proof (iso8601_week_year z) as H. cbn zeta in H.
  unfold iso8601_week in *. cbn [fst] in H.
  rewrite (monday_of_monday z M) in *.
  set (Y := fst (days_to_yearsdays (z + 3))) in *. clearbody Y.
  unfold calc_julian_from_V.
  rewrite dayofweek_jan4, !get_datetimestruct_days_jan.
  destruct (Z.ltb_spec ((((z + 3 - year_start Y) / 7 + 1) * 7 + 1
                         - ((year_start Y + 6) mod 7 + 1 + 3))) 1);
    rewrite ?get_datetimestruct_days_jan;
    generalize dependent (year_start (Y - 1)); intros ys0;
    generalize dependent (year_start (Y + 1)); intros ys1;
    generalize dependent (year_start Y); intros ys; intros; lia.
Qed.

Lemma to_datetime_GVu_monday ts :
  in_bounds ts = true -> weekday ts = 0 ->
  to_datetime_GVu (String.append (week_label_ts ts) "-1")
  = Ok (ts_days ts * NS_PER_DAY).
Proof.
  intros B M. rewrite weekday_spec in M.
  unfold to_datetime_GVu.
  rewrite week_label_ts_fixed by assumption.
  pose proof (iso_year_bounds ts B) as HY.
  pose proof (iso_week_bounds ts) as HW.
  rewrite strptime_fixed_label by lia.
  pose proof (calc_julian_monday (ts_days ts) M) as C.
  rewrite isocalendar_spec in *.
  destruct (iso8601_week (ts_days ts)) as [Y w]. cbn [fst snd] in *.
  destruct (calc_julian_from_V Y w 1) as [year julian].
  rewrite C.
  assert (in_bounds (ts_days ts * NS_PER_DAY) = true) as ->; [|reflexivity].
  revert B M. unfold in_bounds, ts_days, NS_PER_DAY, Timestamp_min, Timestamp_max.
  intros. lia.
Qed.

(** ** The weekly range *)

Lemma ts_add_ok ts delta r :
  ts_add ts delta = Ok r -> r = ts + delta /\ in_bounds r = true.
Proof.
  unfold ts_add. destruct (in_bounds (ts + delta)) eqn:E; [|discriminate].
  intros [= <-]. auto.
Qed.

Lemma weekday_add_days ts k :
  weekday (ts + k * NS_PER_DAY) = (weekday ts + k) mod 7.
Proof. rewrite !weekday_spec, ts_days_add. lia. Qed.

Lemma weekday_add_week ts : weekday (ts + NS_PER_WEEK) = weekday ts.
Proof.
  unfold NS_PER_WEEK. rewrite weekday_add_days, weekday_spec. lia.
Qed.

Lemma Week_apply_on_monday cur :
  weekday cur = 0 -> Week_apply 1 0 cur = ts_add cur NS_PER_WEEK.
Proof.
  intros M. unfold Week_apply. rewrite M. cbn [Z.eqb negb].
  now rewrite Z.mul_1_l.
Qed.

(** Rolling forward lands on the first Monday at or after [dt], at the same
    time of day. *)
Lemma Week_rollforward_ok dt s :
  Week_rollforward 0 dt = Ok s ->
  s = dt + ((- weekday dt) mod 7) * NS_PER_DAY /\ weekday s = 0 /\
  (in_bounds dt = true -> in_bounds s = true).
Proof.
  unfold Week_rollforward, Week_is_on_offset, Week_apply.
  destruct (Z.eqb_spec (weekday dt) 0) as [E | N]; cbn [negb].
  - intros [= <-]. rewrite E. cbn. split; [lia | auto].
  - cbn [Z.ltb Z.compare]. replace ((1 - 1) * NS_PER_WEEK) with 0 by lia.
    unfold bind.
    destruct (ts_add dt ((0 - weekday dt) mod 7 * NS_PER_DAY)) as [r|] eqn:A;
      [|discriminate].
    apply ts_add_ok in A. destruct A as [-> Br].
    intros H. apply ts_add_ok in H. destruct H as [-> Bs].
    rewrite Z.add_0_r in *. split; [|split].
    + f_equal.
    + rewrite weekday_add_days. pose proof (weekday_spec dt). lia.
    + auto.
Qed.

Lemma week_steps_cons s n :
  week_steps s (S n) = s :: week_steps (s + NS_PER_WEEK) n.
Proof.
  unfold week_steps. cbn [seq map]. f_equal; [lia|].
  rewrite <- seq_shift, map_map. apply map_ext. intros i. lia.
Qed.

Lemma NS_PER_WEEK_pos : 0 < NS_PER_WEEK.
Proof. reflexivity. Qed.

(** With enough fuel the loop yields exactly the steps up to [end_]. *)
Lemma generate_range_spec fuel : forall cur end_ l,
  weekday cur = 0 ->
  ((end_ - cur) / NS_PER_WEEK + 2 <= Z.of_nat fuel) ->
  generate_range fuel 0 cur end_ = Ok l ->
  l = week_steps cur (Z.to_nat ((end_ - cur) / NS_PER_WEEK + 1)).
Proof.
  pose proof NS_PER_WEEK_pos as P.
  induction fuel as [|fuel IH]; intros cur end_ l M F.
  - cbn [generate_range]. intros [= <-].
    replace (Z.to_nat ((end_ - cur) / NS_PER_WEEK + 1)) with 0%nat by lia.
    reflexivity.
  - cbn [generate_range].
    destruct (Z.leb_spec cur end_) as [L | L].
    + destruct (Z.eqb_spec cur end_) as [E | N].
      * intros [= <-]. subst end_. rewrite Z.sub_diag.
        change (Z.to_nat (0 / NS_PER_WEEK + 1)) with 1%nat.
        rewrite week_steps_cons. reflexivity.
      * rewrite Week_apply_on_monday by assumption. unfold bind.
        destruct (ts_add cur NS_PER_WEEK) as [nx|] eqn:A; [|discriminate].
        apply ts_add_ok in A. destruct A as [-> Bn].
        destruct (Z.leb_spec (cur + NS_PER_WEEK) cur); [lia|].
        destruct (generate_range fuel 0 (cur + NS_PER_WEEK) end_) as [rest|] eqn:G;
          [|discriminate].
        intros [= <-].
        assert (Q : (end_ - (cur + NS_PER_WEEK)) / NS_PER_WEEK
                    = (end_ - cur) / NS_PER_WEEK - 1).
        { replace (end_ - (cur + NS_PER_WEEK))
            with ((end_ - cur) + (-1) * NS_PER_WEEK) by lia.
          rewrite Z.div_add by lia. lia. }
        apply IH in G.
        -- rewrite G, Q.
           replace (Z.to_nat ((end_ - cur) / NS_PER_WEEK + 1))
             with (S (Z.to_nat ((end_ - cur) / NS_PER_WEEK - 1 + 1))).
           ++ now rewrite week_steps_cons.
           ++ assert (0 <= (end_ - cur) / NS_PER_WEEK)
                by (apply Z.div_pos; lia).
              lia.
        -- now rewrite weekday_add_week.
        -- rewrite Q. lia.
    + intros [= <-].
      assert ((end_ - cur) / NS_PER_WEEK < 0).
      { apply Z.div_lt_upper_bound; lia. }
      replace (Z.to_nat ((end_ - cur) / NS_PER_WEEK + 1)) with 0%nat by lia.
      reflexivity.
Qed.

(** Rolling back lands on the last Monday at or before [dt], at the same
    time of day. *)
Lemma Week_rollback_ok dt e :
  Week_rollback 0 dt = Ok e ->
  e = dt - weekday dt * NS_PER_DAY /\ weekday e = 0 /\
  (in_bounds dt = true -> in_bounds e = true).
Proof.
  unfold Week_rollback, Week_is_on_offset, Week_apply.
  pose proof (weekday_spec dt) as Rg.
  destruct (Z.eqb_spec (weekday dt) 0) as [E | N]; cbn [negb].
  - intros [= <-]. rewrite E. split; [lia | auto].
  - change (0 <? -1) with false. cbn iota. unfold bind.
    destruct (ts_add dt ((0 - weekday dt) mod 7 * NS_PER_DAY)) as [r|] eqn:A;
      [|discriminate].
    apply ts_add_ok in A. destruct A as [-> Br].
    intros H. apply ts_add_ok in H. destruct H as [-> Be].
    assert (Q : (0 - weekday dt) mod 7 = 7 - weekday dt) by lia.
    rewrite Q in *. split; [|split].
    + unfold NS_PER_WEEK. lia.
    + replace (dt + (7 - weekday dt) * NS_PER_DAY + -1 * NS_PER_WEEK)
        with (dt + (- weekday dt) * NS_PER_DAY) by (unfold NS_PER_WEEK; lia).
      rewrite weekday_add_days. lia.
    + auto.
Qed.

(** The two ways the endpoints are rolled: a start off a Monday moves
    forward and the end stays; with the start on a Monday the end moves back
    to the Monday of its week. *)
Lemma roll_endpoints_ok s e s' e' :
  roll_endpoints 0 s e = Ok (s', e') ->
  (weekday s <> 0 /\ Week_rollforward 0 s = Ok s' /\ e' = e \/
   weekday s = 0 /\ s' = s /\ Week_rollback 0 e = Ok e') /\
  weekday s' = 0 /\ e' <= e /\
  (in_bounds s = true -> in_bounds s' = true).
Proof.
  unfold roll_endpoints, Week_is_on_offset at 1.
  destruct (Z.eqb_spec (weekday s) 0) as [Ms | Ns]; cbn [negb].
  - unfold Week_is_on_offset at 1.
    destruct (Z.eqb_spec (weekday e) 0) as [Me | Ne]; cbn [negb].
    + intros [= <- <-]. split; [|split; [assumption | split; [lia | auto]]].
      right. split; [assumption|]. split; [reflexivity|].
      unfold Week_rollback, Week_is_on_offset. now rewrite Me.
    + unfold bind. destruct (Week_rollback 0 e) as [r|] eqn:R; [|discriminate].
      intros [= <- <-]. pose proof (Week_rollback_ok _ _ R) as (E & _ & _).
      pose proof (weekday_spec e).
      split; [|split; [assumption | split; [|auto]]].
      * right. auto.
      * assert (0 < NS_PER_DAY) by reflexivity. nia.
  - unfold bind. destruct (Week_rollforward 0 s) as [r|] eqn:R; [|discriminate].
    intros [= <- <-]. pose proof (Week_rollforward_ok _ _ R) as (_ & M & B).
    split; [|split; [assumption | split; [lia | assumption]]].
    left. auto.
Qed.

Lemma roll_endpoints_off_monday s e s' e' :
  roll_endpoints 0 s e = Ok (s', e') -> weekday s <> 0 ->
  Week_rollforward 0 s = Ok s' /\ e' = e.
Proof.
  intros H N. apply roll_endpoints_ok in H.
  destruct H as ([(_ & R & E) | (M & _)] & _); [auto | contradiction].
Qed.

Lemma roll_endpoints_on_monday s e s' e' :
  roll_endpoints 0 s e = Ok (s', e') -> weekday s = 0 ->
  s' = s /\ e' = e - weekday e * NS_PER_DAY /\ weekday e' = 0.
Proof.
  intros H M. apply roll_endpoints_ok in H.
  destruct H as ([(N & _) | (_ & -> & R)] & _); [contradiction|].
  apply Week_rollback_ok in R. destruct R as (E & Me & _). auto.
Qed.

(** [date_range] either raises or returns the Mondays from the rolled
    start up to the rolled end, one week apart. *)
Lemma date_range_W_MON_ok s e l :
  date_range_W_MON (Some s) (Some e) = Ok l ->
  exists s' e',
    roll_endpoints 0 s e = Ok (s', e') /\
    l = week_steps s' (if e' <? s' then 0%nat
                       else Z.to_nat ((e' - s') / NS_PER_WEEK + 1)).
Proof.
  unfold date_range_W_MON, bind.
  destruct (roll_endpoints 0 s e) as [[s' e']|] eqn:R; [|discriminate].
  cbn [fst snd]. intros H. exists s', e'. split; [reflexivity|].
  pose proof (roll_endpoints_ok _ _ _ _ R) as (_ & M & _).
  pose proof NS_PER_WEEK_pos as P.
  destruct (Z.ltb_spec e' s').
  - unfold Week_apply in H. rewrite M in H. cbn [Z.eqb negb] in H.
    destruct (ts_add s' (-1 * NS_PER_WEEK)) as [x|] eqn:A; [|discriminate].
    apply ts_add_ok in A. destruct A as [-> _].
    cbn [generate_range] in H.
    destruct (Z.leb_spec s' (s' + -1 * NS_PER_WEEK)); [lia|].
    injection H as <-. reflexivity.
  - apply generate_range_spec in H; auto.
    rewrite Z2Nat.id; [lia|].
    assert (0 <= (e' - s') / NS_PER_WEEK) by (apply Z.div_pos; lia).
    lia.
Qed.

Lemma in_week_steps t s n :
  In t (week_steps s n) <->
  exists i, 0 <= i < Z.of_nat n /\ t = s + i * NS_PER_WEEK.
Proof.
  unfold week_steps. rewrite in_map_iff. split.
  - intros (i & <- & Hi). apply in_seq in Hi. exists (Z.of_nat i).
    split; [lia | reflexivity].
  - intros (i & Hi & ->). exists (Z.to_nat i). rewrite in_seq.
    split; [f_equal; f_equal; lia | lia].
Qed.

Lemma week_steps_sorted s n :
  StronglySorted (fun a b => ts_days a + 7 <= ts_days b) (week_steps s n).
Proof.
  revert s. induction n as [|n IH]; intros s.
  - constructor.
  - rewrite week_steps_cons. constructor; [apply IH|].
    apply Forall_forall. intros t Ht. apply in_week_steps in Ht.
    destruct Ht as (i & Hi & ->).
    replace (s + NS_PER_WEEK + i * NS_PER_WEEK)
      with (s + (7 * (i + 1)) * NS_PER_DAY) by (unfold NS_PER_WEEK; lia).
    rewrite ts_days_add. lia.
Qed.

(** ** Sorting and distinct values *)

Section SortFacts.
Context {A : Type} (leb : A -> A -> bool).

Lemma insert_perm x l : Permutation (insert leb x l) (x :: l).
Proof.
  induction l as [|y l IH]; cbn [insert].
  - reflexivity.
  - destruct (leb x y); [reflexivity|].
    rewrite IH. apply perm_swap.
Qed.

Lemma sort_by_perm l : Permutation (sort_by leb l) l.
Proof.
  induction l as [|x l IH]; cbn [sort_by fold_right].
  - reflexivity.
  - fold (sort_by leb l). rewrite insert_perm. now constructor.
Qed.

Lemma sort_by_in x l : In x (sort_by leb l) <-> In x l.
Proof.
  split; apply Permutation_in; [|symmetry]; apply sort_by_perm.
Qed.

(** Sorting a list that is already in order changes nothing. *)
Lemma sort_by_sorted_id l :
  StronglySorted (fun a b => leb a b = true) l -> sort_by leb l = l.
Proof.
  induction 1 as [|x l S IH F]; [reflexivity|].
  cbn [sort_by fold_right]. fold (sort_by leb l). rewrite IH.
  destruct l as [|y l]; [reflexivity|].
  cbn [insert]. inversion F as [|? ? E]; subst. now rewrite E.
Qed.

Hypothesis leb_total : forall a b, leb a b = true \/ leb b a = true.
Hypothesis leb_trans :
  forall a b c, leb a b = true -> leb b c = true -> leb a c = true.

Lemma insert_sorted x l :
  StronglySorted (fun a b => leb a b = true) l ->
  StronglySorted (fun a b => leb a b = true) (insert leb x l).
Proof.
  induction 1 as [|y l S IH F]; cbn [insert].
  - repeat constructor.
  - destruct (leb x y) eqn:E.
    + constructor; [now constructor|].
      constructor; [exact E|].
      eapply Forall_impl; [|exact F]. intros z Hz. eauto.
    + constructor; [exact IH|].
      apply Forall_forall. intros z Hz.
      apply (Permutation_in _ (insert_perm x l)) in Hz.
      destruct Hz as [<- | Hz].
      * destruct (leb_total x y); congruence.
      * rewrite Forall_forall in F. auto.
Qed.

Lemma sort_by_sorted l :
  StronglySorted (fun a b => leb a b = true) (sort_by leb l).
Proof.
  induction l as [|x l IH]; cbn [sort_by fold_right].
  - constructor.
  - apply insert_sorted, IH.
Qed.
End SortFacts.

Lemma StronglySorted_map {A B : Type} (R : A -> A -> Prop) (R' : B -> B -> Prop)
      (f : A -> B) (l : list A) :
  (forall a b, In a l -> In b l -> R a b -> R' (f a) (f b)) ->
  StronglySorted R l -> StronglySorted R' (map f l).
Proof.
  intros H S. induction S as [|x l S IH F]; cbn [map]; constructor.
  - apply IH. intros a b Ha Hb. apply H; now right.
  - rewrite Forall_forall in *. intros y Hy. apply in_map_iff in Hy.
    destruct Hy as (b & <- & Hb). apply H; [now left | now right | auto].
Qed.

Lemma StronglySorted_app {A : Type} (R : A -> A -> Prop) (l1 l2 : list A) :
  StronglySorted R l1 -> StronglySorted R l2 ->
  (forall a b, In a l1 -> In b l2 -> R a b) ->
  StronglySorted R (l1 ++ l2).
Proof.
  intros S1 S2 H. induction S1 as [|x l S IH F]; cbn [app]; [exact S2|].
  constructor.
  - apply IH. intros a b Ha. apply H. now right.
  - apply Forall_app. split; [exact F|].
    apply Forall_forall. intros b Hb. apply H; [now left | exact Hb].
Qed.

Lemma StronglySorted_NoDup {A : Type} (R : A -> A -> Prop) (l : list A) :
  (forall a, ~ R a a) -> StronglySorted R l -> NoDup l.
Proof.
  intros I S. induction S as [|x l S IH F]; constructor; [|exact IH].
  intros Hx. rewrite Forall_forall in F. exact (I x (F x Hx)).
Qed.

(** *** The order on strings *)

Lemma string_compare_refl s : String.compare s s = Eq.
Proof.
  induction s as [|c s IH]; cbn; [reflexivity|].
  assert (Ascii.compare c c = Eq) as ->; [|exact IH].
  unfold Ascii.compare. apply N.compare_refl.
Qed.

Lemma string_ltb_lt a b : String.ltb a b = true <-> String_as_OT.lt a b.
Proof.
  unfold String.ltb. rewrite <- String_as_OT.cmp_lt. unfold String_as_OT.cmp.
  destruct (String.compare a b); split; congruence.
Qed.

Lemma string_leb_ltb a b :
  String.leb a b = true <-> String.ltb a b = true \/ a = b.
Proof.
  unfold String.leb, String.ltb. destruct (String.compare a b) eqn:E.
  - apply String.compare_eq_iff in E. tauto.
  - tauto.
  - split; [discriminate|]. intros [H | ->]; [discriminate|].
    rewrite string_compare_refl in E. discriminate.
Qed.

Lemma string_ltb_irrefl a : String.ltb a a = false.
Proof. unfold String.ltb. now rewrite string_compare_refl. Qed.

Lemma string_leb_trans a b c :
  String.leb a b = true -> String.leb b c = true -> String.leb a c = true.
Proof.
  rewrite !string_leb_ltb, !string_ltb_lt.
  intros [H1 | ->] [H2 | ->]; auto.
  left. eapply String_as_OT.lt_trans; eauto.
Qed.

Lemma sorted_perm l : Permutation (sorted l) l.
Proof. apply sort_by_perm. Qed.

Lemma sorted_sorted l :
  StronglySorted (fun a b => String.leb a b = true) (sorted l).
Proof.
  apply sort_by_sorted; [apply String.leb_total | apply string_leb_trans].
Qed.

Lemma unique_in x l : In x (unique l) <-> In x l.
Proof. unfold unique. now rewrite <- in_rev, nodup_In, <- in_rev. Qed.

Lemma unique_NoDup l : NoDup (unique l).
Proof. unfold unique. apply NoDup_rev, NoDup_nodup. Qed.

Lemma unique_id l : NoDup l -> unique l = l.
Proof.
  intros H. unfold unique. rewrite nodup_fixed_point.
  - apply rev_involutive.
  - now apply NoDup_rev.
Qed.

Lemma sorted_unique_in x l : In x (sorted (unique l)) <-> In x l.
Proof. unfold sorted. now rewrite sort_by_in, unique_in. Qed.

Lemma sorted_unique_NoDup l : NoDup (sorted (unique l)).
Proof.
  eapply Permutation_NoDup; [symmetry; apply sorted_perm | apply unique_NoDup].
Qed.

(** A list in strictly increasing order is left alone by [unique] and
    [sorted]. *)
Lemma sorted_unique_id l :
  StronglySorted (fun a b => String.ltb a b = true) l ->
  sorted (unique l) = l.
Proof.
  intros S. rewrite unique_id.
  - apply sort_by_sorted_id. rewrite <- (map_id l).
    apply StronglySorted_map with (R := fun a b => String.ltb a b = true);
      [|exact S].
    intros a b _ _ H. apply string_leb_ltb. now left.
  - eapply StronglySorted_NoDup; [|exact S].
    intros a H. rewrite string_ltb_irrefl in H. discriminate.
Qed.

(** *** The descending sort *)

Lemma desc_leb_total a b : desc_leb a b = true \/ desc_leb b a = true.
Proof. unfold desc_leb. lia. Qed.

Lemma desc_leb_trans a b c :
  desc_leb a b = true -> desc_leb b c = true -> desc_leb a c = true.
Proof. unfold desc_leb. lia. Qed.

Lemma sort_desc_stable_contract : sort_values_contract sort_desc_stable.
Proof.
  intros l. split.
  - apply sort_by_perm.
  - rewrite <- (map_id (sort_desc_stable l)).
    apply StronglySorted_map with (R := fun a b => desc_leb a b = true).
    + intros a b _ _. unfold desc_leb. lia.
    + apply sort_by_sorted; [apply desc_leb_total | apply desc_leb_trans].
Qed.

(** ** Loading the tables *)

Lemma dropna_in r l : In r (dropna l) <-> In (Some r) l.
Proof.
  induction l as [|[x|] l IH]; cbn [dropna In].
  - tauto.
  - rewrite IH. split; intros [H | H]; auto; left; congruence.
  - rewrite IH. split; [auto | intros [H | H]; [discriminate | auto]].
Qed.

Lemma normalise_some src raw r :
  normalise src raw = Some r ->
  in_bounds (opened_at r) = true /\
  raw_opened_at raw = Some (opened_at r) /\
  assigned_to r = fillna "Unassigned" (raw_assigned_to raw) /\
  assignment_group r = fillna "Unknown" (raw_assignment_group raw) /\
  source r = src.
Proof.
  unfold normalise, to_datetime_coerce.
  destruct (raw_opened_at raw) as [t|]; [|discriminate].
  destruct (in_bounds t) eqn:B; [|discriminate].
  intros [= <-]. cbn. auto.
Qed.

Lemma combined_in_bounds incident_df task_df r :
  In r (build_combined_df incident_df task_df) -> in_bounds (opened_at r) = true.
Proof.
  unfold build_combined_df. rewrite dropna_in, in_app_iff, !in_map_iff.
  intros [(raw & H & _) | (raw & H & _)]; now apply normalise_some in H.
Qed.

Lemma fold_min_spec l : forall a,
  (fold_left Z.min l a = a \/ In (fold_left Z.min l a) l) /\
  fold_left Z.min l a <= a /\ (forall x, In x l -> fold_left Z.min l a <= x).
Proof.
  induction l as [|y l IH]; intros a; cbn [fold_left In].
  - split; [now left | split; [lia | intros x []]].
  - destruct (IH (Z.min a y)) as (H1 & H2 & H3).
    split; [|split].
    + destruct H1 as [H1 | H1]; [|auto]. rewrite H1. lia.
    + lia.
    + intros x [<- | Hx]; [lia | auto].
Qed.

Lemma fold_max_spec l : forall a,
  (fold_left Z.max l a = a \/ In (fold_left Z.max l a) l) /\
  a <= fold_left Z.max l a /\ (forall x, In x l -> x <= fold_left Z.max l a).
Proof.
  induction l as [|y l IH]; intros a; cbn [fold_left In].
  - split; [now left | split; [lia | intros x []]].
  - destruct (IH (Z.max a y)) as (H1 & H2 & H3).
    split; [|split].
    + destruct H1 as [H1 | H1]; [|auto]. rewrite H1. lia.
    + lia.
    + intros x [<- | Hx]; [lia | auto].
Qed.

Lemma ts_minimum_spec l m :
  ts_minimum l = Some m -> In m l /\ forall x, In x l -> m <= x.
Proof.
  destruct l as [|a l]; [discriminate|]. cbn [ts_minimum]. intros [= <-].
  destruct (fold_min_spec l a) as (H1 & H2 & H3). split.
  - destruct H1 as [-> | H1]; [now left | now right].
  - intros x [<- | Hx]; auto.
Qed.

Lemma ts_maximum_spec l m :
  ts_maximum l = Some m -> In m l /\ forall x, In x l -> x <= m.
Proof.
  destruct l as [|a l]; [discriminate|]. cbn [ts_maximum]. intros [= <-].
  destruct (fold_max_spec l a) as (H1 & H2 & H3). split.
  - destruct H1 as [-> | H1]; [now left | now right].
  - intros x [<- | Hx]; auto.
Qed.

Lemma all_week_labels_eq L : all_week_labels L = map week_label_ts L.
Proof. reflexivity. Qed.

(** The labels of Mondays a week or more apart come in increasing order. *)
Lemma monday_labels_lt a b :
  in_bounds a = true -> in_bounds b = true ->
  weekday a = 0 -> weekday b = 0 -> ts_days a < ts_days b ->
  key_lt (isocalendar a) (isocalendar b) /\
  String.ltb (week_label_ts a) (week_label_ts b) = true.
Proof.
  intros Ba Bb Ma Mb L. rewrite weekday_spec in Ma, Mb.
  assert (K : key_lt (isocalendar a) (isocalendar b)).
  { rewrite !isocalendar_spec. apply iso8601_week_lt.
    now rewrite !monday_of_monday. }
  split; [exact K|].
  rewrite !week_label_ts_fixed by assumption.
  pose proof (iso_year_bounds a Ba). pose proof (iso_year_bounds b Bb).
  pose proof (iso_week_bounds a). pose proof (iso_week_bounds b).
  apply fixed_label_lt; (lia || assumption).
Qed.

Lemma monday_label_inj a b :
  in_bounds a = true -> in_bounds b = true ->
  weekday a = 0 -> weekday b = 0 ->
  week_label_ts a = week_label_ts b -> ts_days a = ts_days b.
Proof.
  intros Ba Bb Ma Mb E.
  destruct (Z.lt_trichotomy (ts_days a) (ts_days b)) as [C | [C | C]]; auto.
  - destruct (monday_labels_lt a b) as [_ H]; auto.
    rewrite E, string_ltb_irrefl in H. discriminate.
  - destruct (monday_labels_lt b a) as [_ H]; auto.
    rewrite E, string_ltb_irrefl in H. discriminate.
Qed.

Lemma weeks_ok_labels_sorted L :
  weeks_ok L ->
  StronglySorted (fun a b => String.ltb a b = true) (map week_label_ts L).
Proof.
  intros [F S]. rewrite Forall_forall in F.
  eapply StronglySorted_map; [|exact S].
  intros a b Ha Hb H. cbn beta in H.
  destruct (F a Ha), (F b Hb). apply monday_labels_lt; auto. lia.
Qed.

Lemma all_weeks_ok df L :
  (forall r, In r df -> in_bounds (opened_at r) = true) ->
  all_weeks df = Ok L ->
  exists s e s' e',
    ts_minimum (map opened_at df) = Some s /\
    ts_maximum (map opened_at df) = Some e /\
    roll_endpoints 0 s e = Ok (s', e') /\
    L = week_steps s' (if e' <? s' then 0%nat
                       else Z.to_nat ((e' - s') / NS_PER_WEEK + 1)) /\
    weeks_ok L.
Proof.
  intros B. unfold all_weeks.
  destruct (ts_minimum (map opened_at df)) as [s|] eqn:Emin; [|discriminate].
  destruct (ts_maximum (map opened_at df)) as [e|] eqn:Emax;
    [|cbn; discriminate].
  intros H. apply date_range_W_MON_ok in H. destruct H as (s' & e' & R & ->).
  exists s, e, s', e'. repeat split; auto.
  - apply ts_minimum_spec in Emin. destruct Emin as [Is _].
    apply ts_maximum_spec in Emax. destruct Emax as [Ie _].
    apply in_map_iff in Is. destruct Is as (rs & <- & Is).
    apply in_map_iff in Ie. destruct Ie as (re & <- & Ie).
    apply B in Is, Ie.
    apply roll_endpoints_ok in R. destruct R as (_ & M & Le & Bs).
    specialize (Bs Is).
    apply Forall_forall. intros t Ht. apply in_week_steps in Ht.
    destruct Ht as (i & Hi & ->).
    destruct (Z.ltb_spec e' s') as [C | C]; [cbn in Hi; lia|].
    pose proof NS_PER_WEEK_pos as P.
    assert (0 <= (e' - s') / NS_PER_WEEK) by (apply Z.div_pos; lia).
    split.
    + assert (i * NS_PER_WEEK <= e' - s').
      { transitivity ((e' - s') / NS_PER_WEEK * NS_PER_WEEK).
        - apply Z.mul_le_mono_nonneg_r; lia.
        - rewrite Z.mul_comm. apply Z.mul_div_le. lia. }
      assert (0 <= i * NS_PER_WEEK) by (apply Z.mul_nonneg_nonneg; lia).
      revert Ie Bs. unfold in_bounds.
      rewrite !andb_true_iff, !Z.leb_le.
      generalize dependent (i * NS_PER_WEEK). intros. lia.
    + replace (i * NS_PER_WEEK) with ((7 * i) * NS_PER_DAY)
        by (unfold NS_PER_WEEK; lia).
      rewrite weekday_add_days, M. lia.
  - apply week_steps_sorted.
Qed.

Lemma load_ok incident_df task_df ctx :
  load incident_df task_df = Ok ctx ->
  let df := build_combined_df incident_df task_df in
  combined_df ctx = df /\
  assignment_groups ctx = sorted (unique (map assignment_group df)) /\
  unique_people ctx = sorted (unique (map assigned_to df)) /\
  exists L,
    all_weeks df = Ok L /\ weeks_ok L /\
    unique_weeks ctx = map week_label_ts L.
Proof.
  unfold load, bind.
  destruct (all_weeks (build_combined_df incident_df task_df)) as [L|] eqn:A;
    [|discriminate].
  intros [= <-]. cbn [combined_df assignment_groups unique_people unique_weeks].
  repeat split; auto.
  exists L. split; [reflexivity|].
  apply all_weeks_ok in A.
  - destruct A as (s & e & s' & e' & _ & _ & _ & _ & W). split; [exact W|].
    rewrite all_week_labels_eq. apply sorted_unique_id.
    now apply weeks_ok_labels_sorted.
  - apply combined_in_bounds.
Qed.

(** ** The dense table *)

Lemma key_eqb_eq a b : key_eqb a b = true <-> a = b.
Proof.
  destruct a as [a1 a2], b as [b1 b2]. unfold key_eqb. cbn [fst snd].
  rewrite andb_true_iff, !String.eqb_eq. split; [intros [-> ->] | intros [= -> ->]]; auto.
Qed.

Lemma key_eqb_refl a : key_eqb a a = true.
Proof. now apply key_eqb_eq. Qed.

Lemma existsb_key_eqb k l : existsb (key_eqb k) l = true <-> In k l.
Proof.
  rewrite existsb_exists. split.
  - intros (x & Hx & E). apply key_eqb_eq in E. now subst.
  - intros H. exists k. split; [exact H | apply key_eqb_refl].
Qed.

Lemma unique_keys_in l : forall seen k,
  In k l -> In k seen \/ In k (unique_keys seen l).
Proof.
  induction l as [|x l IH]; intros seen k; cbn [In unique_keys]; [tauto|].
  intros [<- | H].
  - destruct (existsb (key_eqb x) seen) eqn:E.
    + left. now apply existsb_key_eqb.
    + right. now left.
  - destruct (existsb (key_eqb x) seen) eqn:E.
    + now apply IH.
    + destruct (IH (x :: seen) k H) as [[<- | H'] | H'].
      * right. now left.
      * now left.
      * right. now right.
Qed.

Lemma lookup_cell_map (f : Key -> Z) k keys :
  lookup_cell k (map (fun k' => (k', f k')) keys)
  = if existsb (key_eqb k) keys then Some (f k) else None.
Proof.
  induction keys as [|k' keys IH]; cbn [map lookup_cell existsb]; [reflexivity|].
  destruct (key_eqb k k') eqn:E; cbn [orb]; [|exact IH].
  apply key_eqb_eq in E. now subst.
Qed.

Lemma group_size_absent df k :
  ~ In k (map row_key df) -> group_size df k = 0.
Proof.
  intros H. unfold group_size.
  replace (filter (fun r => key_eqb (row_key r) k) df) with (@nil Row);
    [reflexivity|].
  symmetry. induction df as [|r df IH]; cbn [filter]; [reflexivity|].
  destruct (key_eqb (row_key r) k) eqn:E.
  - apply key_eqb_eq in E. exfalso. apply H. left. exact E.
  - apply IH. intros H'. apply H. now right.
Qed.

(** Reindexing the group sizes gives every key of the index its number of
    rows, zero where there is none. *)
Lemma reindex_grouped df index :
  reindex (grouped df) index 0 = count_table df index.
Proof.
  unfold reindex, count_table, grouped. apply map_ext. intros k.
  rewrite lookup_cell_map.
  destruct (existsb (key_eqb k) _) eqn:E; [reflexivity|].
  rewrite group_size_absent; [reflexivity|].
  intros H. apply (unique_keys_in _ []) in H. destruct H as [[] | H].
  apply (sort_by_in key_leb) in H. apply existsb_key_eqb in H. congruence.
Qed.

Lemma week_to_date_ok L :
  Forall (fun t => in_bounds t = true /\ weekday t = 0) L ->
  week_to_date (map week_label_ts L)
  = Ok (map (fun t => (week_label_ts t, midnight t)) L).
Proof.
  unfold week_to_date. induction 1 as [|t L [B M] F IH]; [reflexivity|].
  cbn [map mapM]. rewrite to_datetime_GVu_monday by assumption.
  cbn [bind]. rewrite IH. reflexivity.
Qed.

Lemma dict_get_monday L t :
  Forall (fun t => in_bounds t = true /\ weekday t = 0) L -> In t L ->
  dict_get (week_label_ts t) (map (fun t => (week_label_ts t, midnight t)) L)
  = Some (midnight t).
Proof.
  intros F. induction F as [|u L [B M] F IH]; [intros []|].
  intros I. cbn [map dict_get].
  assert (Ht : in_bounds t = true /\ weekday t = 0).
  { destruct I as [<- | I]; [auto|]. rewrite Forall_forall in F. auto. }
  destruct (String.eqb_spec (week_label_ts t) (week_label_ts u)) as [E | N].
  - unfold midnight. f_equal. f_equal. symmetry.
    now apply monday_label_inj.
  - destruct I as [<- | I]; [congruence | auto].
Qed.

Section DenseOrder.
Variable d : list (string * Z).
Variable f : Key -> Z.
Variable people : list string.
Hypothesis people_sorted :
  StronglySorted (fun a b => String.leb a b = true) people.

Lemma dense_sorted L :
  (forall t, In t L -> dict_get (week_label_ts t) d = Some (midnight t)) ->
  StronglySorted (fun a b => ts_days a + 7 <= ts_days b) L ->
  StronglySorted (fun a b => week_sort_leb d a b = true)
    (map (fun k => (k, f k)) (list_prod (map week_label_ts L) people)).
Proof.
  intros D S. induction S as [|t L S IH F]; [constructor|].
  cbn [map list_prod]. rewrite map_app. apply StronglySorted_app.
  - rewrite map_map.
    eapply StronglySorted_map; [|exact people_sorted].
    intros a b _ _ H. unfold week_sort_leb, cell_week, cell_person.
    cbv beta. cbn [fst snd]. rewrite D by now left.
    now rewrite Z.ltb_irrefl, Z.eqb_refl, H.
  - apply IH. intros u Hu. apply D. now right.
  - intros a b Ha Hb. rewrite map_map in Ha.
    apply in_map_iff in Ha. destruct Ha as (p & <- & Hp).
    apply in_map_iff in Hb. destruct Hb as ([w q] & <- & Hb).
    apply in_prod_iff in Hb. destruct Hb as [Hw Hq].
    apply in_map_iff in Hw. destruct Hw as (u & <- & Hu).
    unfold week_sort_leb, cell_week, cell_person. cbv beta. cbn [fst snd].
    rewrite (D t) by now left. rewrite (D u) by now right.
    rewrite Forall_forall in F. specialize (F u Hu). cbn beta in F.
    assert (midnight t < midnight u) as C.
    { unfold midnight, NS_PER_DAY. lia. }
    apply Z.ltb_lt in C. now rewrite C.
Qed.
End DenseOrder.

(** The table the callback builds: one cell for each key of the full
    index, in the order of the index, holding the number of selected rows
    with that label and assignee. *)
Lemma filled_ok incident_df task_df ctx selected_group :
  load incident_df task_df = Ok ctx ->
  filled ctx selected_group
  = Ok (count_table (select_group (combined_df ctx) selected_group)
          (full_index ctx)).
Proof.
  intros H. apply load_ok in H. cbn zeta in H.
  destruct H as (_ & _ & Hp & L & _ & [F S] & Hw).
  unfold filled, full_index. rewrite reindex_grouped, Hw.
  rewrite week_to_date_ok by assumption. cbn [bind]. f_equal.
  apply sort_by_sorted_id. unfold count_table.
  apply dense_sorted.
  - rewrite Hp. apply sorted_sorted.
  - intros t Ht. now apply dict_get_monday.
  - exact S.
Qed.

(** ** Further facts about the pipeline *)

Lemma week_label_row r : week_label r = week_label_ts (opened_at r).
Proof.
  unfold week_label, week_label_ts, year, week.
  now destruct (isocalendar (opened_at r)).
Qed.

Lemma ts_days_mono a b : a <= b -> ts_days a <= ts_days b.
Proof. unfold ts_days, NS_PER_DAY. lia. Qed.

(** Rows with the same label lie in the same Monday-to-Sunday week. *)
Lemma same_label_same_week a b :
  in_bounds a = true -> in_bounds b = true ->
  week_label_ts a = week_label_ts b ->
  monday_of (ts_days a) = monday_of (ts_days b).
Proof.
  intros Ba Bb E. rewrite !week_label_ts_fixed in E by assumption.
  pose proof (iso_year_bounds a Ba). pose proof (iso_year_bounds b Bb).
  pose proof (iso_week_bounds a). pose proof (iso_week_bounds b).
  apply fixed_label_inj in E; try lia.
  rewrite !isocalendar_spec in E. now apply iso8601_week_inj.
Qed.

Lemma dropna_nil l : (forall x, In x l -> x = None) -> dropna l = [].
Proof.
  induction l as [|[r|] l IH]; intros H; cbn [dropna].
  - reflexivity.
  - specialize (H (Some r) (or_introl eq_refl)). discriminate H.
  - apply IH. intros x Hx. apply H. now right.
Qed.

(** The weekly range is empty when the rolled start lies after the end. *)
Lemma all_weeks_single_week df L s e :
  (forall r, In r df -> in_bounds (opened_at r) = true) ->
  all_weeks df = Ok L ->
  ts_minimum (map opened_at df) = Some s ->
  ts_maximum (map opened_at df) = Some e ->
  weekday s <> 0 ->
  monday_of (ts_days e) = monday_of (ts_days s) ->
  L = [].
Proof.
  intros B A Hs He Wd Same.
  apply all_weeks_ok in A; [|exact B].
  destruct A as (s0 & e0 & s' & e' & Hs0 & He0 & R & -> & _).
  rewrite Hs in Hs0. rewrite He in He0.
  injection Hs0 as <-. injection He0 as <-.
  apply roll_endpoints_off_monday in R; [|exact Wd]. destruct R as [R ->].
  apply Week_rollforward_ok in R. destruct R as (E & _ & _).
  destruct (Z.ltb_spec e s') as [C | C]; [reflexivity|exfalso].
  apply ts_days_mono in C. rewrite E, ts_days_add in C.
  rewrite weekday_spec in *.
  pose proof (monday_of_spec (ts_days e)).
  unfold monday_of in *. lia.
Qed.

Lemma NoDup_list_prod {A B : Type} (l : list A) (l' : list B) :
  NoDup l -> NoDup l' -> NoDup (list_prod l l').
Proof.
  intros H H'. induction H as [|x l Hx H IH]; cbn [list_prod]; [constructor|].
  apply NoDup_app.
  - clear -H'. induction H' as [|y l' Hy H' IH']; cbn [map]; constructor.
    + intros Hin. apply in_map_iff in Hin.
      destruct Hin as (z & [= <-] & Hz). contradiction.
    + exact IH'.
  - exact IH.
  - intros [a b] Ha Hb. apply in_map_iff in Ha. destruct Ha as (y & [= <- <-] & Hy).
    apply in_prod_iff in Hb. tauto.
Qed.

Lemma count_table_keys df index : map fst (count_table df index) = index.
Proof. unfold count_table. rewrite map_map. apply map_id. Qed.

Lemma count_table_in df index k n :
  In (k, n) (count_table df index) <-> In k index /\ n = group_size df k.
Proof.
  unfold count_table. rewrite in_map_iff. split.
  - intros (k' & [= <- <-] & H). auto.
  - intros [H ->]. exists k. auto.
Qed.

Lemma unique_weeks_NoDup incident_df task_df ctx :
  load incident_df task_df = Ok ctx -> NoDup (unique_weeks ctx).
Proof.
  intros H. apply load_ok in H. cbn zeta in H.
  destruct H as (_ & _ & _ & L & _ & W & ->).
  eapply StronglySorted_NoDup; [|apply weeks_ok_labels_sorted, W].
  intros a H. rewrite string_ltb_irrefl in H. discriminate.
Qed.

Lemma unique_people_NoDup incident_df task_df ctx :
  load incident_df task_df = Ok ctx -> NoDup (unique_people ctx).
Proof.
  intros H. apply load_ok in H. cbn zeta in H.
  destruct H as (_ & _ & -> & _). apply sorted_unique_NoDup.
Qed.

(** The rows of one assignee in the dense table. *)
Lemma filter_person_prod (f : Key -> Z) people p weeks :
  NoDup people ->
  map cell_week
    (person_df (map (fun k => (k, f k)) (list_prod weeks people)) p)
  = if in_dec string_dec p people then weeks else [].
Proof.
  intros N.
  assert (P : forall w,
             map cell_week
               (person_df (map (fun k => (k, f k)) (map (fun q => (w, q)) people)) p)
             = if in_dec string_dec p people then [w] else []).
  { intros w. clear -N. induction N as [|q people Hq N IH]; [reflexivity|].
    cbn [map person_df filter]. unfold cell_person at 1. cbn [fst snd].
    fold (person_df (map (fun k => (k, f k)) (map (fun q => (w, q)) people)) p).
    destruct (String.eqb_spec q p) as [-> | Ne].
    - cbn [map]. rewrite IH.
      destruct (in_dec string_dec p (p :: people)) as [_ | C];
        [|exfalso; apply C; now left].
      destruct (in_dec string_dec p people); [contradiction | reflexivity].
    - rewrite IH.
      destruct (in_dec string_dec p people) as [I | I];
        destruct (in_dec string_dec p (q :: people)) as [J | J];
        try reflexivity.
      + exfalso. apply J. now right.
      + exfalso. destruct J as [J | J]; congruence. }
  induction weeks as [|w weeks IH]; cbn [list_prod].
  - now destruct (in_dec string_dec p people).
  - unfold person_df in *. rewrite map_app, filter_app, map_app.
    etransitivity; [apply f_equal2; [apply P | apply IH]|].
    now destruct (in_dec string_dec p people).
Qed.

Lemma weeks_ok_keys L :
  weeks_ok L ->
  map week_label_ts L = map week_label_of (map isocalendar L) /\
  map week_label_ts L = map fixed_label (map isocalendar L) /\
  StronglySorted key_lt (map isocalendar L) /\
  Forall (fun k => 1677 <= fst k <= 2262 /\ 1 <= snd k <= 53)
         (map isocalendar L).
Proof.
  intros [F S]. rewrite Forall_forall in F. repeat split.
  - now rewrite map_map.
  - rewrite map_map. apply map_ext_in. intros t Ht.
    apply week_label_ts_fixed. now apply F.
  - eapply StronglySorted_map; [|exact S].
    intros a b Ha Hb H. cbn beta in H.
    destruct (F a Ha), (F b Hb). apply monday_labels_lt; auto. lia.
  - apply Forall_forall. intros k Hk. apply in_map_iff in Hk.
    destruct Hk as (t & <- & Ht). split.
    + apply iso_year_bounds. now apply F.
    + apply iso_week_bounds.
Qed.

Lemma select_group_unknown df g :
  g <> EmptyString -> ~ In g (map assignment_group df) ->
  select_group df (Some g) = [].
Proof.
  intros Ne Hg. unfold select_group.
  destruct (String.eqb_spec g EmptyString); [contradiction|].
  induction df as [|r df IH]; [reflexivity|]. cbn [filter].
  destruct (String.eqb_spec (assignment_group r) g) as [E | _].
  - exfalso. apply Hg. left. exact E.
  - apply IH. intros H. apply Hg. now right.
Qed.

Lemma count_sums_in table p s :
  In (p, s) (count_sums table) ->
  s = trace_total (make_trace table p).
Proof.
  unfold count_sums. rewrite in_map_iff. intros (q & [= <- <-] & _).
  reflexivity.
Qed.

Lemma count_sums_names table :
  map fst (count_sums table) = sorted (unique (map cell_person table)).
Proof. unfold count_sums. rewrite map_map. apply map_id. Qed.


Lemma group_size_cons r df k :
  group_size (r :: df) k
  = (if key_eqb (row_key r) k then 1 else 0) + group_size df k.
Proof.
  unfold group_size. cbn [filter].
  destruct (key_eqb (row_key r) k); cbn [List.length]; lia.
Qed.

Lemma sum_indicator k index :
  NoDup index ->
  sum_Z (map (fun k' => if key_eqb k k' then 1 else 0) index)
  = if existsb (key_eqb k) index then 1 else 0.
Proof.
  induction 1 as [|k' index Hk N IH]; [reflexivity|].
  unfold sum_Z in *. cbn [map fold_right existsb].
  rewrite IH. destruct (key_eqb k k') eqn:E; cbn [orb]; [|lia].
  apply key_eqb_eq in E. subst k'.
  destruct (existsb (key_eqb k) index) eqn:X; [|reflexivity].
  apply existsb_key_eqb in X. contradiction.
Qed.

Lemma sum_Z_add {A : Type} (f g : A -> Z) l :
  sum_Z (map (fun x => f x + g x) l) = sum_Z (map f l) + sum_Z (map g l).
Proof.
  unfold sum_Z. induction l as [|x l IH]; [reflexivity|].
  cbn [map fold_right]. lia.
Qed.

Lemma group_size_sum df index :
  NoDup index ->
  sum_Z (map (group_size df) index)
  = Z.of_nat (List.length
                (filter (fun r => existsb (key_eqb (row_key r)) index) df)).
Proof.
  intros N. induction df as [|r df IH].
  - cbn [filter List.length]. clear N.
    induction index as [|k index IHi]; [reflexivity|].
    unfold sum_Z in *. cbn [map fold_right]. rewrite IHi. reflexivity.
  - rewrite (map_ext _ (fun k => (if key_eqb (row_key r) k then 1 else 0)
                                 + group_size df k))
      by (intros; apply group_size_cons).
    rewrite (sum_Z_add (fun k => if key_eqb (row_key r) k then 1 else 0)
                       (group_size df)).
    rewrite IH, sum_indicator by exact N.
    cbn [filter].
    destruct (existsb (key_eqb (row_key r)) index); cbn [List.length]; lia.
Qed.

(** The counts of a table over distinct keys add up to the number of rows
    whose key is one of them. *)
Lemma count_table_sum df index :
  NoDup index ->
  sum_Z (map cell_count (count_table df index))
  = Z.of_nat (List.length
                (filter (fun r => existsb (key_eqb (row_key r)) index) df)).
Proof.
  intros N. unfold count_table. rewrite map_map.
  rewrite (map_ext _ (group_size df)) by reflexivity.
  now apply group_size_sum.
Qed.

(** The counts of the dense table add up to the number of selected rows
    whose week is on the axis. *)
Lemma filled_sum incident_df task_df ctx selected_group table :
  load incident_df task_df = Ok ctx ->
  filled ctx selected_group = Ok table ->
  sum_Z (map cell_count table)
  = Z.of_nat
      (List.length
         (filter (fun r => existsb (String.eqb (week_label r)) (unique_weeks ctx))
                 (select_group (combined_df ctx) selected_group))).
Proof.
  intros Hl Hf. rewrite (filled_ok _ _ _ _ Hl) in Hf. injection Hf as <-.
  rewrite count_table_sum.
  - f_equal. f_equal. apply filter_ext_in. intros r Hr.
    assert (Hp : In (assigned_to r) (unique_people ctx)).
    { pose proof (load_ok _ _ _ Hl) as H. cbn zeta in H.
      destruct H as (<- & _ & -> & _). apply sorted_unique_in.
      apply in_map. destruct selected_group as [g|]; cbn in Hr; [|exact Hr].
      destruct (String.eqb g EmptyString); [exact Hr|].
      now apply filter_In in Hr. }
    apply eq_true_iff_eq. rewrite existsb_key_eqb. unfold full_index, row_key.
    rewrite existsb_exists. split.
    + intros Hk. apply in_prod_iff in Hk. destruct Hk as [Hw _].
      exists (week_label r). split; [exact Hw | apply String.eqb_refl].
    + intros (w & Hw & E). apply String.eqb_eq in E. subst w.
      now apply in_prod.
  - unfold full_index. apply NoDup_list_prod;
      [eapply unique_weeks_NoDup | eapply unique_people_NoDup]; eauto.
Qed.

(** * The statements of the specification *)

(** C1 (week axis): on the two tickets of 2024-01-03 and 2024-01-17 the
    import succeeds and the axis is 2024-W02, 2024-W03: the week 2024-W01 of
    the earliest ticket, which the statement puts first, is not on it.  The
    same happens whenever the earliest [opened_at] is not on a Monday. *)
Theorem C1_first_week_missing :
  (exists ctx,
      load two_wednesdays [] = Ok ctx /\
      map week_label (combined_df ctx) = ["2024-W01"; "2024-W03"]%string /\
      unique_weeks ctx = ["2024-W02"; "2024-W03"]%string /\
      ~ In "2024-W01"%string (unique_weeks ctx)) /\
  (forall incident_df task_df ctx earliest,
      load incident_df task_df = Ok ctx ->
      ts_minimum (map opened_at (combined_df ctx)) = Some earliest ->
      weekday earliest <> 0 ->
      ~ In (week_label_ts earliest) (unique_weeks ctx)).
Proof.
  split.
  { eexists. split; [vm_compute; reflexivity|].
    split; [vm_compute; reflexivity|].
    split; [reflexivity|].
    cbn. intros [H | [H | []]]; discriminate H. }
  intros incident_df task_df ctx earliest Hl Hmin Wd Hin.
  pose proof (load_ok _ _ _ Hl) as H. cbn zeta in H.
  destruct H as (Hdf & _ & _ & L & A & _ & Hw).
  assert (B : forall r, In r (combined_df ctx) ->
                        in_bounds (opened_at r) = true).
  { rewrite Hdf. apply combined_in_bounds. }
  rewrite <- Hdf in A. apply all_weeks_ok in A; [|exact B].
  destruct A as (s & e & s' & e' & Hs & _ & R & EL & [F _]).
  rewrite Hmin in Hs. injection Hs as <-.
  apply roll_endpoints_off_monday in R; [|exact Wd]. destruct R as [R _].
  rewrite Hw in Hin. apply in_map_iff in Hin. destruct Hin as (t & E & Ht).
  rewrite Forall_forall in F. destruct (F t Ht) as [Bt Mt].
  assert (Be : in_bounds earliest = true).
  { apply ts_minimum_spec in Hmin. destruct Hmin as [I _].
    apply in_map_iff in I. destruct I as (r & <- & Hr). auto. }
  apply same_label_same_week in E; [|assumption|assumption].
  apply Week_rollforward_ok in R. destruct R as (Es & _ & _).
  rewrite EL in Ht. apply in_week_steps in Ht. destruct Ht as (i & Hi & ->).
  replace (s' + i * NS_PER_WEEK) with (s' + (7 * i) * NS_PER_DAY) in *
    by (unfold NS_PER_WEEK; lia).
  rewrite Es, !ts_days_add in E.
  rewrite weekday_spec in *. unfold monday_of in E.
  subst s'. rewrite !ts_days_add in Mt. lia.
Qed.

(** C2 (count conservation): on the same two tickets, with no filter, both
    rows are normalised but the counts of the dense table add up to 1: the
    ticket of 2024-01-03 is in no cell. *)
Theorem C2_row_lost_from_counts :
  exists ctx table,
    load two_wednesdays [] = Ok ctx /\
    filled ctx None = Ok table /\
    List.length (select_group (combined_df ctx) None) = 2%nat /\
    sum_Z (map cell_count table) = 1.
Proof.
  do 2 eexists. split; [vm_compute; reflexivity|].
  split; [vm_compute; reflexivity|].
  split; reflexivity.
Qed.

(** C3 (density): once the tables are imported, for every filter value the
    callback builds a table with exactly one cell per pair of the product of
    the week axis and the assignee set, [|weeks| * |people|] cells in all, no
    pair twice and none left out; a cell holds the number of selected rows
    with its label and assignee, hence 0 when no row matches. *)
Theorem C3_one_cell_per_pair incident_df task_df ctx selected_group :
  load incident_df task_df = Ok ctx ->
  exists table,
    filled ctx selected_group = Ok table /\
    List.length table
    = (List.length (unique_weeks ctx) * List.length (unique_people ctx))%nat /\
    map fst table = list_prod (unique_weeks ctx) (unique_people ctx) /\
    NoDup (map fst table) /\
    (forall w p,
        In w (unique_weeks ctx) -> In p (unique_people ctx) ->
        exists n, In ((w, p), n) table /\
                  forall n', In ((w, p), n') table -> n' = n) /\
    (forall k n,
        In (k, n) table ->
        n = group_size (select_group (combined_df ctx) selected_group) k /\
        ((forall r, In r (select_group (combined_df ctx) selected_group) ->
                    row_key r <> k) -> n = 0)).
Proof.
  intros H. eexists. split; [apply (filled_ok _ _ _ _ H)|].
  set (df := select_group (combined_df ctx) selected_group).
  rewrite count_table_keys. unfold full_index.
  split; [|split; [reflexivity|split; [|split]]].
  - unfold count_table. rewrite length_map. apply length_prod.
  - apply NoDup_list_prod;
      [eapply unique_weeks_NoDup | eapply unique_people_NoDup]; eauto.
  - intros w p Hw Hp. exists (group_size df (w, p)). split.
    + apply count_table_in. split; [|reflexivity]. now apply in_prod.
    + intros n' Hn'. now apply count_table_in in Hn'.
  - intros k n Hn. apply count_table_in in Hn. destruct Hn as [_ ->].
    split; [reflexivity|]. intros Hno. apply group_size_absent.
    intros Hk. apply in_map_iff in Hk. destruct Hk as (r & E & Hr).
    exact (Hno r Hr E).
Qed.

Lemma C3_one_cell_per_pair_witness :
  exists table,
    filled one_monday_ctx (Some "X"%string) = Ok table /\
    List.length table = 2%nat /\
    map fst table = [("2024-W01", "A"); ("2024-W01", "B")]%string.
Proof.
  destruct (C3_one_cell_per_pair one_monday [] one_monday_ctx (Some "X"%string))
    as (table & F & Len & Keys & _).
  - vm_compute. reflexivity.
  - exists table. split; [exact F|]. split; [exact Len | exact Keys].
Defined.

(** C4, as stated, fails: importing two empty tables raises. *)
Lemma C4_empty_tables_raise :
  load [] [] = Raise ValueError /\ ~ (exists ctx, load [] [] = Ok ctx).
Proof.
  split; [reflexivity|]. intros [ctx H]. discriminate H.
Qed.

(** C4 (amended): when the tables are empty or no [opened_at] cell can be
    read, the normalised table and the set of assignees are empty, and the
    import raises [ValueError] at [date_range], whose bounds are [NaT]; no
    week axis and no output table are produced. *)
Theorem C4_no_readable_date_raises incident_df task_df :
  (forall raw, In raw (incident_df ++ task_df) ->
               to_datetime_coerce (raw_opened_at raw) = None) ->
  build_combined_df incident_df task_df = [] /\
  sorted (unique (map assigned_to (build_combined_df incident_df task_df))) = [] /\
  all_weeks (build_combined_df incident_df task_df) = Raise ValueError /\
  load incident_df task_df = Raise ValueError.
Proof.
  intros H.
  assert (E : build_combined_df incident_df task_df = []).
  { unfold build_combined_df. apply dropna_nil. intros x Hx.
    apply in_app_iff in Hx.
    destruct Hx as [Hx | Hx]; apply in_map_iff in Hx;
      destruct Hx as (raw & <- & Hr); unfold normalise;
      rewrite H; auto; apply in_app_iff; auto. }
  unfold load. rewrite E. repeat split; reflexivity.
Qed.

Lemma C4_no_readable_date_raises_witness :
  build_combined_df unreadable [] = [] /\
  sorted (unique (map assigned_to (build_combined_df unreadable []))) = [] /\
  all_weeks (build_combined_df unreadable []) = Raise ValueError /\
  load unreadable [] = Raise ValueError.
Proof.
  apply (C4_no_readable_date_raises unreadable []).
  intros raw [<- | []]. reflexivity.
Defined.

(** C5 (chronological series): in every trace of the figure the week labels
    are the labels of week keys that increase strictly in the lexicographic
    order of (ISO year, ISO week), with four-digit years and weeks in 1..53;
    such keys order as the calendar does, (2024, 52) before (2025, 1) and
    (2024, 9) before (2024, 10). *)
Theorem C5_series_chronological :
  (forall sort_values_desc incident_df task_df ctx selected_group fig,
      load incident_df task_df = Ok ctx ->
      update_chart sort_values_desc ctx selected_group = Ok fig ->
      forall tr, In tr fig ->
        exists keys,
          trace_x tr = map week_label_of keys /\
          trace_x tr = map fixed_label keys /\
          StronglySorted key_lt keys /\
          Forall (fun k => 1677 <= fst k <= 2262 /\ 1 <= snd k <= 53) keys /\
          List.length (trace_y tr) = List.length keys) /\
  (key_lt (2024, 52) (2025, 1) /\
   String.ltb (week_label_of (2024, 52)) (week_label_of (2025, 1)) = true) /\
  (key_lt (2024, 9) (2024, 10) /\
   String.ltb (week_label_of (2024, 9)) (week_label_of (2024, 10)) = true).
Proof.
  split; [|split; (split; [unfold key_lt; cbn; lia | vm_compute; reflexivity])].
  intros sort_values_desc incident_df task_df ctx selected_group fig.
  intros Hl Hu tr Htr. unfold update_chart in Hu.
  rewrite (filled_ok _ _ _ _ Hl) in Hu. cbn [bind] in Hu.
  injection Hu as <-. apply in_map_iff in Htr.
  destruct Htr as (p & <- & _).
  pose proof (unique_people_NoDup _ _ _ Hl) as N.
  apply load_ok in Hl. cbn zeta in Hl.
  destruct Hl as (_ & _ & _ & L & _ & W & Hw).
  unfold make_trace. cbn [trace_x trace_y]. rewrite !length_map.
  rewrite <- (length_map cell_week).
  unfold count_table, full_index. rewrite filter_person_prod by exact N.
  destruct (in_dec string_dec p (unique_people ctx)).
  - exists (map isocalendar L). rewrite Hw, !length_map.
    destruct (weeks_ok_keys L W) as (E1 & E2 & S & B). auto.
  - exists []. cbn. repeat split; constructor.
Qed.

Lemma C5_series_chronological_witness :
  exists keys,
    trace_x (mkTrace "B" ["2023-W52"; "2024-W01"; "2024-W02"]%string
                     [0; 0; 1] [EmptyString; EmptyString; "1"%string])
    = map week_label_of keys /\
    StronglySorted key_lt keys /\
    List.length keys = 3%nat.
Proof.
  destruct (proj1 C5_series_chronological sort_desc_stable across_new_year []
              across_new_year_ctx (Some "Y"%string)
              [mkTrace "B" ["2023-W52"; "2024-W01"; "2024-W02"]
                       [0; 0; 1] [EmptyString; EmptyString; "1"];
               mkTrace "A" ["2023-W52"; "2024-W01"; "2024-W02"]
                       [0; 0; 0] [EmptyString; EmptyString; EmptyString]]%string
              ltac:(vm_compute; reflexivity) ltac:(vm_compute; reflexivity)
              (mkTrace "B" ["2023-W52"; "2024-W01"; "2024-W02"]%string
                       [0; 0; 1] [EmptyString; EmptyString; "1"%string])
              ltac:(left; reflexivity))
    as (keys & E & _ & S & _ & Ln).
  exists keys. split; [exact E|]. split; [exact S|]. symmetry. exact Ln.
Defined.

(** C6 (axis stability): the week axis and the assignee set are computed by
    the import from the whole normalised table, and whatever the filter
    value the cells of the dense table are keyed by the product of these two
    axes, in the same order; two filter values give tables that differ, if
    at all, in their counts only. *)
Theorem C6_axes_ignore_filter incident_df task_df ctx sel1 sel2 table1 table2 :
  load incident_df task_df = Ok ctx ->
  filled ctx sel1 = Ok table1 ->
  filled ctx sel2 = Ok table2 ->
  unique_people ctx
  = sorted (unique (map assigned_to (build_combined_df incident_df task_df))) /\
  (exists weeks,
      all_weeks (build_combined_df incident_df task_df) = Ok weeks /\
      unique_weeks ctx = sorted (unique (all_week_labels weeks))) /\
  map fst table1 = list_prod (unique_weeks ctx) (unique_people ctx) /\
  map fst table2 = list_prod (unique_weeks ctx) (unique_people ctx) /\
  map cell_week table1 = map cell_week table2 /\
  map cell_person table1 = map cell_person table2.
Proof.
  intros Hl H1 H2.
  rewrite (filled_ok _ _ _ sel1 Hl) in H1.
  rewrite (filled_ok _ _ _ sel2 Hl) in H2.
  injection H1 as <-. injection H2 as <-.
  assert (K : forall df, map cell_week (count_table df (full_index ctx))
                         = map fst (full_index ctx) /\
                         map cell_person (count_table df (full_index ctx))
                         = map snd (full_index ctx)).
  { intros df. unfold count_table. rewrite !map_map. split; reflexivity. }
  rewrite !count_table_keys.
  destruct (K (select_group (combined_df ctx) sel1)) as [-> ->].
  destruct (K (select_group (combined_df ctx) sel2)) as [-> ->].
  unfold load, bind in Hl.
  destruct (all_weeks (build_combined_df incident_df task_df)) as [weeks|];
    [|discriminate].
  injection Hl as <-. cbn [unique_people unique_weeks].
  repeat split; eauto.
Qed.

Lemma C6_axes_ignore_filter_witness :
  map fst [(("2024-W01", "A"), 1); (("2024-W01", "B"), 0)]%string
  = list_prod (unique_weeks one_monday_ctx) (unique_people one_monday_ctx) /\
  map fst [(("2024-W01", "A"), 1); (("2024-W01", "B"), 1)]%string
  = list_prod (unique_weeks one_monday_ctx) (unique_people one_monday_ctx).
Proof.
  destruct (C6_axes_ignore_filter one_monday [] one_monday_ctx
              (Some "X"%string) None _ _
              ltac:(vm_compute; reflexivity) ltac:(vm_compute; reflexivity)
              ltac:(vm_compute; reflexivity))
    as (_ & _ & K1 & K2 & _).
  split; [exact K1 | exact K2].
Defined.

(** C7, as stated, fails: on the two Monday tickets the group ["Nope"] is
    the group of no row, yet selecting it does not give the unfiltered table
    but one whose counts are all 0. *)
Lemma C7_unknown_group_is_not_no_filter :
  load one_monday [] = Ok one_monday_ctx /\
  ~ In "Nope"%string (map assignment_group (combined_df one_monday_ctx)) /\
  filled one_monday_ctx None
  = Ok [(("2024-W01", "A"), 1); (("2024-W01", "B"), 1)]%string /\
  filled one_monday_ctx (Some "Nope"%string)
  = Ok [(("2024-W01", "A"), 0); (("2024-W01", "B"), 0)]%string.
Proof.
  split; [vm_compute; reflexivity|].
  split; [cbn; intros [H | [H | []]]; discriminate H|].
  split; vm_compute; reflexivity.
Qed.

(** C7 (amended): once the tables are imported the callback never raises.
    No selection and the empty selection are no filter: they give the same
    table and the same figure.  A non-empty value that is the group of no
    row selects no row: the table keeps every key of the full index, each
    with count 0. *)
Theorem C7_filter_values sort_values_desc incident_df task_df ctx :
  load incident_df task_df = Ok ctx ->
  filled ctx (Some EmptyString) = filled ctx None /\
  update_chart sort_values_desc ctx (Some EmptyString)
  = update_chart sort_values_desc ctx None /\
  (forall g,
      g <> EmptyString ->
      ~ In g (map assignment_group (combined_df ctx)) ->
      filled ctx (Some g) = Ok (map (fun k => (k, 0)) (full_index ctx))) /\
  (forall selected_group,
      exists table fig,
        filled ctx selected_group = Ok table /\
        update_chart sort_values_desc ctx selected_group = Ok fig).
Proof.
  intros Hl. split; [reflexivity|]. split; [reflexivity|]. split.
  - intros g Ne Hg. rewrite (filled_ok _ _ _ _ Hl).
    now rewrite select_group_unknown.
  - intros sel. unfold update_chart. rewrite (filled_ok _ _ _ sel Hl).
    cbn [bind]. eauto.
Qed.

Lemma C7_filter_values_witness :
  filled one_monday_ctx (Some "Nope"%string)
  = Ok (map (fun k => (k, 0)) (full_index one_monday_ctx)).
Proof.
  destruct (C7_filter_values sort_desc_stable one_monday [] one_monday_ctx)
    as (_ & _ & U & _).
  - vm_compute. reflexivity.
  - apply U.
    + discriminate.
    + cbn. intros [H | [H | []]]; discriminate H.
Defined.

(** C8 (week bucketer): every row of the normalised table is bucketed into
    the ISO-8601 week of its day: the year is the civil year of the Thursday
    of the row's Monday-to-Sunday week, the week number counts that year's
    Thursdays up to it, so week 1 holds the first Thursday; the label is the
    four-digit year, ["-W"] and the two-digit week.  2023-12-31 falls in
    2023-W52 and 2024-01-02 in 2024-W01. *)
Theorem C8_iso_week_bucket :
  (forall incident_df task_df r,
      In r (build_combined_df incident_df task_df) ->
      let day := ts_days (opened_at r) in
      let thursday := monday_of day + 3 in
      (year r, week r) = iso8601_week day /\
      monday_of day <= day <= monday_of day + 6 /\
      weekday (monday_of day * NS_PER_DAY) = 0 /\
      get_datetimestruct_days (year r) 1 1 <= thursday
        < get_datetimestruct_days (year r + 1) 1 1 /\
      week r = (thursday - get_datetimestruct_days (year r) 1 1) / 7 + 1 /\
      1 <= week r <= 53 /\
      week_label r = fixed_label (year r, week r)) /\
  week_label_ts (mk_ts 2023 12 31 0) = "2023-W52"%string /\
  week_label_ts (mk_ts 2024 1 2 0) = "2024-W01"%string.
Proof.
  split; [|split; vm_compute; reflexivity].
  intros incident_df task_df r Hr. cbv zeta.
  apply combined_in_bounds in Hr.
  set (day := ts_days (opened_at r)).
  assert (E : (year r, week r) = iso8601_week day).
  { unfold year, week, day. rewrite <- isocalendar_spec.
    now destruct (isocalendar (opened_at r)). }
  pose proof (iso8601_week_year day) as Y. cbn zeta in Y.
  pose proof (iso8601_week_range day) as W.
  rewrite <- E in Y, W. cbn [fst snd] in Y, W.
  rewrite !get_datetimestruct_days_jan, !Z.add_simpl_r.
  split; [exact E|].
  split; [apply monday_of_spec|].
  split.
  { rewrite weekday_spec. unfold ts_days.
    rewrite Z.div_mul by discriminate. apply monday_of_spec. }
  split; [exact Y|].
  split.
  { unfold iso8601_week in E. injection E as E1 E2.
    rewrite E2. now rewrite <- E1. }
  split; [exact W|].
  rewrite week_label_row, week_label_ts_fixed by assumption.
  f_equal. unfold year, week. now destruct (isocalendar (opened_at r)).
Qed.

Lemma C8_iso_week_bucket_witness :
  (year (mkRow "A" "X" (mk_ts 2024 1 3 0) Incident),
   week (mkRow "A" "X" (mk_ts 2024 1 3 0) Incident))
  = iso8601_week (ts_days (mk_ts 2024 1 3 0)) /\
  week_label (mkRow "A" "X" (mk_ts 2024 1 3 0) Incident) = "2024-W01"%string.
Proof.
  assert (H : In (mkRow "A" "X" (mk_ts 2024 1 3 0) Incident)
                 (build_combined_df two_wednesdays [])) by (now left).
  destruct (proj1 C8_iso_week_bucket two_wednesdays [] _ H)
    as (E & _ & _ & _ & _ & _ & L).
  split; [exact E|]. rewrite L. vm_compute. reflexivity.
Defined.

(** C9, as stated, fails: with twenty assignees on one Monday, ten of
    them with two tickets and ten with one, [sort_values(ascending=False)]
    on NumPy's quicksort returns the ten assignees with two tickets first
    and the ten with one ticket after them, but the first two of them
    already are not in ascending order of their names.  (On the two Monday
    tickets, with a total of 1 each, A does come before B: up to seventeen
    entries the kernel sorts by insertion.) *)
Lemma C9_ties_not_settled_by_name :
  exists ctx table fig,
    load busy_monday [] = Ok ctx /\
    unique_people ctx = twenty_names /\
    filled ctx None = Ok table /\
    map snd (count_sums table)
    = [1; 2; 1; 2; 1; 2; 1; 2; 1; 2; 1; 2; 1; 2; 1; 2; 1; 2; 1; 2] /\
    nargsort_descending (map snd (count_sums table)) <> None /\
    update_chart sort_values_quicksort ctx None = Ok fig /\
    map trace_total fig = repeat 2 10 ++ repeat 1 10 /\
    ~ StronglySorted by_total_then_name fig /\
    update_chart sort_values_quicksort one_monday_ctx None
    = Ok [mkTrace "A" ["2024-W01"] [1] ["1"];
          mkTrace "B" ["2024-W01"] [1] ["1"]]%string.
Proof.
  do 3 eexists. split; [vm_compute; reflexivity|].
  split; [reflexivity|].
  split; [vm_compute; reflexivity|].
  split; [reflexivity|].
  split; [vm_compute; discriminate|].
  split; [vm_compute; reflexivity|].
  split; [reflexivity|].
  split; [|vm_compute; reflexivity].
  intros S.
  inversion S as [|? ? _ F]; subst.
  inversion F as [|? ? R _]; subst.
  destruct R as [R | [_ R]]; vm_compute in R; discriminate R.
Qed.

(** C9 (amended): whatever sort keeps the promise of
    [sort_values(ascending=False)], the traces of the figure come by total
    count, largest first; the total of a trace is the sum of its assignee's
    counts over all weeks, and the trace names are the assignees of the
    dense table, each once.  The order of assignees with equal totals is not
    fixed. *)
Theorem C9_series_by_total_descending
        sort_values_desc incident_df task_df ctx selected_group fig :
  sort_values_contract sort_values_desc ->
  load incident_df task_df = Ok ctx ->
  update_chart sort_values_desc ctx selected_group = Ok fig ->
  exists table,
    filled ctx selected_group = Ok table /\
    StronglySorted by_total_desc fig /\
    Permutation (map trace_name fig) (sorted (unique (map cell_person table))) /\
    forall tr, In tr fig ->
      trace_total tr
      = sum_Z (map cell_count (person_df table (trace_name tr))).
Proof.
  intros C Hl Hu. unfold update_chart in Hu.
  rewrite (filled_ok _ _ _ _ Hl) in Hu. cbn [bind] in Hu.
  injection Hu as <-. eexists. split; [apply (filled_ok _ _ _ _ Hl)|].
  set (table := count_table _ _).
  destruct (C (count_sums table)) as [P S].
  unfold totals. rewrite map_map. split; [|split].
  - eapply StronglySorted_map; [|exact S].
    intros [p s] [q t] Ha Hb R. cbn [fst snd] in *.
    apply (Permutation_in _ P), count_sums_in in Ha.
    apply (Permutation_in _ P), count_sums_in in Hb.
    unfold by_total_desc. lia.
  - rewrite <- count_sums_names, map_map.
    rewrite (map_ext _ fst) by reflexivity.
    now apply Permutation_map.
  - intros tr Htr. apply in_map_iff in Htr. destruct Htr as (x & <- & _).
    reflexivity.
Qed.

Lemma C9_series_by_total_descending_witness :
  StronglySorted by_total_desc
    [mkTrace "A" ["2024-W01"] [1] ["1"];
     mkTrace "B" ["2024-W01"] [0] [EmptyString]]%string.
Proof.
  destruct (C9_series_by_total_descending sort_desc_stable one_monday []
              one_monday_ctx (Some "X"%string)
              [mkTrace "A" ["2024-W01"] [1] ["1"];
               mkTrace "B" ["2024-W01"] [0] [EmptyString]]%string
              sort_desc_stable_contract
              ltac:(vm_compute; reflexivity) ltac:(vm_compute; reflexivity))
    as (table & _ & S & _).
  exact S.
Defined.

(** C10 (empty axis): there are tables with readable dates for which the
    week axis is empty and the dense table has no cell.  The two tickets of
    Wednesday 2024-01-03 and Friday 2024-01-05 are such; so is every input
    that imports, has all its rows in one ISO week and has its earliest
    [opened_at] on another day than Monday. *)
Theorem C10_axis_empty_within_one_week :
  (exists ctx,
      load one_week [] = Ok ctx /\
      List.length (combined_df ctx) = 2%nat /\
      unique_weeks ctx = [] /\
      forall selected_group, filled ctx selected_group = Ok []) /\
  (forall incident_df task_df ctx earliest,
      load incident_df task_df = Ok ctx ->
      ts_minimum (map opened_at (combined_df ctx)) = Some earliest ->
      weekday earliest <> 0 ->
      (forall r, In r (combined_df ctx) ->
                 week_label r = week_label_ts earliest) ->
      combined_df ctx <> [] /\
      unique_weeks ctx = [] /\
      forall selected_group, filled ctx selected_group = Ok []).
Proof.
  assert (G : forall incident_df task_df ctx earliest,
             load incident_df task_df = Ok ctx ->
             ts_minimum (map opened_at (combined_df ctx)) = Some earliest ->
             weekday earliest <> 0 ->
             (forall r, In r (combined_df ctx) ->
                        week_label r = week_label_ts earliest) ->
             combined_df ctx <> [] /\
             unique_weeks ctx = [] /\
             forall selected_group, filled ctx selected_group = Ok []).
  { intros incident_df task_df ctx earliest Hl Hmin Wd Same.
    pose proof (load_ok _ _ _ Hl) as H. cbn zeta in H.
    destruct H as (Hdf & _ & _ & L & A & _ & Hw).
    assert (B : forall r, In r (combined_df ctx) ->
                          in_bounds (opened_at r) = true).
    { rewrite Hdf. apply combined_in_bounds. }
    rewrite <- Hdf in A.
    assert (Ne : combined_df ctx <> []).
    { intros E. rewrite E in Hmin. discriminate Hmin. }
    destruct (ts_maximum (map opened_at (combined_df ctx))) as [e|] eqn:Hmax.
    2:{ destruct (combined_df ctx); [congruence | discriminate Hmax]. }
    assert (Lnil : L = []).
    { eapply all_weeks_single_week; eauto.
      pose proof (ts_minimum_spec _ _ Hmin) as [Is _].
      pose proof (ts_maximum_spec _ _ Hmax) as [Ie _].
      apply in_map_iff in Is. destruct Is as (rs & Es & Is).
      apply in_map_iff in Ie. destruct Ie as (re & Ee & Ie).
      apply same_label_same_week.
      - rewrite <- Ee. auto.
      - rewrite <- Es. auto.
      - rewrite <- Ee, <- week_label_row. auto. }
    subst L. cbn [map] in Hw.
    split; [exact Ne|]. split; [exact Hw|].
    intros sel. rewrite (filled_ok _ _ _ sel Hl).
    unfold full_index. rewrite Hw. reflexivity. }
  split; [|exact G].
  assert (Hl : exists ctx, load one_week [] = Ok ctx /\
                           List.length (combined_df ctx) = 2%nat /\
                           unique_weeks ctx = []).
  { eexists. split; [vm_compute; reflexivity|]. split; reflexivity. }
  destruct Hl as (ctx & Hl & Hn & Hw). exists ctx.
  repeat split; auto.
  intros sel. rewrite (filled_ok _ _ _ sel Hl).
  unfold full_index. rewrite Hw. reflexivity.
Qed.

Lemma C10_axis_empty_within_one_week_witness :
  exists ctx,
    load one_week [] = Ok ctx /\
    combined_df ctx <> [] /\ unique_weeks ctx = [] /\
    filled ctx None = Ok [].
Proof.
  eexists. split; [vm_compute; reflexivity|].
  match goal with
  | |- ?c <> [] /\ _ =>
      destruct (proj2 C10_axis_empty_within_one_week one_week []
                  (mkContext
                     [mkRow "A" "X" 1704240000000000000 Incident;
                      mkRow "B" "Y" 1704412800000000000 Incident]
                     ["X"; "Y"]%string [] ["A"; "B"]%string)
                  1704240000000000000)
        as (N & W & F)
  end.
  - vm_compute. reflexivity.
  - reflexivity.
  - vm_compute. discriminate.
  - intros r [<- | [<- | []]]; vm_compute; reflexivity.
  - split; [exact N|]. split; [exact W|]. apply F.
Defined.

(** * Further properties of the script *)

(** ** Normalisation (lines 28-37) *)

Lemma dropna_app l1 l2 : dropna (l1 ++ l2) = dropna l1 ++ dropna l2.
Proof.
  induction l1 as [|[r|] l1 IH]; cbn [app dropna]; [reflexivity| |exact IH].
  now rewrite IH.
Qed.

Lemma dropna_normalise_length src l :
  List.length (dropna (map (normalise src) l))
  = List.length (filter readable l).
Proof.
  induction l as [|raw l IH]; [reflexivity|].
  cbn [map filter]. unfold readable at 1, normalise at 1.
  destruct (to_datetime_coerce (raw_opened_at raw));
    cbn [dropna List.length]; now rewrite IH.
Qed.

Lemma dropna_normalise_source src l :
  map source (dropna (map (normalise src) l))
  = repeat src (List.length (filter readable l)).
Proof.
  induction l as [|raw l IH]; [reflexivity|].
  cbn [map filter]. unfold readable at 1, normalise at 1.
  destruct (to_datetime_coerce (raw_opened_at raw));
    cbn [dropna List.length map repeat source]; now rewrite IH.
Qed.

(** X1 (normalisation): [combined_df] holds one row for each raw row whose
    date is read and fits [datetime64[ns]], the incident rows first, and
    nothing else; a missing assignee becomes ["Unassigned"], a missing group
    ["Unknown"], names that are present are kept, and every row carries the
    label of the table it came from. *)
Theorem X1_normalised_rows incident_df task_df :
  List.length (build_combined_df incident_df task_df)
  = (List.length (filter readable incident_df)
     + List.length (filter readable task_df))%nat /\
  map source (build_combined_df incident_df task_df)
  = repeat Incident (List.length (filter readable incident_df))
    ++ repeat Task (List.length (filter readable task_df)) /\
  forall r,
    In r (build_combined_df incident_df task_df) <->
    exists raw,
      (In raw incident_df /\ source r = Incident \/
       In raw task_df /\ source r = Task) /\
      raw_opened_at raw = Some (opened_at r) /\
      in_bounds (opened_at r) = true /\
      assigned_to r = match raw_assigned_to raw with
                      | Some name => name
                      | None => "Unassigned"%string
                      end /\
      assignment_group r = match raw_assignment_group raw with
                           | Some g => g
                           | None => "Unknown"%string
                           end.
Proof.
  unfold build_combined_df. rewrite dropna_app. split; [|split].
  - now rewrite length_app, !dropna_normalise_length.
  - now rewrite map_app, !dropna_normalise_source.
  - intros r. rewrite in_app_iff, !dropna_in, !in_map_iff. split.
    + intros [(raw & N & I) | (raw & N & I)];
        apply normalise_some in N; destruct N as (B & O & A & G & S);
        exists raw; repeat split; auto.
    + intros (raw & Hsrc & O & B & A & G).
      assert (N : forall src, source r = src -> normalise src raw = Some r).
      { intros src S. unfold normalise, to_datetime_coerce. rewrite O, B.
        destruct r as [a g t s]. cbn in *. subst.
        unfold fillna. reflexivity. }
      destruct Hsrc as [[I S] | [I S]]; [left | right]; exists raw;
        split; auto.
Qed.

(** ** The name axes and the filter options (lines 45, 49, 68) *)

Lemma sorted_unique_strict l :
  StronglySorted (fun a b => String.ltb a b = true) (sorted (unique l)).
Proof.
  pose proof (sorted_sorted (unique l)) as S.
  pose proof (sorted_unique_NoDup l) as N.
  induction S as [|x m S IH F]; constructor.
  - apply IH. now inversion N.
  - inversion N as [|? ? Hx _]; subst.
    rewrite Forall_forall in *. intros y Hy.
    specialize (F y Hy). apply string_leb_ltb in F.
    destruct F as [F | ->]; [exact F | contradiction].
Qed.

Lemma name_axes_in incident_df task_df ctx :
  load incident_df task_df = Ok ctx ->
  (forall g, In g (assignment_groups ctx) <->
             exists r, In r (combined_df ctx) /\ assignment_group r = g) /\
  (forall p, In p (unique_people ctx) <->
             exists r, In r (combined_df ctx) /\ assigned_to r = p).
Proof.
  intros H. apply load_ok in H. cbn zeta in H.
  destruct H as (-> & -> & -> & _).
  split; intros x; rewrite sorted_unique_in, in_map_iff;
    split; intros (r & A & B); exists r; auto.
Qed.

(** X2 (name axes): for tables whose name columns are text, after a
    successful import the list of assignment groups and the list of
    assignees are in strictly increasing string order, hence without
    repetition, and hold exactly the groups and the assignees of the rows of
    [combined_df]. *)
Theorem X2_name_axes incident_df task_df ctx :
  load incident_df task_df = Ok ctx ->
  StronglySorted (fun a b => String.ltb a b = true) (assignment_groups ctx) /\
  StronglySorted (fun a b => String.ltb a b = true) (unique_people ctx) /\
  (forall g, In g (assignment_groups ctx) <->
             exists r, In r (combined_df ctx) /\ assignment_group r = g) /\
  (forall p, In p (unique_people ctx) <->
             exists r, In r (combined_df ctx) /\ assigned_to r = p).
Proof.
  intros H. pose proof (name_axes_in _ _ _ H) as [G P].
  apply load_ok in H. cbn zeta in H.
  destruct H as (_ & Eg & Ep & _). rewrite Eg, Ep in *.
  split; [apply sorted_unique_strict|].
  split; [apply sorted_unique_strict|]. split; assumption.
Qed.

Lemma X2_name_axes_witness :
  StronglySorted (fun a b => String.ltb a b = true)
                 (assignment_groups one_monday_ctx) /\
  StronglySorted (fun a b => String.ltb a b = true)
                 (unique_people one_monday_ctx).
Proof.
  destruct (X2_name_axes one_monday [] one_monday_ctx) as (A & B & _).
  - vm_compute. reflexivity.
  - split; assumption.
Defined.

(** X3 (filter options): for tables whose name columns are text, every
    option of the dropdown has its group as label and as value; selecting
    one whose value is a non-empty string keeps at least one row, exactly
    the rows of that group (in their order in [combined_df]). *)
Theorem X3_option_selects_its_rows incident_df task_df ctx label value :
  load incident_df task_df = Ok ctx ->
  In (label, value) (dropdown_options ctx) ->
  value <> EmptyString ->
  label = value /\
  select_group (combined_df ctx) (Some value) <> [] /\
  select_group (combined_df ctx) (Some value)
  = filter (fun r => String.eqb (assignment_group r) value) (combined_df ctx) /\
  forall r, In r (select_group (combined_df ctx) (Some value)) <->
            In r (combined_df ctx) /\ assignment_group r = value.
Proof.
  intros Hl Hin Ne. unfold dropdown_options in Hin.
  apply in_map_iff in Hin. destruct Hin as (g & [= <- <-] & Hg).
  destruct (name_axes_in _ _ _ Hl) as (G & _).
  apply G in Hg. destruct Hg as (r & Hr & E).
  unfold select_group. destruct (String.eqb_spec g EmptyString); [contradiction|].
  assert (M : forall x, In x (filter (fun r => String.eqb (assignment_group r) g)
                                      (combined_df ctx)) <->
                        In x (combined_df ctx) /\ assignment_group x = g).
  { intros x. rewrite filter_In, String.eqb_eq. reflexivity. }
  repeat split; try apply M; auto.
  intros C. assert (I : In r []) by (rewrite <- C; apply M; auto).
  destruct I.
Qed.

Lemma X3_option_selects_its_rows_witness :
  select_group (combined_df one_monday_ctx) (Some "X"%string) <> [].
Proof.
  destruct (X3_option_selects_its_rows one_monday [] one_monday_ctx
              "X"%string "X"%string) as (_ & N & _).
  - vm_compute. reflexivity.
  - left. reflexivity.
  - discriminate.
  - exact N.
Defined.
(** ** The week axis (lines 46-48) *)










(** The axis in full: the labels of the Mondays from the rolled start, one
    week apart, as many as lie at or before the rolled end. *)
Lemma axis_steps incident_df task_df ctx s e :
  load incident_df task_df = Ok ctx ->
  ts_minimum (map opened_at (combined_df ctx)) = Some s ->
  ts_maximum (map opened_at (combined_df ctx)) = Some e ->
  exists n,
    unique_weeks ctx = map week_label_ts (week_steps (rolled_start s) n) /\
    weeks_ok (week_steps (rolled_start s) n) /\
    forall i, 0 <= i ->
      (i < Z.of_nat n <->
       rolled_start s + i * NS_PER_WEEK <= rolled_end s e).
Proof.
  intros Hl Hs He.
  pose proof (load_ok _ _ _ Hl) as H. cbn zeta in H.
  destruct H as (Hdf & _ & _ & L & A & _ & Hw).
  rewrite <- Hdf in A. apply all_weeks_ok in A.
  2:{ rewrite Hdf. apply combined_in_bounds. }
  destruct A as (s0 & e0 & s' & e' & Hs0 & He0 & R & EL & W).
  rewrite Hs in Hs0. rewrite He in He0.
  injection Hs0 as <-. injection He0 as <-.
  assert (Es : s' = rolled_start s /\ e' = rolled_end s e).
  { unfold rolled_start, rolled_end.
    destruct (Z.eqb_spec (weekday s) 0) as [M | N].
    - apply roll_endpoints_on_monday in R; [|exact M].
      destruct R as (-> & -> & _). rewrite M. cbn. split; [lia | reflexivity].
    - apply roll_endpoints_off_monday in R; [|exact N].
      destruct R as [R ->]. apply Week_rollforward_ok in R.
      destruct R as (-> & _). auto. }
  destruct Es as [<- <-].
  eexists. split; [rewrite Hw, EL; reflexivity|].
  split; [rewrite <- EL; exact W|].
  intros i Hi. pose proof NS_PER_WEEK_pos as P.
  destruct (Z.ltb_spec e' s') as [C | C].
  - cbn. split; [lia|]. intros Q.
    assert (0 <= i * NS_PER_WEEK) by (apply Z.mul_nonneg_nonneg; lia). lia.
  - assert (0 <= (e' - s') / NS_PER_WEEK) by (apply Z.div_pos; lia).
    rewrite Z2Nat.id by lia. split.
    + intros Q.
      assert (i * NS_PER_WEEK <= (e' - s') / NS_PER_WEEK * NS_PER_WEEK)
        by (apply Z.mul_le_mono_nonneg_r; lia).
      pose proof (Z.mul_div_le (e' - s') NS_PER_WEEK P). lia.
    + intros Q.
      assert (i <= (e' - s') / NS_PER_WEEK); [|lia].
      apply Z.div_le_lower_bound; lia.
Qed.

Lemma rolled_start_facts s :
  weekday (rolled_start s) = 0 /\
  time_of_day (rolled_start s) = time_of_day s /\
  ts_days s <= ts_days (rolled_start s) <= ts_days s + 6 /\
  (weekday s = 0 -> rolled_start s = s).
Proof.
  unfold rolled_start. pose proof (weekday_spec s) as W. repeat split.
  - rewrite weekday_add_days. lia.
  - unfold time_of_day, NS_PER_DAY. lia.
  - rewrite ts_days_add. lia.
  - rewrite ts_days_add. lia.
  - intros ->. cbn. lia.
Qed.

Lemma rolled_end_facts s e :
  (weekday s <> 0 -> rolled_end s e = e) /\
  (weekday s = 0 ->
   weekday (rolled_end s e) = 0 /\
   time_of_day (rolled_end s e) = time_of_day e /\
   ts_days (rolled_end s e) = monday_of (ts_days e)).
Proof.
  unfold rolled_end. pose proof (weekday_spec e) as W. split.
  - intros N. destruct (Z.eqb_spec (weekday s) 0); [contradiction | reflexivity].
  - intros ->. cbn [Z.eqb].
    replace (e - weekday e * NS_PER_DAY)
      with (e + (- weekday e) * NS_PER_DAY) by lia.
    repeat split.
    + rewrite weekday_add_days. lia.
    + unfold time_of_day, NS_PER_DAY. lia.
    + rewrite ts_days_add. unfold monday_of. lia.
Qed.

(** X5 (the week axis): the axis is the list of the week labels of the
    instants [s'], [s'] + 1 week, [s'] + 2 weeks, ... that are not after
    [e'].  Here [s'] is the earliest [opened_at] moved forward to a Monday
    at the same time of day (left alone when it is on a Monday); [e'] is the
    latest [opened_at] when the earliest is not on a Monday, and otherwise
    the Monday of the week of the latest [opened_at], at its time of day. *)
Theorem X5_week_axis_steps incident_df task_df ctx earliest latest :
  load incident_df task_df = Ok ctx ->
  ts_minimum (map opened_at (combined_df ctx)) = Some earliest ->
  ts_maximum (map opened_at (combined_df ctx)) = Some latest ->
  (exists n,
      unique_weeks ctx
      = map week_label_ts (week_steps (rolled_start earliest) n) /\
      forall i, 0 <= i ->
        (i < Z.of_nat n <->
         rolled_start earliest + i * NS_PER_WEEK
         <= rolled_end earliest latest)) /\
  (weekday (rolled_start earliest) = 0 /\
   time_of_day (rolled_start earliest) = time_of_day earliest /\
   ts_days earliest <= ts_days (rolled_start earliest) <= ts_days earliest + 6 /\
   (weekday earliest = 0 -> rolled_start earliest = earliest)) /\
  (weekday earliest <> 0 -> rolled_end earliest latest = latest) /\
  (weekday earliest = 0 ->
   weekday (rolled_end earliest latest) = 0 /\
   time_of_day (rolled_end earliest latest) = time_of_day latest /\
   ts_days (rolled_end earliest latest) = monday_of (ts_days latest)).
Proof.
  intros Hl Hs He. destruct (axis_steps _ _ _ _ _ Hl Hs He) as (n & E & _ & C).
  split; [exists n; auto|].
  split; [apply rolled_start_facts | apply rolled_end_facts].
Qed.

Lemma X5_week_axis_steps_witness :
  exists ctx n,
    load monday_to_wednesday [] = Ok ctx /\
    unique_weeks ctx = ["2024-W01"%string] /\
    unique_weeks ctx
    = map week_label_ts (week_steps (rolled_start (mk_ts 2024 1 1 36000000000000)) n) /\
    (1 < Z.of_nat n <->
     rolled_start (mk_ts 2024 1 1 36000000000000) + 1 * NS_PER_WEEK
     <= rolled_end (mk_ts 2024 1 1 36000000000000)
                   (mk_ts 2024 1 10 32400000000000)).
Proof.
  eexists.
  destruct (X5_week_axis_steps monday_to_wednesday []
              _ (mk_ts 2024 1 1 36000000000000)
              (mk_ts 2024 1 10 32400000000000)
              ltac:(vm_compute; reflexivity) eq_refl eq_refl)
    as ((n & E & C) & _).
  exists n. split; [reflexivity|]. split; [reflexivity|].
  split; [exact E|]. apply C. lia.
Defined.

Lemma week_label_ts_same_week a b :
  monday_of (ts_days a) = monday_of (ts_days b) ->
  week_label_ts a = week_label_ts b.
Proof.
  intros E. unfold week_label_ts. rewrite !isocalendar_spec.
  rewrite <- (iso8601_week_monday (ts_days a)),
          <- (iso8601_week_monday (ts_days b)), E.
  reflexivity.
Qed.

Lemma ts_split t : t = ts_days t * NS_PER_DAY + time_of_day t.
Proof. unfold ts_days, time_of_day, NS_PER_DAY. lia. Qed.

(** Which weeks are on the axis. *)
Lemma on_axis_iff incident_df task_df ctx s e t :
  load incident_df task_df = Ok ctx ->
  ts_minimum (map opened_at (combined_df ctx)) = Some s ->
  ts_maximum (map opened_at (combined_df ctx)) = Some e ->
  in_bounds t = true ->
  In (week_label_ts t) (unique_weeks ctx) <->
  ts_days (rolled_start s) <= monday_of (ts_days t) /\
  monday_of (ts_days t) * NS_PER_DAY + time_of_day s <= rolled_end s e.
Proof.
  intros Hl Hs He Bt.
  destruct (axis_steps _ _ _ _ _ Hl Hs He) as (n & E & [F _] & C).
  destruct (rolled_start_facts s) as (Ws & Ts & _ & _).
  set (s' := rolled_start s) in *.
  assert (Ms : (ts_days s' + 3) mod 7 = 0) by now rewrite <- weekday_spec.
  assert (St : forall i, s' + i * NS_PER_WEEK
                         = (ts_days s' + 7 * i) * NS_PER_DAY + time_of_day s).
  { intros i. rewrite <- Ts. rewrite (ts_split s') at 1.
    unfold NS_PER_WEEK. lia. }
  assert (Dt : forall i, ts_days (s' + i * NS_PER_WEEK) = ts_days s' + 7 * i).
  { intros i. replace (i * NS_PER_WEEK) with (7 * i * NS_PER_DAY)
      by (unfold NS_PER_WEEK; lia). apply ts_days_add. }
  rewrite E, in_map_iff. rewrite Forall_forall in F. split.
  - intros (m & El & Hm). destruct (F m Hm) as [Bm _].
    apply in_week_steps in Hm. destruct Hm as (i & Hi & ->).
    apply same_label_same_week in El; [|assumption|assumption].
    rewrite Dt in El.
    assert (Mi : monday_of (ts_days s' + 7 * i) = ts_days s' + 7 * i).
    { apply monday_of_monday. lia. }
    rewrite Mi in El. rewrite <- El. split; [lia|].
    rewrite <- St. apply C; lia.
  - intros [H1 H2]. pose proof (monday_of_spec (ts_days t)) as [_ Mt].
    set (D := monday_of (ts_days t)) in *.
    set (i := (D - ts_days s') / 7).
    assert (Ei : D = ts_days s' + 7 * i) by (unfold i; lia).
    exists (s' + i * NS_PER_WEEK). split.
    + apply week_label_ts_same_week. rewrite Dt, <- Ei.
      fold D. apply monday_of_monday. exact Mt.
    + apply in_week_steps. exists i. split; [|reflexivity].
      assert (0 <= i) by lia. split; [assumption|].
      apply C; [assumption|]. rewrite St, <- Ei. exact H2.
Qed.

(** X6 (rows on the axis): the week of a row is on the axis exactly when
    the Monday of that week is not before the day of the rolled start and,
    taken at the time of day of the earliest [opened_at], is not after the
    rolled end; only such rows are counted in the dense table. *)
Theorem X6_row_week_on_axis incident_df task_df ctx earliest latest r :
  load incident_df task_df = Ok ctx ->
  ts_minimum (map opened_at (combined_df ctx)) = Some earliest ->
  ts_maximum (map opened_at (combined_df ctx)) = Some latest ->
  In r (combined_df ctx) ->
  In (week_label r) (unique_weeks ctx) <->
  ts_days (rolled_start earliest) <= monday_of (ts_days (opened_at r)) /\
  monday_of (ts_days (opened_at r)) * NS_PER_DAY + time_of_day earliest
  <= rolled_end earliest latest.
Proof.
  intros Hl Hs He Hr. rewrite week_label_row.
  eapply on_axis_iff; eauto.
  pose proof (load_ok _ _ _ Hl) as H. cbn zeta in H.
  destruct H as (Hdf & _). rewrite Hdf in Hr.
  now apply combined_in_bounds in Hr.
Qed.

Lemma X6_row_week_on_axis_witness :
  exists ctx,
    load monday_to_wednesday [] = Ok ctx /\
    ~ In "2024-W02"%string (unique_weeks ctx) /\
    (In (week_label (mkRow "B" "Y" (mk_ts 2024 1 10 32400000000000) Incident))
        (unique_weeks ctx) <->
     ts_days (rolled_start (mk_ts 2024 1 1 36000000000000))
     <= monday_of (ts_days (mk_ts 2024 1 10 32400000000000)) /\
     monday_of (ts_days (mk_ts 2024 1 10 32400000000000)) * NS_PER_DAY
     + time_of_day (mk_ts 2024 1 1 36000000000000)
     <= rolled_end (mk_ts 2024 1 1 36000000000000)
                   (mk_ts 2024 1 10 32400000000000)).
Proof.
  eexists. split; [vm_compute; reflexivity|].
  split; [intros [H | []]; discriminate H|].
  apply (X6_row_week_on_axis monday_to_wednesday [] _
           (mk_ts 2024 1 1 36000000000000) (mk_ts 2024 1 10 32400000000000)
           (mkRow "B" "Y" (mk_ts 2024 1 10 32400000000000) Incident)).
  - vm_compute. reflexivity.
  - reflexivity.
  - reflexivity.
  - right. left. reflexivity.
Defined.

Lemma min_le_max l s e :
  ts_minimum l = Some s -> ts_maximum l = Some e -> s <= e.
Proof.
  intros Hs He. apply ts_minimum_spec in Hs. apply ts_maximum_spec in He.
  destruct Hs as [Is _], He as [_ Le]. auto.
Qed.

Lemma time_of_day_range t : 0 <= time_of_day t < NS_PER_DAY.
Proof. unfold time_of_day, NS_PER_DAY. lia. Qed.

(** X7 (a Monday start): when the earliest [opened_at] falls on a Monday,
    the axis begins with the week of that earliest ticket, unless every
    ticket falls in that one week and the latest was opened at an earlier
    time of day than the earliest: then, and only then, the axis is
    empty. *)
Theorem X7_axis_starts_at_monday_minimum
        incident_df task_df ctx earliest latest :
  load incident_df task_df = Ok ctx ->
  ts_minimum (map opened_at (combined_df ctx)) = Some earliest ->
  ts_maximum (map opened_at (combined_df ctx)) = Some latest ->
  weekday earliest = 0 ->
  (unique_weeks ctx = [] <->
   monday_of (ts_days latest) = ts_days earliest /\
   time_of_day latest < time_of_day earliest) /\
  (unique_weeks ctx <> [] ->
   exists rest, unique_weeks ctx = week_label_ts earliest :: rest).
Proof.
  intros Hl Hs He M.
  destruct (axis_steps _ _ _ _ _ Hl Hs He) as (n & E & _ & C).
  destruct (rolled_start_facts earliest) as (_ & _ & _ & Rs).
  rewrite (Rs M) in *.
  destruct (rolled_end_facts earliest latest) as (_ & Re).
  destruct (Re M) as (_ & Te & De).
  pose proof (min_le_max _ _ _ Hs He) as Le.
  pose proof (ts_days_mono _ _ Le) as Ld.
  pose proof (ts_split earliest) as Se.
  pose proof (ts_split (rolled_end earliest latest)) as Sr.
  rewrite Te, De in Sr.
  pose proof (time_of_day_range earliest).
  pose proof (time_of_day_range latest).
  pose proof (monday_of_spec (ts_days latest)) as [Ml Ml'].
  rewrite weekday_spec in M.
  assert (Lm : ts_days earliest <= monday_of (ts_days latest))
    by (unfold monday_of; lia).
  assert (Empty : (earliest <= rolled_end earliest latest) <->
                  ~ (monday_of (ts_days latest) = ts_days earliest /\
                     time_of_day latest < time_of_day earliest)).
  { unfold NS_PER_DAY in *. lia. }
  specialize (C 0 ltac:(lia)). rewrite Z.mul_0_l, Z.add_0_r in C.
  split.
  - destruct n as [|n].
    + cbn in E. split; [|auto]. intros _.
      destruct (Z.le_gt_cases earliest (rolled_end earliest latest)) as [G | G].
      * apply C in G. cbn in G. lia.
      * unfold NS_PER_DAY in *. lia.
    + rewrite week_steps_cons in E. cbn [map] in E. rewrite E.
      split; [discriminate|]. intros Q. exfalso.
      apply (proj1 Empty); [apply C; lia | exact Q].
  - intros N. destruct n as [|n]; [cbn in E; contradiction|].
    rewrite week_steps_cons in E. cbn [map] in E. eauto.
Qed.

Lemma X7_axis_starts_at_monday_minimum_witness :
  (unique_weeks across_new_year_ctx = [] <->
   monday_of (ts_days 1704672000000000000) = ts_days 1703462400000000000 /\
   time_of_day 1704672000000000000 < time_of_day 1703462400000000000) /\
  (unique_weeks across_new_year_ctx <> [] ->
   exists rest,
     unique_weeks across_new_year_ctx
     = week_label_ts 1703462400000000000 :: rest).
Proof.
  apply (X7_axis_starts_at_monday_minimum across_new_year []
           across_new_year_ctx 1703462400000000000 1704672000000000000).
  - vm_compute. reflexivity.
  - reflexivity.
  - reflexivity.
  - vm_compute. reflexivity.
Defined.

Lemma filter_all_true {A : Type} (f : A -> bool) l :
  (forall x, In x l -> f x = true) -> filter f l = l.
Proof.
  induction l as [|x l IH]; intros H; [reflexivity|]. cbn [filter].
  rewrite (H x) by now left. f_equal. apply IH. intros y Hy. apply H. now right.
Qed.

Lemma select_group_incl df sel r : In r (select_group df sel) -> In r df.
Proof.
  destruct sel as [g|]; cbn; [|auto].
  destruct (String.eqb g EmptyString); [auto|]. intros H.
  now apply filter_In in H.
Qed.

(** X8 (counts add up to the rows on the axis): for every filter value the
    counts of the dense table add up to the number of selected rows whose
    week label is on the axis; rows of other weeks are in no cell. *)
Theorem X8_counts_add_up_to_rows_on_axis
        incident_df task_df ctx selected_group table :
  load incident_df task_df = Ok ctx ->
  filled ctx selected_group = Ok table ->
  sum_Z (map cell_count table)
  = Z.of_nat
      (List.length
         (filter (fun r => existsb (String.eqb (week_label r)) (unique_weeks ctx))
                 (select_group (combined_df ctx) selected_group))) /\
  Forall (fun c => 0 <= cell_count c) table.
Proof.
  intros Hl Hf. split; [eapply filled_sum; eauto|].
  rewrite (filled_ok _ _ _ _ Hl) in Hf. injection Hf as <-.
  apply Forall_forall. intros [k n] Hc. apply count_table_in in Hc.
  destruct Hc as [_ ->]. unfold cell_count, group_size. cbn [snd]. lia.
Qed.

Lemma X8_counts_add_up_to_rows_on_axis_witness :
  sum_Z (map cell_count [(("2024-W01", "A"), 1); (("2024-W01", "B"), 0)]%string)
  = Z.of_nat
      (List.length
         (filter (fun r => existsb (String.eqb (week_label r))
                                   (unique_weeks one_monday_ctx))
                 (select_group (combined_df one_monday_ctx) (Some "X"%string)))).
Proof.
  apply (X8_counts_add_up_to_rows_on_axis one_monday [] one_monday_ctx
           (Some "X"%string)
           [(("2024-W01", "A"), 1); (("2024-W01", "B"), 0)]%string);
    vm_compute; reflexivity.
Defined.

(** X9 (count conservation on a Monday start): when the earliest
    [opened_at] is on a Monday, every row's week is on the axis exactly when
    the time of day of the latest [opened_at] is not before that of the
    earliest; in that case, for every filter value, the counts of the dense
    table add up to the number of selected rows. *)
Theorem X9_counts_conserved_on_monday_start
        incident_df task_df ctx earliest latest :
  load incident_df task_df = Ok ctx ->
  ts_minimum (map opened_at (combined_df ctx)) = Some earliest ->
  ts_maximum (map opened_at (combined_df ctx)) = Some latest ->
  weekday earliest = 0 ->
  ((forall r, In r (combined_df ctx) -> In (week_label r) (unique_weeks ctx))
   <-> time_of_day earliest <= time_of_day latest) /\
  (time_of_day earliest <= time_of_day latest ->
   forall selected_group table,
     filled ctx selected_group = Ok table ->
     sum_Z (map cell_count table)
     = Z.of_nat (List.length (select_group (combined_df ctx) selected_group))).
Proof.
  intros Hl Hs He M.
  destruct (rolled_start_facts earliest) as (_ & _ & _ & Rs).
  destruct (rolled_end_facts earliest latest) as (_ & Re).
  destruct (Re M) as (_ & Te & De).
  pose proof (ts_split (rolled_end earliest latest)) as Sr.
  rewrite Te, De in Sr.
  pose proof (load_ok _ _ _ Hl) as H. cbn zeta in H. destruct H as (Hdf & _).
  assert (On : forall r, In r (combined_df ctx) ->
                 (In (week_label r) (unique_weeks ctx) <->
                  monday_of (ts_days (opened_at r)) * NS_PER_DAY
                  + time_of_day earliest <= rolled_end earliest latest)).
  { intros r Hr. rewrite week_label_row.
    assert (Br : in_bounds (opened_at r) = true).
    { rewrite Hdf in Hr. now apply combined_in_bounds in Hr. }
    rewrite (on_axis_iff _ _ _ _ _ _ Hl Hs He Br), (Rs M).
    pose proof (ts_minimum_spec _ _ Hs) as [_ Ls].
    assert (Hlo : earliest <= opened_at r) by (apply Ls; now apply in_map).
    apply ts_days_mono in Hlo. rewrite weekday_spec in M.
    assert (ts_days earliest <= monday_of (ts_days (opened_at r)))
      by (unfold monday_of; lia).
    tauto. }
  assert (A : (forall r, In r (combined_df ctx) ->
                         In (week_label r) (unique_weeks ctx))
              <-> time_of_day earliest <= time_of_day latest).
  { split.
    - intros All. pose proof (ts_maximum_spec _ _ He) as [Ie _].
      apply in_map_iff in Ie. destruct Ie as (re & Ee & Ie).
      pose proof (proj1 (On re Ie) (All re Ie)) as Q.
      rewrite Ee in Q. unfold NS_PER_DAY in *. lia.
    - intros T r Hr. apply On; [exact Hr|].
      pose proof (ts_maximum_spec _ _ He) as [_ Le].
      assert (Hhi : opened_at r <= latest) by (apply Le; now apply in_map).
      apply ts_days_mono in Hhi.
      assert (monday_of (ts_days (opened_at r)) <= monday_of (ts_days latest))
        by (unfold monday_of; lia).
      unfold NS_PER_DAY in *. lia. }
  split; [exact A|].
  intros T selected_group table Hf.
  rewrite (filled_sum _ _ _ _ _ Hl Hf). f_equal. f_equal.
  apply filter_all_true. intros r Hr. apply select_group_incl in Hr.
  apply existsb_exists. exists (week_label r). split; [|apply String.eqb_refl].
  now apply A.
Qed.

Lemma X9_counts_conserved_on_monday_start_witness :
  sum_Z (map cell_count
           [(("2023-W52", "A"), 1); (("2023-W52", "B"), 0);
            (("2024-W01", "A"), 0); (("2024-W01", "B"), 0);
            (("2024-W02", "A"), 0); (("2024-W02", "B"), 1)]%string)
  = Z.of_nat (List.length (select_group (combined_df across_new_year_ctx) None)).
Proof.
  apply (proj2 (X9_counts_conserved_on_monday_start across_new_year []
                  across_new_year_ctx 1703462400000000000 1704672000000000000
                  ltac:(vm_compute; reflexivity) eq_refl eq_refl
                  ltac:(vm_compute; reflexivity))).
  - vm_compute. discriminate.
  - vm_compute. reflexivity.
Defined.

(** ** Week labels (lines 40-42, 103-105) *)

Lemma string_ltb_asym a b :
  String.ltb a b = true -> String.ltb b a = false.
Proof.
  unfold String.ltb. rewrite (String.compare_antisym b a).
  destruct (String.compare a b); cbn; congruence.
Qed.

Lemma week_label_ts_lt a b :
  in_bounds a = true -> in_bounds b = true ->
  monday_of (ts_days a) < monday_of (ts_days b) ->
  String.ltb (week_label_ts a) (week_label_ts b) = true.
Proof.
  intros Ba Bb L. rewrite !week_label_ts_fixed by assumption.
  pose proof (iso_year_bounds a Ba). pose proof (iso_year_bounds b Bb).
  pose proof (iso_week_bounds a). pose proof (iso_week_bounds b).
  apply fixed_label_lt; try lia.
  rewrite !isocalendar_spec. now apply iso8601_week_lt.
Qed.

(** X10 (labels and weeks): two rows of the normalised table have the same
    week label exactly when they fall in the same Monday-to-Sunday week, and
    the label of one is the smaller string exactly when its week is the
    earlier one; labels of different years never collide or misorder. *)
Theorem X10_label_order_is_week_order incident_df task_df r1 r2 :
  In r1 (build_combined_df incident_df task_df) ->
  In r2 (build_combined_df incident_df task_df) ->
  (week_label r1 = week_label r2 <->
   monday_of (ts_days (opened_at r1)) = monday_of (ts_days (opened_at r2))) /\
  (String.ltb (week_label r1) (week_label r2) = true <->
   monday_of (ts_days (opened_at r1)) < monday_of (ts_days (opened_at r2))).
Proof.
  intros H1 H2. apply combined_in_bounds in H1, H2.
  rewrite !week_label_row. split; split.
  - now apply same_label_same_week.
  - apply week_label_ts_same_week.
  - intros L.
    destruct (Z.lt_trichotomy (monday_of (ts_days (opened_at r1)))
                              (monday_of (ts_days (opened_at r2))))
      as [C | [C | C]]; [exact C | |].
    + apply week_label_ts_same_week in C. rewrite C, string_ltb_irrefl in L.
      discriminate.
    + apply week_label_ts_lt in C; try assumption.
      apply string_ltb_asym in C. congruence.
  - now apply week_label_ts_lt.
Qed.

Lemma X10_label_order_is_week_order_witness :
  String.ltb
    (week_label (mkRow "A" "X" (mk_ts 2024 1 3 0) Incident))
    (week_label (mkRow "B" "Y" (mk_ts 2024 1 17 0) Incident)) = true <->
  monday_of (ts_days (mk_ts 2024 1 3 0)) < monday_of (ts_days (mk_ts 2024 1 17 0)).
Proof.
  apply (X10_label_order_is_week_order two_wednesdays []
           (mkRow "A" "X" (mk_ts 2024 1 3 0) Incident)
           (mkRow "B" "Y" (mk_ts 2024 1 17 0) Incident)).
  - left. reflexivity.
  - right. left. reflexivity.
Defined.

(** X11 (ISO year and calendar year): the [year] column is the calendar
    year of [opened_at] except in two cases: from 29 to 31 December, when
    the row is in week 1, it is the next year, and from 1 to 3 January, when
    the row is in week 52 or 53, it is the year before. *)
Theorem X11_iso_year_near_new_year (r : Row) :
  let '(y, m, d) := ts_fields (opened_at r) in
  (year r = y /\ (m = 12 -> week r <> 1) /\ (m = 1 -> week r < 52)) \/
  (year r = y + 1 /\ m = 12 /\ 29 <= d <= 31 /\ week r = 1) \/
  (year r = y - 1 /\ m = 1 /\ 1 <= d <= 3 /\ 52 <= week r <= 53).
Proof.
  unfold year, week, isocalendar.
  pose proof (ts_fields_spec (opened_at r)) as H.
  destruct (ts_fields (opened_at r)) as [[y m] d]. destruct H as [V _].
  unfold get_iso_calendar.
  set (dow := dayofweek y m d).
  assert (Hdow : 0 <= dow <= 6) by apply weekday_range. clearbody dow.
  destruct V as [Hm Hd].
  set (doy := get_day_of_year y m d).
  assert (Hdoy : 1 <= doy <= 366 /\
                 (m = 1 -> doy = d) /\
                 (m = 12 -> 334 + d <= doy <= 335 + d) /\
                 (m <> 1 -> 32 <= doy) /\ (m <> 12 -> doy <= 335) /\
                 1 <= d <= 31).
  { subst doy. unfold get_day_of_year.
    destruct (is_leapyear y); cbn [days_per_month_table] in Hd;
      month_cases m; revert Hd; eval_nth; intros Hd; lia. }
  clearbody doy. clear Hd.
  destruct (is_leapyear (y - 1));
    repeat match goal with
           | |- context [?a <=? ?b] => destruct (Z.leb_spec a b)
           | |- context [?a <? ?b] => destruct (Z.ltb_spec a b)
           | |- context [?a =? ?b] => destruct (Z.eqb_spec a b)
           end; cbn [andb orb fst snd] in *; lia.
Qed.

(** X12 (a label parsed back): parsing the week label of a timestamp with
    ["-1"] appended, as line 104 does, gives midnight of the Monday of the
    week of the timestamp, provided that midnight is inside the
    [datetime64[ns]] range; the timestamp lies within the seven days from
    it, and the Monday has the same label. *)
Theorem X12_label_parses_to_its_monday t :
  in_bounds t = true ->
  in_bounds (monday_of (ts_days t) * NS_PER_DAY) = true ->
  to_datetime_GVu (String.append (week_label_ts t) "-1")
  = Ok (monday_of (ts_days t) * NS_PER_DAY) /\
  weekday (monday_of (ts_days t) * NS_PER_DAY) = 0 /\
  monday_of (ts_days t) * NS_PER_DAY <= t
    < monday_of (ts_days t) * NS_PER_DAY + NS_PER_WEEK /\
  week_label_ts (monday_of (ts_days t) * NS_PER_DAY) = week_label_ts t.
Proof.
  intros Bt Bm. set (m0 := monday_of (ts_days t) * NS_PER_DAY) in *.
  assert (D : ts_days m0 = monday_of (ts_days t)).
  { unfold m0, ts_days. apply Z.div_mul. discriminate. }
  pose proof (monday_of_spec (ts_days t)) as [R M].
  assert (W : weekday m0 = 0) by (rewrite weekday_spec, D; exact M).
  assert (L : week_label_ts m0 = week_label_ts t).
  { apply week_label_ts_same_week. rewrite D. now apply monday_of_monday. }
  split; [|split; [exact W | split; [|exact L]]].
  - rewrite <- L, to_datetime_GVu_monday by assumption. now rewrite D.
  - unfold m0. revert R. unfold ts_days, NS_PER_WEEK, NS_PER_DAY. lia.
Qed.

Lemma X12_label_parses_to_its_monday_witness :
  to_datetime_GVu (String.append (week_label_ts (mk_ts 2024 1 3 0)) "-1")
  = Ok (monday_of (ts_days (mk_ts 2024 1 3 0)) * NS_PER_DAY).
Proof.
  destruct (X12_label_parses_to_its_monday (mk_ts 2024 1 3 0)) as [E _].
  - vm_compute. reflexivity.
  - vm_compute. reflexivity.
  - exact E.
Defined.

(** X13 (the sort dates of the axis): after a successful import the
    dictionary of lines 103-105 is built without an error; it maps the axis
    labels, in order, to Monday midnights that increase strictly, so the
    string order of the axis is the order of its dates. *)
Theorem X13_week_to_date_increasing incident_df task_df ctx :
  load incident_df task_df = Ok ctx ->
  exists d,
    week_to_date (unique_weeks ctx) = Ok d /\
    map fst d = unique_weeks ctx /\
    StronglySorted Z.lt (map snd d) /\
    Forall (fun v => weekday v = 0 /\ time_of_day v = 0) (map snd d) /\
    forall label v, In (label, v) d -> week_label_ts v = label.
Proof.
  intros Hl. apply load_ok in Hl. cbn zeta in Hl.
  destruct Hl as (_ & _ & _ & L & _ & [F S] & ->).
  eexists. split; [apply week_to_date_ok; exact F|].
  rewrite !map_map. cbn [fst snd].
  assert (Dm : forall t, ts_days (midnight t) = ts_days t).
  { intros t. unfold midnight, ts_days at 1. apply Z.div_mul. discriminate. }
  split; [reflexivity|]. split; [|split].
  - eapply StronglySorted_map; [|exact S].
    intros a b _ _ H. cbn beta in H. unfold midnight, NS_PER_DAY. lia.
  - apply Forall_forall. intros v Hv. apply in_map_iff in Hv.
    destruct Hv as (t & <- & Ht). rewrite Forall_forall in F.
    destruct (F t Ht) as [_ M]. split.
    + rewrite weekday_spec in *. now rewrite Dm.
    + unfold time_of_day, midnight. apply Z.mod_mul. discriminate.
  - intros label v Hin. apply in_map_iff in Hin.
    destruct Hin as (t & [= <- <-] & Ht).
    apply week_label_ts_same_week. now rewrite Dm.
Qed.

Lemma X13_week_to_date_increasing_witness :
  exists d,
    week_to_date (unique_weeks one_monday_ctx) = Ok d /\
    map fst d = unique_weeks one_monday_ctx.
Proof.
  destruct (X13_week_to_date_increasing one_monday [] one_monday_ctx)
    as (d & E & K & _).
  - vm_compute. reflexivity.
  - exists d. split; assumption.
Defined.

(** ** The filter and the group sizes (lines 90-98) *)

Lemma filter_idem {A : Type} (f : A -> bool) l :
  filter f (filter f l) = filter f l.
Proof.
  apply filter_all_true. intros x Hx. now apply filter_In in Hx.
Qed.

Lemma select_group_idem df sel :
  select_group (select_group df sel) sel = select_group df sel.
Proof.
  destruct sel as [g|]; cbn; [|reflexivity].
  destruct (String.eqb g EmptyString); [reflexivity | apply filter_idem].
Qed.

Lemma filter_length_le {A : Type} (f g : A -> bool) l :
  (List.length (filter f (filter g l)) <= List.length (filter f l))%nat.
Proof.
  induction l as [|x l IH]; [apply le_n|]. cbn [filter].
  destruct (g x); cbn [filter]; destruct (f x); cbn [List.length]; lia.
Qed.

Lemma group_size_select_le df sel k :
  0 <= group_size (select_group df sel) k <= group_size df k.
Proof.
  unfold group_size. split; [lia|]. apply inj_le.
  destruct sel as [g|]; cbn; [|apply le_n].
  destruct (String.eqb g EmptyString); [apply le_n | apply filter_length_le].
Qed.

(** X14 (the filter narrows): selecting a group twice is selecting it once;
    the selected rows are rows of [combined_df]; and under any filter value
    every cell of the dense table has the key of the cell at the same place
    of the unfiltered table and a count between 0 and that cell's count. *)
Theorem X14_filter_narrows_counts
        incident_df task_df ctx selected_group table table0 :
  load incident_df task_df = Ok ctx ->
  filled ctx selected_group = Ok table ->
  filled ctx None = Ok table0 ->
  select_group (select_group (combined_df ctx) selected_group) selected_group
  = select_group (combined_df ctx) selected_group /\
  (forall r, In r (select_group (combined_df ctx) selected_group) ->
             In r (combined_df ctx)) /\
  Forall2 (fun c c0 => fst c = fst c0 /\ 0 <= cell_count c <= cell_count c0)
          table table0.
Proof.
  intros Hl H H0.
  rewrite (filled_ok _ _ _ selected_group Hl) in H.
  rewrite (filled_ok _ _ _ None Hl) in H0.
  injection H as <-. injection H0 as <-.
  split; [apply select_group_idem|].
  split; [intros r; apply select_group_incl|].
  unfold count_table. induction (full_index ctx) as [|k idx IH]; cbn [map].
  - constructor.
  - constructor; [|exact IH]. cbn [fst]. split; [reflexivity|].
    unfold cell_count. cbn [snd select_group]. apply group_size_select_le.
Qed.

Lemma X14_filter_narrows_counts_witness :
  Forall2 (fun c c0 => fst c = fst c0 /\ 0 <= cell_count c <= cell_count c0)
          [(("2024-W01", "A"), 1); (("2024-W01", "B"), 0)]%string
          [(("2024-W01", "A"), 1); (("2024-W01", "B"), 1)]%string.
Proof.
  destruct (X14_filter_narrows_counts one_monday [] one_monday_ctx
              (Some "X"%string)
              [(("2024-W01", "A"), 1); (("2024-W01", "B"), 0)]%string
              [(("2024-W01", "A"), 1); (("2024-W01", "B"), 1)]%string)
    as (_ & _ & F); try (vm_compute; reflexivity).
  exact F.
Defined.

Lemma sum_string_indicator x a names :
  NoDup names ->
  sum_Z (map (fun p => if String.eqb x p then a else 0) names)
  = if existsb (String.eqb x) names then a else 0.
Proof.
  unfold sum_Z. induction 1 as [|p names Hp N IH]; [reflexivity|].
  cbn [map fold_right existsb]. rewrite IH.
  destruct (String.eqb_spec x p) as [-> | Ne]; cbn [orb]; [|lia].
  destruct (existsb (String.eqb p) names) eqn:X; [|lia].
  apply existsb_exists in X. destruct X as (q & Hq & E).
  apply String.eqb_eq in E. subst q. contradiction.
Qed.

Lemma group_size_filter_cons (f : Row -> bool) r df k :
  group_size (filter f (r :: df)) k
  = (if f r then if key_eqb (row_key r) k then 1 else 0 else 0)
    + group_size (filter f df) k.
Proof.
  cbn [filter]. destruct (f r); [apply group_size_cons | lia].
Qed.

Lemma group_size_by_group df k groups :
  NoDup groups ->
  sum_Z (map (fun g =>
                group_size
                  (filter (fun r => String.eqb (assignment_group r) g) df) k)
             groups)
  = Z.of_nat
      (List.length
         (filter (fun r => key_eqb (row_key r) k
                           && existsb (String.eqb (assignment_group r)) groups)
                 df)).
Proof.
  intros N. induction df as [|r df IH].
  - cbn [filter List.length]. clear N.
    induction groups as [|g groups IHg]; [reflexivity|].
    unfold sum_Z in *. cbn [map fold_right]. rewrite IHg. reflexivity.
  - rewrite (map_ext _ (fun g =>
               (if String.eqb (assignment_group r) g
                then if key_eqb (row_key r) k then 1 else 0 else 0)
               + group_size
                   (filter (fun r => String.eqb (assignment_group r) g) df) k))
      by (intros g; apply group_size_filter_cons).
    rewrite (sum_Z_add
               (fun g => if String.eqb (assignment_group r) g
                         then if key_eqb (row_key r) k then 1 else 0 else 0)).
    rewrite IH, sum_string_indicator by exact N.
    cbn [filter].
    destruct (key_eqb (row_key r) k),
             (existsb (String.eqb (assignment_group r)) groups);
      cbn [andb List.length]; lia.
Qed.

(** X15 (the groups partition the counts): for tables whose name columns
    are text, when no row has the empty string as its group, the numbers of
    rows with a given (week label, assignee) key selected by the offered
    groups, one group at a time, add up to the number of such rows with no
    filter. *)
Theorem X15_group_counts_add_up incident_df task_df ctx k :
  load incident_df task_df = Ok ctx ->
  ~ In EmptyString (assignment_groups ctx) ->
  sum_Z (map (fun g => group_size (select_group (combined_df ctx) (Some g)) k)
             (assignment_groups ctx))
  = group_size (select_group (combined_df ctx) None) k.
Proof.
  intros Hl Ne.
  pose proof (name_axes_in _ _ _ Hl) as [G _].
  assert (N : NoDup (assignment_groups ctx)).
  { apply load_ok in Hl. cbn zeta in Hl. destruct Hl as (_ & -> & _).
    apply sorted_unique_NoDup. }
  rewrite (map_ext_in _ (fun g =>
             group_size
               (filter (fun r => String.eqb (assignment_group r) g)
                       (combined_df ctx)) k)).
  - rewrite group_size_by_group by exact N. cbn [select_group].
    unfold group_size. f_equal. f_equal. apply filter_ext_in. intros r Hr.
    assert (existsb (String.eqb (assignment_group r)) (assignment_groups ctx)
            = true) as ->; [|apply andb_true_r].
    apply existsb_exists. exists (assignment_group r).
    split; [|apply String.eqb_refl]. apply G. eauto.
  - intros g Hg. cbn [select_group].
    destruct (String.eqb_spec g EmptyString) as [-> | _];
      [contradiction | reflexivity].
Qed.

Lemma X15_group_counts_add_up_witness :
  sum_Z (map (fun g => group_size (select_group (combined_df one_monday_ctx)
                                                (Some g))
                                  ("2024-W01", "A")%string)
             (assignment_groups one_monday_ctx))
  = group_size (select_group (combined_df one_monday_ctx) None)
               ("2024-W01", "A")%string.
Proof.
  apply (X15_group_counts_add_up one_monday [] one_monday_ctx).
  - vm_compute. reflexivity.
  - cbn. intros [H | [H | []]]; discriminate H.
Defined.

Lemma unique_keys_spec l : forall seen,
  NoDup (unique_keys seen l) /\
  forall k, In k (unique_keys seen l) -> In k l /\ ~ In k seen.
Proof.
  induction l as [|x l IH]; intros seen; cbn [unique_keys].
  - split; [constructor | intros k []].
  - destruct (existsb (key_eqb x) seen) eqn:E.
    + destruct (IH seen) as [N I]. split; [exact N|].
      intros k Hk. destruct (I k Hk). split; [now right | assumption].
    + destruct (IH (x :: seen)) as [N I]. split.
      * constructor; [|exact N]. intros Hx. destruct (I x Hx) as [_ C].
        apply C. now left.
      * intros k [<- | Hk].
        -- split; [now left|]. intros C. apply existsb_key_eqb in C. congruence.
        -- destruct (I k Hk) as [A B]. split; [now right|].
           intros C. apply B. now right.
Qed.

Lemma group_size_present r df : In r df -> 1 <= group_size df (row_key r).
Proof.
  intros H. unfold group_size.
  assert (In r (filter (fun r0 => key_eqb (row_key r0) (row_key r)) df)) as I.
  { apply filter_In. split; [exact H | apply key_eqb_refl]. }
  destruct (filter _ df); [destruct I | cbn [List.length]; lia].
Qed.

(** X16 (the sparse counts): the grouped table of lines 94-98 has one row
    per (week label, assignee) key that occurs among the selected rows and
    no other, each key once; the count of a key is the number of selected
    rows with it, at least 1, and the counts add up to the number of
    selected rows. *)
Theorem X16_grouped_counts (df : list Row) :
  NoDup (map fst (grouped df)) /\
  (forall k n, In (k, n) (grouped df) <->
               (exists r, In r df /\ row_key r = k) /\ n = group_size df k) /\
  Forall (fun c => 1 <= cell_count c) (grouped df) /\
  sum_Z (map cell_count (grouped df)) = Z.of_nat (List.length df).
Proof.
  unfold grouped.
  set (keys := sort_by key_leb (unique_keys [] (map row_key df))).
  assert (K : forall k, In k keys <-> exists r, In r df /\ row_key r = k).
  { intros k. unfold keys. rewrite sort_by_in. split.
    - intros H. apply unique_keys_spec in H. destruct H as [H _].
      apply in_map_iff in H. destruct H as (r & E & Hr). eauto.
    - intros (r & Hr & <-).
      destruct (unique_keys_in (map row_key df) [] (row_key r)) as [[] | H];
        [now apply in_map | exact H]. }
  assert (N : NoDup keys).
  { unfold keys. eapply Permutation_NoDup;
      [symmetry; apply sort_by_perm | apply unique_keys_spec]. }
  split; [|split; [|split]].
  - rewrite map_map. cbn [fst]. now rewrite map_id.
  - intros k n. rewrite in_map_iff. split.
    + intros (k' & [= <- <-] & Hk). split; [now apply K | reflexivity].
    + intros [Hk ->]. exists k. split; [reflexivity | now apply K].
  - apply Forall_forall. intros c Hc. apply in_map_iff in Hc.
    destruct Hc as (k & <- & Hk). apply K in Hk. destruct Hk as (r & Hr & <-).
    unfold cell_count. cbn [snd]. now apply group_size_present.
  - fold (count_table df keys). rewrite count_table_sum by exact N.
    f_equal. f_equal. apply filter_all_true. intros r Hr.
    apply existsb_key_eqb, K. eauto.
Qed.

(** ** The traces (lines 116-138) *)

(** The rows of one assignee in a table over a product index. *)
Lemma person_df_prod (f : Key -> Z) people p weeks :
  NoDup people ->
  person_df (map (fun k => (k, f k)) (list_prod weeks people)) p
  = if in_dec string_dec p people
    then map (fun w => ((w, p), f (w, p))) weeks else [].
Proof.
  intros N.
  assert (P : forall w,
             person_df (map (fun k => (k, f k))
                            (map (fun q => (w, q)) people)) p
             = if in_dec string_dec p people then [((w, p), f (w, p))] else []).
  { intros w. clear -N. induction N as [|q people Hq N IH]; [reflexivity|].
    cbn [map person_df filter]. unfold cell_person at 1. cbn [fst snd].
    fold (person_df (map (fun k => (k, f k)) (map (fun q => (w, q)) people)) p).
    destruct (String.eqb_spec q p) as [-> | Ne].
    - rewrite IH.
      destruct (in_dec string_dec p (p :: people)) as [_ | C];
        [|exfalso; apply C; now left].
      destruct (in_dec string_dec p people); [contradiction | reflexivity].
    - rewrite IH.
      destruct (in_dec string_dec p people) as [I | I];
        destruct (in_dec string_dec p (q :: people)) as [J | J];
        try reflexivity.
      + exfalso. apply J. now right.
      + exfalso. destruct J as [J | J]; congruence. }
  induction weeks as [|w weeks IH]; cbn [list_prod].
  - now destruct (in_dec string_dec p people).
  - unfold person_df in *. rewrite map_app, filter_app.
    etransitivity; [apply f_equal2; [apply P | apply IH]|].
    now destruct (in_dec string_dec p people).
Qed.

Lemma table_people incident_df task_df ctx df :
  load incident_df task_df = Ok ctx ->
  Permutation
    (sorted (unique (map cell_person (count_table df (full_index ctx)))))
    (match unique_weeks ctx with [] => [] | _ :: _ => unique_people ctx end).
Proof.
  intros Hl. pose proof (unique_people_NoDup _ _ _ Hl) as N.
  apply NoDup_Permutation.
  - apply sorted_unique_NoDup.
  - destruct (unique_weeks ctx); [constructor | exact N].
  - intros p. rewrite sorted_unique_in. unfold count_table, full_index.
    rewrite map_map, in_map_iff. split.
    + intros ([w q] & <- & H). apply in_prod_iff in H. destruct H as [Hw Hq].
      unfold cell_person. cbn [fst snd].
      destruct (unique_weeks ctx); [destruct Hw | exact Hq].
    + intros H. destruct (unique_weeks ctx) as [|w ws]; [destruct H|].
      exists (w, p). split; [reflexivity|]. apply in_prod; [now left | exact H].
Qed.

(** X17 (one series per assignee over the whole axis): with any sort that
    keeps the promise of [sort_values], the figure has one trace for each
    assignee when the axis is not empty and no trace when it is; the x
    values of a trace are the axis, its y values are the assignee's numbers
    of selected rows week by week, and it has one text per point. *)
Theorem X17_trace_per_assignee
        sort_values_desc incident_df task_df ctx selected_group fig :
  sort_values_contract sort_values_desc ->
  load incident_df task_df = Ok ctx ->
  update_chart sort_values_desc ctx selected_group = Ok fig ->
  Permutation (map trace_name fig)
    (match unique_weeks ctx with [] => [] | _ :: _ => unique_people ctx end) /\
  forall tr, In tr fig ->
    trace_x tr = unique_weeks ctx /\
    trace_y tr
    = map (fun w => group_size (select_group (combined_df ctx) selected_group)
                               (w, trace_name tr))
          (unique_weeks ctx) /\
    List.length (trace_text tr) = List.length (unique_weeks ctx).
Proof.
  intros C Hl Hu. unfold update_chart in Hu.
  rewrite (filled_ok _ _ _ _ Hl) in Hu. cbn [bind] in Hu. injection Hu as <-.
  set (df := select_group (combined_df ctx) selected_group).
  set (table := count_table df (full_index ctx)).
  destruct (C (count_sums table)) as [P _].
  assert (Names : Permutation (totals sort_values_desc table)
                    (match unique_weeks ctx with
                     | [] => []
                     | _ :: _ => unique_people ctx
                     end)).
  { unfold totals. rewrite (Permutation_map fst P), count_sums_names.
    unfold table. eapply table_people; eauto. }
  split.
  - rewrite map_map. rewrite (map_ext _ (fun p => p)) by reflexivity.
    now rewrite map_id.
  - intros tr Htr. apply in_map_iff in Htr. destruct Htr as (p & <- & Hp).
    apply (Permutation_in _ Names) in Hp.
    assert (Ip : In p (unique_people ctx)).
    { destruct (unique_weeks ctx); [destruct Hp | exact Hp]. }
    pose proof (unique_people_NoDup _ _ _ Hl) as N.
    unfold make_trace. cbn [trace_x trace_y trace_text trace_name].
    unfold table, count_table, full_index.
    rewrite (person_df_prod _ _ p _ N).
    destruct (in_dec string_dec p (unique_people ctx)); [|contradiction].
    rewrite !map_map, length_map. cbn [fst snd].
    split; [apply map_id|]. split; reflexivity.
Qed.

Lemma X17_trace_per_assignee_witness :
  Permutation
    (map trace_name [mkTrace "A" ["2024-W01"] [1] ["1"];
                     mkTrace "B" ["2024-W01"] [0] [EmptyString]]%string)
    (match unique_weeks one_monday_ctx with
     | [] => []
     | _ :: _ => unique_people one_monday_ctx
     end).
Proof.
  destruct (X17_trace_per_assignee sort_desc_stable one_monday []
              one_monday_ctx (Some "X"%string)
              [mkTrace "A" ["2024-W01"] [1] ["1"];
               mkTrace "B" ["2024-W01"] [0] [EmptyString]]%string
              sort_desc_stable_contract
              ltac:(vm_compute; reflexivity) ltac:(vm_compute; reflexivity))
    as [P _].
  exact P.
Defined.

Lemma sum_Z_perm l l' : Permutation l l' -> sum_Z l = sum_Z l'.
Proof.
  unfold sum_Z. induction 1; cbn [fold_right]; lia.
Qed.

Lemma person_df_cons c table p :
  sum_Z (map cell_count (person_df (c :: table) p))
  = (if String.eqb (cell_person c) p then cell_count c else 0)
    + sum_Z (map cell_count (person_df table p)).
Proof.
  unfold person_df. cbn [filter].
  destruct (String.eqb (cell_person c) p); [reflexivity | lia].
Qed.

(** Every cell of a table is in the rows of exactly one assignee. *)
Lemma sum_by_person table names :
  NoDup names ->
  (forall c, In c table -> In (cell_person c) names) ->
  sum_Z (map (fun p => sum_Z (map cell_count (person_df table p))) names)
  = sum_Z (map cell_count table).
Proof.
  intros N. induction table as [|c table IH]; intros H.
  - rewrite (map_ext _ (fun _ => 0)) by reflexivity. clear.
    induction names as [|p names IHn]; [reflexivity|].
    unfold sum_Z in *. cbn [map fold_right]. now rewrite IHn.
  - rewrite (map_ext _ (fun p =>
               (if String.eqb (cell_person c) p then cell_count c else 0)
               + sum_Z (map cell_count (person_df table p))))
      by (intros; apply person_df_cons).
    rewrite (sum_Z_add
               (fun p => if String.eqb (cell_person c) p then cell_count c else 0)).
    rewrite IH by (intros c' Hc'; apply H; now right).
    rewrite sum_string_indicator by exact N.
    assert (existsb (String.eqb (cell_person c)) names = true) as ->.
    { apply existsb_exists. exists (cell_person c).
      split; [apply H; now left | apply String.eqb_refl]. }
    reflexivity.
Qed.

(** X18 (nothing lost between the table and the traces): with any sort
    that keeps the promise of [sort_values], the totals of the traces add up
    to the sum of the counts of the dense table, that is to the number of
    selected rows whose week is on the axis. *)
Theorem X18_trace_totals_add_up
        sort_values_desc incident_df task_df ctx selected_group fig :
  sort_values_contract sort_values_desc ->
  load incident_df task_df = Ok ctx ->
  update_chart sort_values_desc ctx selected_group = Ok fig ->
  exists table,
    filled ctx selected_group = Ok table /\
    sum_Z (map trace_total fig) = sum_Z (map cell_count table) /\
    sum_Z (map trace_total fig)
    = Z.of_nat
        (List.length
           (filter (fun r => existsb (String.eqb (week_label r))
                                     (unique_weeks ctx))
                   (select_group (combined_df ctx) selected_group))).
Proof.
  intros C Hl Hu. pose proof (filled_ok _ _ _ selected_group Hl) as Hf.
  unfold update_chart in Hu. rewrite Hf in Hu. cbn [bind] in Hu.
  injection Hu as <-. eexists. split; [exact Hf|].
  set (table := count_table _ _) in *.
  assert (E : sum_Z (map trace_total
                         (map (make_trace table) (totals sort_values_desc table)))
              = sum_Z (map cell_count table)).
  { destruct (C (count_sums table)) as [P _].
    unfold totals. rewrite !map_map.
    rewrite (map_ext_in _ snd).
    2:{ intros [p s] Hps. apply (Permutation_in _ P) in Hps.
        apply count_sums_in in Hps. cbn [fst snd]. now rewrite Hps. }
    rewrite (sum_Z_perm _ _ (Permutation_map snd P)).
    unfold count_sums. rewrite map_map. cbn [snd].
    apply sum_by_person.
    - apply sorted_unique_NoDup.
    - intros c Hc. apply sorted_unique_in. now apply in_map. }
  split; [exact E|]. rewrite E. eapply filled_sum; eauto.
Qed.

Lemma X18_trace_totals_add_up_witness :
  exists table,
    filled one_monday_ctx None = Ok table /\
    sum_Z (map trace_total [mkTrace "A" ["2024-W01"] [1] ["1"];
                            mkTrace "B" ["2024-W01"] [1] ["1"]]%string)
    = sum_Z (map cell_count table).
Proof.
  destruct (X18_trace_totals_add_up sort_desc_stable one_monday []
              one_monday_ctx None
              [mkTrace "A" ["2024-W01"] [1] ["1"];
               mkTrace "B" ["2024-W01"] [1] ["1"]]%string
              sort_desc_stable_contract
              ltac:(vm_compute; reflexivity) ltac:(vm_compute; reflexivity))
    as (table & F & E & _).
  exists table. split; assumption.
Defined.

(** ** The palette (lines 110-114, 135) *)

Lemma palette_NoDup : NoDup palette.
Proof.
  unfold palette.
  repeat (constructor;
          [cbn [In]; intros H;
           repeat (destruct H as [H | H]; [discriminate H|]); exact H|]).
  constructor.
Qed.

(** X19 (line colours): the colour of a trace is always one of the ten
    palette entries, whatever its position, and two traces get the same
    colour exactly when their positions differ by a multiple of ten; the
    first ten traces have ten different colours. *)
Theorem X19_trace_colors_cycle (i j : nat) :
  In (trace_color i) palette /\
  (trace_color i = trace_color j <-> (i mod 10 = j mod 10)%nat) /\
  trace_color (i + 10) = trace_color i.
Proof.
  unfold trace_color. change (List.length palette) with 10%nat.
  assert (Hi : (i mod 10 < 10)%nat) by (apply Nat.mod_upper_bound; discriminate).
  assert (Hj : (j mod 10 < 10)%nat) by (apply Nat.mod_upper_bound; discriminate).
  split; [apply nth_In; exact Hi|]. split.
  - split.
    + intros E. pose proof palette_NoDup as N.
      rewrite (NoDup_nth palette EmptyString) in N. apply N; assumption.
    + intros ->. reflexivity.
  - f_equal. rewrite <- (Nat.mul_1_l 10) at 1. apply Nat.Div0.mod_add.
Qed.

(** ** The point labels (line 132) *)

(** [str] writes a number so that it reads back. *)
Lemma str_of_Z_reads_back z :
  option_map Z.of_int (NilZero.int_of_string (str_of_Z z)) = Some z.
Proof.
  unfold str_of_Z. rewrite NilZero.isi.
  - cbn [option_map]. now rewrite DecimalZ.of_to.
  - destruct z; cbn; try discriminate.
    intros [= E]. now apply DecimalPos.Unsigned.to_uint_nonnil in E.
  - destruct z; cbn; try discriminate.
    intros [= E]. now apply DecimalPos.Unsigned.to_uint_nonnil in E.
Qed.

Lemma str_of_Z_nonempty z : str_of_Z z <> EmptyString.
Proof.
  intros E. pose proof (str_of_Z_reads_back z) as H. rewrite E in H.
  discriminate H.
Qed.

(** X20 (point labels): in every trace no count is negative, a week
    with count 0 carries the empty text, and a week with a positive count
    carries a non-empty text that reads back, as a decimal numeral, as that
    count. *)
Theorem X20_point_texts
        sort_values_desc incident_df task_df ctx selected_group fig :
  load incident_df task_df = Ok ctx ->
  update_chart sort_values_desc ctx selected_group = Ok fig ->
  forall tr, In tr fig ->
    Forall2 (fun v text =>
               0 <= v /\
               (v = 0 -> text = EmptyString) /\
               (0 < v ->
                text <> EmptyString /\
                option_map Z.of_int (NilZero.int_of_string text) = Some v))
            (trace_y tr) (trace_text tr).
Proof.
  intros Hl Hu tr Htr. unfold update_chart in Hu.
  rewrite (filled_ok _ _ _ _ Hl) in Hu. cbn [bind] in Hu. injection Hu as <-.
  apply in_map_iff in Htr. destruct Htr as (p & <- & _).
  unfold make_trace. cbn [trace_y trace_text].
  set (table := count_table _ _).
  assert (Nn : forall c, In c (person_df table p) -> 0 <= cell_count c).
  { intros [k n] Hc. unfold person_df in Hc. apply filter_In in Hc.
    destruct Hc as [Hc _]. apply count_table_in in Hc. destruct Hc as [_ ->].
    unfold cell_count, group_size. cbn [snd]. lia. }
  induction (person_df table p) as [|c rows IH]; cbn [map]; constructor.
  - assert (0 <= cell_count c) by (apply Nn; now left).
    split; [assumption|]. split.
    + intros ->. reflexivity.
    + intros Hpos. destruct (Z.ltb_spec 0 (cell_count c)); [|lia].
      split; [apply str_of_Z_nonempty | apply str_of_Z_reads_back].
  - apply IH. intros c' Hc'. apply Nn. now right.
Qed.

Lemma X20_point_texts_witness :
  Forall2 (fun v text =>
             0 <= v /\
             (v = 0 -> text = EmptyString) /\
             (0 < v ->
              text <> EmptyString /\
              option_map Z.of_int (NilZero.int_of_string text) = Some v))
          (trace_y (mkTrace "A" ["2024-W01"%string] [1] ["1"%string]))
          (trace_text (mkTrace "A" ["2024-W01"%string] [1] ["1"%string])).
Proof.
  apply (X20_point_texts sort_desc_stable one_monday [] one_monday_ctx
           (Some "X"%string)
           [mkTrace "A" ["2024-W01"] [1] ["1"];
            mkTrace "B" ["2024-W01"] [0] [EmptyString]]%string).
  - vm_compute. reflexivity.
  - vm_compute. reflexivity.
  - left. reflexivity.
Defined.

(** ** What the figure does not depend on *)

Lemma ts_minimum_perm l l' :
  Permutation l l' -> ts_minimum l = ts_minimum l'.
Proof.
  intros P. destruct (ts_minimum l) as [m|] eqn:E, (ts_minimum l') as [m'|] eqn:E'.
  - apply ts_minimum_spec in E, E'. destruct E as [I L], E' as [I' L'].
    f_equal. apply Z.le_antisymm.
    + apply L. eapply Permutation_in; [symmetry; exact P | exact I'].
    + apply L'. eapply Permutation_in; [exact P | exact I].
  - destruct l' as [|x l']; [|discriminate]. apply Permutation_sym in P.
    apply Permutation_nil in P. subst l. discriminate.
  - destruct l as [|x l]; [|discriminate].
    apply Permutation_nil in P. subst l'. discriminate.
  - reflexivity.
Qed.

Lemma ts_maximum_perm l l' :
  Permutation l l' -> ts_maximum l = ts_maximum l'.
Proof.
  intros P. destruct (ts_maximum l) as [m|] eqn:E, (ts_maximum l') as [m'|] eqn:E'.
  - apply ts_maximum_spec in E, E'. destruct E as [I L], E' as [I' L'].
    f_equal. apply Z.le_antisymm.
    + apply L'. eapply Permutation_in; [exact P | exact I].
    + apply L. eapply Permutation_in; [symmetry; exact P | exact I'].
  - destruct l' as [|x l']; [|discriminate]. apply Permutation_sym in P.
    apply Permutation_nil in P. subst l. discriminate.
  - destruct l as [|x l]; [|discriminate].
    apply Permutation_nil in P. subst l'. discriminate.
  - reflexivity.
Qed.

(** Two lists in ascending order with the same entries are one list. *)
Lemma sorted_perm_eq l : forall l',
  StronglySorted (fun a b => String.leb a b = true) l ->
  StronglySorted (fun a b => String.leb a b = true) l' ->
  Permutation l l' -> l = l'.
Proof.
  induction l as [|x l IH]; intros l' S S' P.
  - apply Permutation_nil in P. now subst.
  - destruct l' as [|y l'].
    { apply Permutation_sym, Permutation_nil in P. discriminate. }
    inversion S as [|? ? S1 F1]; subst. inversion S' as [|? ? S2 F2]; subst.
    assert (x = y) as ->.
    { assert (Hx : In x (y :: l')) by (eapply Permutation_in; [exact P | now left]).
      assert (Hy : In y (x :: l))
        by (eapply Permutation_in; [symmetry; exact P | now left]).
      destruct Hx as [-> | Hx]; [reflexivity|].
      destruct Hy as [-> | Hy]; [reflexivity|].
      rewrite Forall_forall in F1, F2.
      apply String.leb_antisym; [apply F1, Hy | apply F2, Hx]. }
    f_equal. apply IH; try assumption. eapply Permutation_cons_inv, P.
Qed.

Lemma sorted_unique_ext l l' :
  (forall x, In x l <-> In x l') -> sorted (unique l) = sorted (unique l').
Proof.
  intros H. apply sorted_perm_eq; try apply sorted_sorted.
  apply NoDup_Permutation; try apply sorted_unique_NoDup.
  intros x. rewrite !sorted_unique_in. apply H.
Qed.

Lemma filter_length_perm {A : Type} (g : A -> bool) l l' :
  Permutation l l' -> List.length (filter g l) = List.length (filter g l').
Proof.
  induction 1 as [|x l l' P IH|x y l|l l' l'' P IH P' IH']; cbn [filter].
  - reflexivity.
  - destruct (g x); cbn [List.length]; congruence.
  - destruct (g x), (g y); reflexivity.
  - congruence.
Qed.

Lemma filter_map_length {A B : Type} (c : A -> B) (g : B -> bool) l :
  List.length (filter (fun x => g (c x)) l)
  = List.length (filter g (map c l)).
Proof.
  induction l as [|x l IH]; [reflexivity|]. cbn [map filter].
  destruct (g (c x)); cbn [List.length]; congruence.
Qed.

Lemma filter_filter_length {A : Type} (f h : A -> bool) l :
  List.length (filter f (filter h l))
  = List.length (filter (fun x => h x && f x) l).
Proof.
  induction l as [|x l IH]; [reflexivity|]. cbn [filter].
  destruct (h x); cbn [andb filter]; [|exact IH].
  destruct (f x); cbn [List.length]; congruence.
Qed.

Lemma group_size_drop_source df df' sel k :
  Permutation (map drop_source df) (map drop_source df') ->
  group_size (select_group df sel) k = group_size (select_group df' sel) k.
Proof.
  intros P. unfold group_size. f_equal.
  set (key := fun c : string * string * Z =>
                key_eqb (week_label_of (fst (isocalendar (snd c)),
                                        snd (isocalendar (snd c))),
                         fst (fst c)) k).
  assert (E0 : forall d : list Row,
             List.length (filter (fun r => key_eqb (row_key r) k) d)
             = List.length (filter key (map drop_source d))).
  { intros d. apply (filter_map_length drop_source key). }
  assert (E1 : forall g (d : list Row),
             List.length (filter (fun r => key_eqb (row_key r) k)
                            (filter (fun r => String.eqb (assignment_group r) g) d))
             = List.length
                 (filter (fun c => String.eqb (snd (fst c)) g && key c)
                    (map drop_source d))).
  { intros g d. rewrite filter_filter_length.
    apply (filter_map_length drop_source
             (fun c => String.eqb (snd (fst c)) g && key c)). }
  destruct sel as [g|]; cbn [select_group].
  - destruct (String.eqb g EmptyString).
    + rewrite !E0. now apply filter_length_perm.
    + rewrite !E1. now apply filter_length_perm.
  - rewrite !E0. now apply filter_length_perm.
Qed.

Lemma drop_source_columns df df' :
  Permutation (map drop_source df) (map drop_source df') ->
  Permutation (map assigned_to df) (map assigned_to df') /\
  Permutation (map assignment_group df) (map assignment_group df') /\
  Permutation (map opened_at df) (map opened_at df').
Proof.
  intros P.
  assert (Ea : forall d, map assigned_to d
                         = map (fun c : string * string * Z => fst (fst c))
                               (map drop_source d))
    by (intros d; now rewrite map_map).
  assert (Eg : forall d, map assignment_group d
                         = map (fun c : string * string * Z => snd (fst c))
                               (map drop_source d))
    by (intros d; now rewrite map_map).
  assert (Et : forall d, map opened_at d
                         = map (fun c : string * string * Z => snd c)
                               (map drop_source d))
    by (intros d; now rewrite map_map).
  rewrite !Ea, !Eg, !Et. repeat split; now apply Permutation_map.
Qed.

(** X21 (row order and source): when the normalised tables of two pairs of
    input files hold the same tickets up to the order of the rows and the
    [source] column, and the first pair imports, then the second imports as
    well, with the same three axes, and for every filter value the dense
    table and the figure are the same. *)
Theorem X21_row_order_and_source_irrelevant
        incident_df task_df incident_df' task_df' ctx :
  Permutation (map drop_source (build_combined_df incident_df task_df))
              (map drop_source (build_combined_df incident_df' task_df')) ->
  load incident_df task_df = Ok ctx ->
  exists ctx',
    load incident_df' task_df' = Ok ctx' /\
    assignment_groups ctx' = assignment_groups ctx /\
    unique_weeks ctx' = unique_weeks ctx /\
    unique_people ctx' = unique_people ctx /\
    forall selected_group,
      filled ctx' selected_group = filled ctx selected_group /\
      forall sort_values_desc,
        update_chart sort_values_desc ctx' selected_group
        = update_chart sort_values_desc ctx selected_group.
Proof.
  intros P Hl.
  destruct (drop_source_columns _ _ P) as (Pa & Pg & Pt).
  assert (Hl' : exists ctx',
             load incident_df' task_df' = Ok ctx' /\
             assignment_groups ctx' = assignment_groups ctx /\
             unique_weeks ctx' = unique_weeks ctx /\
             unique_people ctx' = unique_people ctx).
  { unfold load in *. unfold all_weeks in *.
    rewrite <- (ts_minimum_perm _ _ Pt), <- (ts_maximum_perm _ _ Pt).
    destruct (date_range_W_MON _ _) as [weeks|e]; [|discriminate].
    cbn [bind] in *. injection Hl as <-. eexists. split; [reflexivity|].
    cbn [assignment_groups unique_weeks unique_people]. repeat split.
    - apply sorted_unique_ext. intros x.
      split; apply Permutation_in; [symmetry|]; exact Pg.
    - apply sorted_unique_ext. intros x.
      split; apply Permutation_in; [symmetry|]; exact Pa. }
  destruct Hl' as (ctx' & Hl' & Eg & Ew & Ep). exists ctx'.
  split; [exact Hl'|]. split; [exact Eg|]. split; [exact Ew|].
  split; [exact Ep|].
  assert (Ef : forall sel, filled ctx' sel = filled ctx sel).
  { intros sel. rewrite (filled_ok _ _ _ sel Hl'), (filled_ok _ _ _ sel Hl).
    f_equal. unfold full_index. rewrite Ew, Ep. unfold count_table.
    apply map_ext. intros k. f_equal.
    apply load_ok in Hl, Hl'. cbn zeta in Hl, Hl'.
    destruct Hl as (-> & _), Hl' as (-> & _).
    apply group_size_drop_source. now apply Permutation_sym. }
  intros sel. split; [apply Ef|]. intros srt. unfold update_chart.
  now rewrite Ef.
Qed.

Lemma X21_row_order_and_source_irrelevant_witness :
  exists ctx',
    load [] (rev one_monday) = Ok ctx' /\
    assignment_groups ctx' = assignment_groups one_monday_ctx /\
    unique_weeks ctx' = unique_weeks one_monday_ctx /\
    unique_people ctx' = unique_people one_monday_ctx /\
    forall selected_group,
      filled ctx' selected_group = filled one_monday_ctx selected_group /\
      forall sort_values_desc,
        update_chart sort_values_desc ctx' selected_group
        = update_chart sort_values_desc one_monday_ctx selected_group.
Proof.
  apply (X21_row_order_and_source_irrelevant one_monday [] [] (rev one_monday)).
  - vm_compute. apply perm_swap.
  - vm_compute. reflexivity.
Defined.
